(** * rsyslog's libgcrypt crypto provider (runtime/libgcry.c)

    A shallow embedding of the encryption-info side-file codec, the padding
    scheme and the cipher-session life cycle of [runtime/libgcry.c], followed
    by the properties established about them.

    Conventions of the embedding.
    - A C integer is a [Z]; every conversion to a narrower or unsigned type is
      written out with [u16], [u32], [u64], [i16].
    - A byte buffer is a [list Z] holding the bytes that are addressable from
      the C pointer: the buffer proper followed by whatever memory lies behind
      it.  Lengths travel separately, as in the C code.  A store outside the
      modelled region is dropped, a load outside it yields [0]; both are
      undefined behaviour in C.
    - The operating system is a [world] that is threaded through every
      function performing a system call; the session structure is threaded
      next to it.
    - Heap allocation is assumed to succeed.  Deallocation and system calls
      are recorded in the trace of the world. *)

From stdpp Require Import gmap strings list.

Local Open Scope Z_scope.

(** ** Machine integers *)

Definition u16 (z : Z) : Z := z mod 2 ^ 16.
Definition u32 (z : Z) : Z := z mod 2 ^ 32.
Definition u64 (z : Z) : Z := z mod 2 ^ 64.

(** Conversion to [int16_t]. *)
Definition i16 (z : Z) : Z :=
  let r := z mod 2 ^ 16 in if r <? 2 ^ 15 then r else r - 2 ^ 16.

(** The value a byte has when it is read through a plain (signed) [char]. *)
Definition schar (b : Z) : Z :=
  let r := b mod 2 ^ 8 in if r <? 2 ^ 7 then r else r - 2 ^ 8.

(** ** Bytes and C strings *)

(** The bytes of a string literal, without the terminating NUL. *)
Fixpoint bytes (s : string) : list Z :=
  match s with
  | EmptyString => []
  | String a s' => Z.of_N (Ascii.N_of_ascii a) :: bytes s'
  end.

(** [buf[i]] as an rvalue. *)
Definition peek (buf : list Z) (i : Z) : Z :=
  if i <? 0 then 0 else default 0 (buf !! Z.to_nat i).

(** [buf[i] = v]. *)
Definition poke (buf : list Z) (i : Z) (v : Z) : list Z :=
  if i <? 0 then buf else <[Z.to_nat i := v]> buf.

(** Overwrite the front of [buf] with [data], as [read] and the in-place
    cipher calls do. *)
Definition blit (data buf : list Z) : list Z :=
  take (length buf) (data ++ drop (length data) buf).

(** The C string stored at the start of a character array. *)
Fixpoint c_str (l : list Z) : list Z :=
  match l with
  | [] => []
  | c :: l' => if c =? 0 then [] else c :: c_str l'
  end.

Definition strlen (l : list Z) : Z := Z.of_nat (length (c_str l)).

(** [strcmp(a, b) == 0]. *)
Definition streq (a b : list Z) : bool := bool_decide (c_str a = c_str b).

(** [strchr(buf, 0x00) - buf].  The library function looks for the
    terminating NUL and knows no length.  [None] stands for a scan that leaves
    the modelled memory without meeting a NUL. *)
Fixpoint strchr_NUL (buf : list Z) : option Z :=
  match buf with
  | [] => None
  | c :: buf' => if c =? 0 then Some 0 else Z.succ <$> strchr_NUL buf'
  end.

(** ** Return codes (rsyslog.h) *)

Inductive rsRetVal : Set :=
  | RS_RET_OK
  | RS_RET_OUT_OF_MEMORY
  | RS_RET_ERR
  | RS_RET_EI_OPN_ERR
  | RS_RET_EI_NO_EXISTS
  | RS_RET_EI_WR_ERR
  | RS_RET_EI_INVLD_FILE
  | RS_RET_CRY_INVLD_ALGO
  | RS_RET_CRY_INVLD_MODE.

#[global] Instance rsRetVal_eq_dec : EqDecision rsRetVal.
Proof. solve_decision. Defined.

(** ** Constants *)

Definition READBUF_SIZE : Z := 4096.
Definition EOF : Z := -1.

(** Modelled from the spec: [EIF_MAX_RECTYPE_LEN] is declared in libgcry.h,
    which is not part of the sources at hand.  The format description gives
    31 bytes as the limit of a record type. *)
Definition EIF_MAX_RECTYPE_LEN : Z := 31.

(** Modelled from the spec: [EIF_MAX_VALUE_LEN] is declared in libgcry.h.
    The format description gives 1023 bytes as the limit of a value. *)
Definition EIF_MAX_VALUE_LEN : Z := 1023.

(** Modelled from the spec: [RSGCRY_FILETYPE_NAME] is declared in libgcry.h.
    The header comment of libgcry.c spells the first line of a side-file
    as below. *)
Definition RSGCRY_FILETYPE_NAME : string := "rsyslog-enrcyption-info".

(** Modelled from the spec: [ENCINFO_SUFFIX] is declared in libgcry.h; the
    side-file is named like the log file with this suffix. *)
Definition ENCINFO_SUFFIX : string := ".encinfo".

(** libgcrypt's identifiers (gcrypt.h). *)
Definition GCRY_CIPHER_NONE : Z := 0.
Definition GCRY_CIPHER_AES128 : Z := 7.
Definition GCRY_CIPHER_MODE_NONE : Z := 0.
Definition GCRY_CIPHER_MODE_CBC : Z := 3.

(** errno values (errno.h). *)
Definition ENOENT : Z := 2.
Definition EBADF : Z := 9.
Definition EACCES : Z := 13.
Definition ENOSPC : Z := 28.

(** ** State passing *)

Definition St (S A : Type) : Type := S -> A * S.

Definition ret {S A : Type} (a : A) : St S A := fun s => (a, s).

Definition bind {S A B : Type} (m : St S A) (k : A -> St S B) : St S B :=
  fun s => let (a, s') := m s in k a s'.

Notation "x <- m ;; k" := (bind m (fun x => k))
  (at level 100, m at next level, right associativity).
Notation "m ;;; k" := (bind m (fun _ => k))
  (at level 100, right associativity).

(** ** The operating system *)

Inductive access : Set := O_RDONLY | O_WRONLY.

(** The flags of [open] that matter here; [O_NOCTTY] and [O_CLOEXEC] have no
    effect on the files of the model. *)
Record oflags : Set := { o_access : access; o_append : bool; o_creat : bool }.

(** A file: its content and whether this process may read and write it. *)
Record inode : Type := { i_data : list Z; i_rd : bool; i_wr : bool }.

(** An open file description. *)
Record ofile : Type := { of_path : string; of_flags : oflags; of_pos : nat }.

Inductive heap_obj : Set := ObjReadBuf | ObjEiName | ObjGcryfile | ObjIV | ObjCtx.

Inductive event : Type :=
  | EvOpen (path : string) (fl : oflags) (r : Z)
  | EvRead (fd count r : Z)
  | EvWritev (fd : Z) (data : list Z) (r : Z)
  | EvClose (fd : Z)
  | EvSleep
  | EvFree (o : heap_obj).

Record world : Type := {
  w_files : gmap string inode;       (* the file system *)
  w_fds : gmap Z ofile;              (* the descriptor table of the process *)
  w_errno : Z;
  w_space : Z;                       (* bytes the device still accepts *)
  w_junk : nat -> Z;                 (* what fresh heap memory happens to hold *)
  w_others : list (string * list Z); (* files other processes create, one per sleep *)
  w_trace : list event }.

Definition with_files (f : gmap string inode) (w : world) : world :=
  {| w_files := f; w_fds := w_fds w; w_errno := w_errno w; w_space := w_space w;
     w_junk := w_junk w; w_others := w_others w; w_trace := w_trace w |}.

Definition with_fds (t : gmap Z ofile) (w : world) : world :=
  {| w_files := w_files w; w_fds := t; w_errno := w_errno w; w_space := w_space w;
     w_junk := w_junk w; w_others := w_others w; w_trace := w_trace w |}.

Definition with_errno (e : Z) (w : world) : world :=
  {| w_files := w_files w; w_fds := w_fds w; w_errno := e; w_space := w_space w;
     w_junk := w_junk w; w_others := w_others w; w_trace := w_trace w |}.

Definition with_space (n : Z) (w : world) : world :=
  {| w_files := w_files w; w_fds := w_fds w; w_errno := w_errno w; w_space := n;
     w_junk := w_junk w; w_others := w_others w; w_trace := w_trace w |}.

Definition with_others (o : list (string * list Z)) (w : world) : world :=
  {| w_files := w_files w; w_fds := w_fds w; w_errno := w_errno w; w_space := w_space w;
     w_junk := w_junk w; w_others := o; w_trace := w_trace w |}.

Definition log (e : event) (w : world) : world :=
  {| w_files := w_files w; w_fds := w_fds w; w_errno := w_errno w; w_space := w_space w;
     w_junk := w_junk w; w_others := w_others w; w_trace := w_trace w ++ [e] |}.

Definition new_file (d : list Z) : inode := {| i_data := d; i_rd := true; i_wr := true |}.

(** [open] hands out the lowest descriptor that is not in use. *)
Definition lowest_fd (t : gmap Z ofile) : Z :=
  default 0 (find (fun n => negb (bool_decide (is_Some (t !! n))))
                  (Z.of_nat <$> seq 0 (S (size t)))).

Definition may (a : access) (ino : inode) : bool :=
  match a with O_RDONLY => i_rd ino | O_WRONLY => i_wr ino end.

Definition sys_open (path : string) (fl : oflags) : St world Z := fun w =>
  let fail e := (-1, log (EvOpen path fl (-1)) (with_errno e w)) in
  let grant w0 :=
    let fd := lowest_fd (w_fds w0) in
    let o := {| of_path := path; of_flags := fl; of_pos := 0 |} in
    (fd, log (EvOpen path fl fd) (with_fds (<[fd := o]> (w_fds w0)) w0)) in
  match w_files w !! path with
  | Some ino => if may (o_access fl) ino then grant w else fail EACCES
  | None =>
      if o_creat fl then grant (with_files (<[path := new_file []]> (w_files w)) w)
      else fail ENOENT
  end.

(** [read(fd, buf, count)]: the result and the bytes delivered. *)
Definition sys_read (fd count : Z) : St world (Z * list Z) := fun w =>
  let fail := ((-1, []), log (EvRead fd count (-1)) (with_errno EBADF w)) in
  match w_fds w !! fd with
  | Some o =>
      match o_access (of_flags o), w_files w !! of_path o with
      | O_RDONLY, Some ino =>
          let data := take (Z.to_nat count) (drop (of_pos o) (i_data ino)) in
          let n := Z.of_nat (length data) in
          let o' := {| of_path := of_path o; of_flags := of_flags o;
                       of_pos := (of_pos o + length data)%nat |} in
          ((n, data), log (EvRead fd count n) (with_fds (<[fd := o']> (w_fds w)) w))
      | _, _ => fail
      end
  | None => fail
  end.

(** [writev(fd, iov, iovcnt)] with the pieces of [iov] already joined.  The
    device takes what it has room for; it reports an error when it cannot
    take a single byte. *)
Definition sys_writev (fd : Z) (data : list Z) : St world Z := fun w =>
  let fail e := (-1, log (EvWritev fd data (-1)) (with_errno e w)) in
  match w_fds w !! fd with
  | Some o =>
      match o_access (of_flags o), w_files w !! of_path o with
      | O_WRONLY, Some ino =>
          if (w_space w <=? 0) && negb (bool_decide (data = [])) then fail ENOSPC
          else
            let chunk := take (Z.to_nat (w_space w)) data in
            let n := length chunk in
            let pos := if o_append (of_flags o) then length (i_data ino) else of_pos o in
            let d' := take pos (i_data ino) ++ chunk ++ drop (pos + n) (i_data ino) in
            let ino' := {| i_data := d'; i_rd := i_rd ino; i_wr := i_wr ino |} in
            let o' := {| of_path := of_path o; of_flags := of_flags o;
                         of_pos := (pos + n)%nat |} in
            (Z.of_nat n,
             log (EvWritev fd data (Z.of_nat n))
               (with_space (w_space w - Z.of_nat n)
                  (with_fds (<[fd := o']> (w_fds w))
                     (with_files (<[of_path o := ino']> (w_files w)) w))))
      | _, _ => fail EBADF
      end
  | None => fail EBADF
  end.

(** [close(fd)]; no caller in this file looks at its result. *)
Definition sys_close (fd : Z) : St world unit := fun w =>
  (tt, log (EvClose fd) (with_fds (delete fd (w_fds w)) w)).

Definition sys_errno : St world Z := fun w => (w_errno w, w).

(** [malloc(n)]: a block of [n] bytes with indeterminate content. *)
Definition malloc (n : Z) : St world (list Z) := fun w =>
  (w_junk w <$> seq 0 (Z.to_nat n), w).

(** [free(p)]; [free(NULL)] does nothing. *)
Definition free {A : Type} (p : option A) (o : heap_obj) : St world unit := fun w =>
  (tt, match p with Some _ => log (EvFree o) w | None => w end).

(** [srSleep]: while this process sleeps, another one may create a file. *)
Definition srSleep : St world unit := fun w =>
  (tt, match w_others w with
       | [] => log EvSleep w
       | (p, d) :: rest =>
           log EvSleep (with_others rest (with_files (<[p := new_file d]> (w_files w)) w))
       end).

(** Memory that has not been initialised: stack arrays and [malloc] blocks. *)
Definition uninit (n : Z) : St world (list Z) := malloc n.

(** ** libgcrypt, as far as libgcry.c consumes it

    A cipher handle points to state that the library mutates; the calls
    return the new state next to the error code ([0] is success).  The
    in-place transformations receive the [len] bytes they work on and return
    their replacement. *)

Class Gcrypt : Type := {
  gcry_cipher_hd_t : Type;
  hd_NULL : gcry_cipher_hd_t;
  gcry_cipher_get_algo_keylen : Z -> Z;
  gcry_cipher_get_algo_blklen : Z -> Z;
  gcry_cipher_open : Z -> Z -> Z -> Z * gcry_cipher_hd_t;
  gcry_cipher_setkey : gcry_cipher_hd_t -> option (list Z) -> Z -> Z * gcry_cipher_hd_t;
  gcry_cipher_setiv : gcry_cipher_hd_t -> option (list Z) -> Z -> Z * gcry_cipher_hd_t;
  gcry_cipher_encrypt : gcry_cipher_hd_t -> list Z -> Z * gcry_cipher_hd_t * list Z;
  gcry_cipher_decrypt : gcry_cipher_hd_t -> list Z -> Z * gcry_cipher_hd_t * list Z }.

(** ** The structures of libgcry.h, as libgcry.c uses their fields *)

(** [struct gcryctx_s]; a [NULL] key is [None]. *)
Record gcryctx_s : Type := {
  ctx_key : option (list Z);
  ctx_keyLen : Z;
  ctx_algo : Z;
  ctx_mode : Z }.

Section Model.

Context {G : Gcrypt}.

(** Declared in headers that are not part of the sources at hand: the longest
    file name, and the resolution of mode and algorithm names. *)
Context (MAXFNAME : nat).
Context (rsgcryModename2Mode rsgcryAlgoname2Algo : list Z -> Z).

(** [struct gcryfile_s].  The context is referenced, not owned; no function
    of this file changes a context after a session has been derived from it,
    so the session carries its value.  [readBuf] is an array of
    [unsigned char], [NULL] being [None]; the two indices are [int16_t]. *)
Record gcryfile_s : Type := {
  gf_chd : gcry_cipher_hd_t;
  gf_blkLength : Z;
  gf_eiName : string;
  gf_fd : Z;
  gf_mode : Z;
  gf_ctx : gcryctx_s;
  gf_readBuf : option (list Z);
  gf_readBufIdx : Z;
  gf_readBufMaxIdx : Z }.

Definition set_chd (x : gcry_cipher_hd_t) (g : gcryfile_s) : gcryfile_s :=
  {| gf_chd := x; gf_blkLength := gf_blkLength g; gf_eiName := gf_eiName g;
     gf_fd := gf_fd g; gf_mode := gf_mode g; gf_ctx := gf_ctx g;
     gf_readBuf := gf_readBuf g; gf_readBufIdx := gf_readBufIdx g;
     gf_readBufMaxIdx := gf_readBufMaxIdx g |}.

Definition set_blkLength (x : Z) (g : gcryfile_s) : gcryfile_s :=
  {| gf_chd := gf_chd g; gf_blkLength := x; gf_eiName := gf_eiName g;
     gf_fd := gf_fd g; gf_mode := gf_mode g; gf_ctx := gf_ctx g;
     gf_readBuf := gf_readBuf g; gf_readBufIdx := gf_readBufIdx g;
     gf_readBufMaxIdx := gf_readBufMaxIdx g |}.

Definition set_fd (x : Z) (g : gcryfile_s) : gcryfile_s :=
  {| gf_chd := gf_chd g; gf_blkLength := gf_blkLength g; gf_eiName := gf_eiName g;
     gf_fd := x; gf_mode := gf_mode g; gf_ctx := gf_ctx g;
     gf_readBuf := gf_readBuf g; gf_readBufIdx := gf_readBufIdx g;
     gf_readBufMaxIdx := gf_readBufMaxIdx g |}.

Definition set_mode (x : Z) (g : gcryfile_s) : gcryfile_s :=
  {| gf_chd := gf_chd g; gf_blkLength := gf_blkLength g; gf_eiName := gf_eiName g;
     gf_fd := gf_fd g; gf_mode := x; gf_ctx := gf_ctx g;
     gf_readBuf := gf_readBuf g; gf_readBufIdx := gf_readBufIdx g;
     gf_readBufMaxIdx := gf_readBufMaxIdx g |}.

Definition set_readBuf (x : option (list Z)) (g : gcryfile_s) : gcryfile_s :=
  {| gf_chd := gf_chd g; gf_blkLength := gf_blkLength g; gf_eiName := gf_eiName g;
     gf_fd := gf_fd g; gf_mode := gf_mode g; gf_ctx := gf_ctx g;
     gf_readBuf := x; gf_readBufIdx := gf_readBufIdx g;
     gf_readBufMaxIdx := gf_readBufMaxIdx g |}.

Definition set_readBufIdx (x : Z) (g : gcryfile_s) : gcryfile_s :=
  {| gf_chd := gf_chd g; gf_blkLength := gf_blkLength g; gf_eiName := gf_eiName g;
     gf_fd := gf_fd g; gf_mode := gf_mode g; gf_ctx := gf_ctx g;
     gf_readBuf := gf_readBuf g; gf_readBufIdx := x;
     gf_readBufMaxIdx := gf_readBufMaxIdx g |}.

Definition set_readBufMaxIdx (x : Z) (g : gcryfile_s) : gcryfile_s :=
  {| gf_chd := gf_chd g; gf_blkLength := gf_blkLength g; gf_eiName := gf_eiName g;
     gf_fd := gf_fd g; gf_mode := gf_mode g; gf_ctx := gf_ctx g;
     gf_readBuf := gf_readBuf g; gf_readBufIdx := gf_readBufIdx g;
     gf_readBufMaxIdx := x |}.

(** A function that takes a [gcryfile] works on the session and the world. *)
Definition sess : Type := gcryfile_s * world.

Definition getf {A : Type} (p : gcryfile_s -> A) : St sess A := fun s => (p (fst s), s).

Definition setf (u : gcryfile_s -> gcryfile_s) : St sess unit :=
  fun s => (tt, (u (fst s), snd s)).

Definition sys {A : Type} (m : St world A) : St sess A :=
  fun s => let (a, w) := m (snd s) in (a, (fst s, w)).

(** [CHKiRet(m)] followed by [k]: a code other than [RS_RET_OK] goes straight
    to [finalize_it], which in the functions using this form only returns. *)
Definition CHKiRet {S : Type} (m : St S rsRetVal) (k : St S rsRetVal) : St S rsRetVal :=
  r <- m ;; match r with RS_RET_OK => k | _ => ret r end.

(** ** The record codec *)

Definition eiWriteRec (recHdr : list Z) (lenRecHdr : Z) (buf : list Z) (lenBuf : Z)
  : St sess rsRetVal :=
  let iov := [take (Z.to_nat lenRecHdr) recHdr; take (Z.to_nat lenBuf) buf; [10]] in
  let towrite := lenRecHdr + lenBuf + 1 in
  fd <- getf gf_fd ;;
  nwritten <- sys (sys_writev fd (concat iov)) ;;
  if bool_decide (nwritten ≠ towrite) then ret RS_RET_EI_WR_ERR else ret RS_RET_OK.

Definition eiOpenRead : St sess rsRetVal :=
  name <- getf gf_eiName ;;
  fd <- sys (sys_open name {| o_access := O_RDONLY; o_append := false; o_creat := false |}) ;;
  setf (set_fd fd) ;;;
  if fd =? -1 then
    errno <- sys sys_errno ;;
    ret (if errno =? ENOENT then RS_RET_EI_NO_EXISTS else RS_RET_EI_OPN_ERR)
  else ret RS_RET_OK.

Definition eiRead : St sess rsRetVal :=
  rb <- getf gf_readBuf ;;
  match rb with
  | None => b <- sys (malloc READBUF_SIZE) ;; setf (set_readBuf (Some b))
  | Some _ => ret tt
  end ;;;
  fd <- getf gf_fd ;;
  rd <- sys (sys_read fd READBUF_SIZE) ;;
  rb <- getf gf_readBuf ;;
  setf (set_readBuf (Some (blit (snd rd) (default [] rb)))) ;;;
  let nRead := fst rd in
  if nRead <=? 0 then ret RS_RET_ERR
  else
    setf (set_readBufMaxIdx (i16 nRead)) ;;;
    setf (set_readBufIdx 0) ;;;
    ret RS_RET_OK.

(** Returns [EOF] on any kind of error. *)
Definition eiReadChar : St sess Z :=
  idx <- getf gf_readBufIdx ;;
  mx <- getf gf_readBufMaxIdx ;;
  r <- (if mx <=? idx then eiRead else ret RS_RET_OK) ;;
  match r with
  | RS_RET_OK =>
      idx <- getf gf_readBufIdx ;;
      rb <- getf gf_readBuf ;;
      setf (set_readBufIdx (i16 (idx + 1))) ;;;
      ret (peek (default [] rb) idx)
  | _ => ret EOF
  end.

(** ["FILETYPE:" RSGCRY_FILETYPE_NAME "\n"] *)
Definition filetype_line : list Z := bytes "FILETYPE:" ++ bytes RSGCRY_FILETYPE_NAME ++ [10].

(** [strncmp(a, b, n) == 0] *)
Definition strneq (a b : list Z) (n : Z) : bool :=
  streq (take (Z.to_nat n) a) (take (Z.to_nat n) b).

(** The [memset] that clears [hdrBuf] when debugging is on serves the debug
    output only and is left out. *)
Definition eiCheckFiletype : St sess rsRetVal :=
  fd0 <- getf gf_fd ;;
  let bNeedClose := fd0 =? -1 in
  CHKiRet (if bNeedClose then eiOpenRead else ret RS_RET_OK)
    (hdrBuf <- sys (uninit 128) ;;
     let toRead := Z.of_nat (length (bytes "FILETYPE:"))
                   + Z.of_nat (length (bytes RSGCRY_FILETYPE_NAME)) + 1 in
     fd <- getf gf_fd ;;
     rd <- sys (sys_read fd toRead) ;;
     let hdrBuf := blit (snd rd) hdrBuf in
     let didRead := u64 (fst rd) in
     (if bNeedClose then sys (sys_close fd) ;;; setf (set_fd (-1)) else ret tt) ;;;
     if bool_decide (didRead ≠ toRead) || negb (strneq hdrBuf filetype_line toRead)
     then ret RS_RET_EI_INVLD_FILE
     else ret RS_RET_OK).

(** The loops of [eiGetRecord].  Each runs for at most as many rounds as its
    bound, which is the fuel it is started with; the guard of the C loop is
    kept.  The result is the loop counter, the last character read and the
    array.  [c] has no initial value in C; no round fewer than one is run
    before it is looked at. *)
Fixpoint eiGetRecord_rectype (fuel : nat) (i c : Z) (rectype : list Z)
  : St sess (Z * Z * list Z) :=
  match fuel with
  | O => ret (i, c, rectype)
  | S fuel' =>
      if i <? EIF_MAX_RECTYPE_LEN then
        c <- eiReadChar ;;
        if (c =? 58) || (c =? EOF) then ret (i, c, rectype)
        else eiGetRecord_rectype fuel' (u16 (i + 1)) c (poke rectype i (c mod 256))
      else ret (i, c, rectype)
  end.

Fixpoint eiGetRecord_value (fuel : nat) (i j c : Z) (value : list Z)
  : St sess (Z * Z * list Z) :=
  match fuel with
  | O => ret (j, c, value)
  | S fuel' =>
      if i <? EIF_MAX_VALUE_LEN then
        c <- eiReadChar ;;
        if (c =? 10) || (c =? EOF) then ret (j, c, value)
        else eiGetRecord_value fuel' (u16 (i + 1)) (u16 (j + 1)) c (poke value j (c mod 256))
      else ret (j, c, value)
  end.

(** [rectype] and [value] must be [EIF_MAX_*_LEN+1] long.  Returns the code
    and the two arrays. *)
Definition eiGetRecord (rectype value : list Z) : St sess (rsRetVal * list Z * list Z) :=
  r1 <- eiGetRecord_rectype (Z.to_nat EIF_MAX_RECTYPE_LEN) 0 0 rectype ;;
  let '(i, c, rectype) := r1 in
  if bool_decide (c ≠ 58) then ret (RS_RET_ERR, rectype, value)
  else
    let rectype := poke rectype i 0 in
    r2 <- eiGetRecord_value (Z.to_nat EIF_MAX_VALUE_LEN) (u16 (i + 1)) 0 c value ;;
    let '(j, c, value) := r2 in
    if bool_decide (c ≠ 10) then ret (RS_RET_ERR, rectype, value)
    else ret (RS_RET_OK, rectype, poke value j 0).

(** The hexadecimal digit a character stands for, as [eiGetIV] reads it
    through a [char] and stores it into an [unsigned char]. *)
Definition nibble_of (ch : Z) : option Z :=
  let v := schar ch in
  if (48 <=? v) && (v <=? 57) then Some ((v - 48) mod 256)
  else if (97 <=? v) && (v <=? 102) then Some ((v - 97 + 10) mod 256)
  else None.

(** The decoding loop of [eiGetIV]; it runs [valueLen] rounds at most. *)
Fixpoint eiGetIV_loop (fuel : nat) (value : list Z) (valueLen i j : Z) (iv : list Z)
  : rsRetVal * list Z :=
  match fuel with
  | O => (RS_RET_OK, iv)
  | S fuel' =>
      if i <? valueLen then
        match nibble_of (peek value i) with
        | None => (RS_RET_ERR, iv)
        | Some nibble =>
            if i mod 2 =? 0 then
              eiGetIV_loop fuel' value valueLen (u16 (i + 1)) j
                (poke iv j (Z.shiftl nibble 4 mod 256))
            else
              eiGetIV_loop fuel' value valueLen (u16 (i + 1)) (u16 (j + 1))
                (poke iv j (Z.lor (peek iv j) nibble))
        end
      else (RS_RET_OK, iv)
  end.

(** [iv] is the memory at the pointer handed in, [leniv] the number of bytes
    the caller expects. *)
Definition eiGetIV (iv : list Z) (leniv : Z) : St sess (rsRetVal * list Z) :=
  rectype <- sys (uninit (EIF_MAX_RECTYPE_LEN + 1)) ;;
  value <- sys (uninit (EIF_MAX_VALUE_LEN + 1)) ;;
  rec <- eiGetRecord rectype value ;;
  let '(r, rectype, value) := rec in
  match r with
  | RS_RET_OK =>
      if negb (streq rectype (bytes "IV")) then ret (RS_RET_ERR, iv)
      else
        let valueLen := strlen value in
        if bool_decide (valueLen / 2 ≠ leniv) then ret (RS_RET_ERR, iv)
        else ret (eiGetIV_loop (Z.to_nat valueLen) value valueLen 0 0 iv)
  | _ => ret (r, iv)
  end.

Definition eiOpenAppend : St sess rsRetVal :=
  localRet <- eiCheckFiletype ;;
  name <- getf gf_eiName ;;
  match localRet with
  | RS_RET_OK =>
      fd <- sys (sys_open name {| o_access := O_WRONLY; o_append := true; o_creat := false |}) ;;
      setf (set_fd fd) ;;;
      if fd =? -1 then ret RS_RET_EI_OPN_ERR else ret RS_RET_OK
  | RS_RET_EI_NO_EXISTS =>
      (* looks like we need to create a new file *)
      fd <- sys (sys_open name {| o_access := O_WRONLY; o_append := false; o_creat := true |}) ;;
      setf (set_fd fd) ;;;
      if fd =? -1 then ret RS_RET_EI_OPN_ERR
      else eiWriteRec (bytes "FILETYPE:") 9 (bytes RSGCRY_FILETYPE_NAME)
             (Z.of_nat (length (bytes RSGCRY_FILETYPE_NAME)))
  | _ => setf (set_fd (-1)) ;;; ret localRet
  end.

Definition hexchars : list Z := bytes "0123456789abcdef".

Fixpoint eiWriteIV_loop (fuel : nat) (iv : list Z) (blkLength iSrc iDst : Z) (hex : list Z)
  : list Z :=
  match fuel with
  | O => hex
  | S fuel' =>
      if iSrc <? blkLength then
        let hex := poke hex iDst (peek hexchars (Z.shiftr (peek iv iSrc) 4)) in
        let hex := poke hex (u32 (iDst + 1)) (peek hexchars (Z.land (peek iv iSrc) 15)) in
        eiWriteIV_loop fuel' iv blkLength (u32 (iSrc + 1)) (u32 (iDst + 2)) hex
      else hex
  end.

Definition eiWriteIV (iv : list Z) : St sess rsRetVal :=
  hex <- sys (uninit 4096) ;;
  blkLength <- getf gf_blkLength ;;
  if 4096 / 2 <? blkLength then ret RS_RET_ERR
  else
    let hex := eiWriteIV_loop (Z.to_nat blkLength) iv blkLength 0 0 hex in
    eiWriteRec (bytes "IV:") 3 hex (u64 (blkLength * 2)).

(** The digits [printf] produces for a non-negative number of at most [fuel]
    digits. *)
Fixpoint utoa (fuel : nat) (n : Z) (acc : list Z) : list Z :=
  match fuel with
  | O => acc
  | S fuel' =>
      let acc := (48 + n mod 10) :: acc in
      if n / 10 =? 0 then acc else utoa fuel' (n / 10) acc
  end.

(** The characters of the conversion ["%lld"]; a [long long] has 19 digits
    at most. *)
Definition lltoa (v : Z) : list Z :=
  if v <? 0 then 45 :: utoa 19 (- v) [] else utoa 19 v [].

(** [snprintf(str, size, "%lld", v)]: the array after the call, and the
    number of characters the conversion has. *)
Definition snprintf_lld (str : list Z) (size : Z) (v : Z) : list Z * Z :=
  (blit (take (Z.to_nat (size - 1)) (lltoa v) ++ [0]) str, Z.of_nat (length (lltoa v))).

(** We do not return an error state, as we MUST close the file, no matter
    what happens. *)
Definition eiClose (offsLogfile : Z) : St sess unit :=
  fd <- getf gf_fd ;;
  if fd =? -1 then ret tt
  else
    offs <- sys (uninit 21) ;;
    (* 2^64 is 20 digits, so the snprintf buffer is large enough *)
    let (offs, len) := snprintf_lld offs 21 offsLogfile in
    eiWriteRec (bytes "END:") 4 offs len ;;;
    rb <- getf gf_readBuf ;;
    sys (free rb ObjReadBuf) ;;;
    sys (sys_close fd) ;;;
    setf (set_fd (-1)).

(** ** Contexts and sessions *)

Definition gcryfileConstruct (ctx : gcryctx_s) (logfn : string)
  : St world (rsRetVal * gcryfile_s) :=
  let fn := String.substring 0 MAXFNAME (logfn +:+ ENCINFO_SUFFIX) in
  ret (RS_RET_OK,
       {| gf_chd := hd_NULL; gf_blkLength := 0; gf_eiName := fn; gf_fd := -1;
          gf_mode := 0; gf_ctx := ctx; gf_readBuf := None; gf_readBufIdx := 0;
          gf_readBufMaxIdx := 0 |}).

Definition gcryCtxNew : gcryctx_s :=
  {| ctx_key := None; ctx_keyLen := 0;
     ctx_algo := GCRY_CIPHER_AES128; ctx_mode := GCRY_CIPHER_MODE_CBC |}.

(** A [NULL] session is [None]. *)
Definition gcryfileDestruct (gf : option gcryfile_s) (offsLogfile : Z) : St world Z :=
  fun w =>
    match gf with
    | None => (0, w)
    | Some g =>
        let '(_, (g, w)) := eiClose offsLogfile (g, w) in
        let '(_, w) := free (Some (gf_eiName g)) ObjEiName w in
        let '(_, w) := free (Some g) ObjGcryfile w in
        (0, w)
    end.

Definition rsgcryCtxDel (ctx : option gcryctx_s) : St world unit := free ctx ObjCtx.

(** ** Padding *)

(** The loop of [addPadding].  Its counter is an [unsigned] compared with a
    [size_t]; [None] is a loop that does not come to an end. *)
Fixpoint addPadding_loop (fuel : nat) (buf : list Z) (plen nPad i : Z) : option (list Z) :=
  if i <? nPad then
    match fuel with
    | O => None
    | S fuel' => addPadding_loop fuel' (poke buf (u64 (plen + i)) 0) plen nPad (u32 (i + 1))
    end
  else Some buf.

(** [None] also stands for the division by a block length of zero. *)
Definition addPadding (pF : gcryfile_s) (buf : list Z) (plen : Z) : option (list Z * Z) :=
  let blkLength := gf_blkLength pF in
  if blkLength =? 0 then None
  else
    let nPad := u64 (blkLength - plen mod blkLength) mod blkLength in
    buf ← addPadding_loop (Z.to_nat nPad) buf plen nPad 0;
    Some (buf, u64 (plen + nPad)).

(** The loop of [removePadding]; [iSrc] reaches [len] after [len - iSrc]
    rounds. *)
Fixpoint removePadding_loop (fuel : nat) (buf : list Z) (len iSrc iDst : Z) : list Z * Z :=
  match fuel with
  | O => (buf, iDst)
  | S fuel' =>
      if iSrc <? len then
        if bool_decide (peek buf iSrc ≠ 0) then
          removePadding_loop fuel' (poke buf iDst (peek buf iSrc)) len
            (u32 (iSrc + 1)) (u32 (iDst + 1))
        else removePadding_loop fuel' buf len (u32 (iSrc + 1)) iDst
      else (buf, iDst)
  end.

Definition removePadding (buf : list Z) (plen : Z) : list Z * Z :=
  let len := u32 plen in
  match strchr_NUL buf with
  | None => (buf, plen)
  | Some frstNUL =>
      let iSrc := u32 frstNUL in
      removePadding_loop (Z.to_nat (len - iSrc)) buf len iSrc iSrc
  end.

(** ** Configuration of a context *)

(** Returns 0 on success, positive if key length does not match and key of
    return value size is required.  The parameter [keyLen] is a [uint16_t]:
    the function sees the argument modulo [2 ^ 16], the same conversion that
    the assignment to [reqKeyLen] makes. *)
Definition rsgcrySetKey (ctx : gcryctx_s) (key : list Z) (keyLen : Z) : Z * gcryctx_s :=
  let keyLen := u16 keyLen in
  let reqKeyLen := u16 (gcry_cipher_get_algo_keylen (ctx_algo ctx)) in
  if bool_decide (keyLen ≠ reqKeyLen) then (reqKeyLen, ctx)
  else
    (0, {| ctx_key := Some (take (Z.to_nat keyLen) key); ctx_keyLen := keyLen;
           ctx_algo := ctx_algo ctx; ctx_mode := ctx_mode ctx |}).

Definition rsgcrySetMode (ctx : gcryctx_s) (modename : list Z) : rsRetVal * gcryctx_s :=
  let mode := rsgcryModename2Mode modename in
  if mode =? GCRY_CIPHER_MODE_NONE then (RS_RET_CRY_INVLD_MODE, ctx)
  else
    (RS_RET_OK, {| ctx_key := ctx_key ctx; ctx_keyLen := ctx_keyLen ctx;
                   ctx_algo := ctx_algo ctx; ctx_mode := mode |}).

Definition rsgcrySetAlgo (ctx : gcryctx_s) (algoname : list Z) : rsRetVal * gcryctx_s :=
  let algo := rsgcryAlgoname2Algo algoname in
  if algo =? GCRY_CIPHER_NONE then (RS_RET_CRY_INVLD_ALGO, ctx)
  else
    (RS_RET_OK, {| ctx_key := ctx_key ctx; ctx_keyLen := ctx_keyLen ctx;
                   ctx_algo := algo; ctx_mode := ctx_mode ctx |}).

(** ** Initialisation vectors *)

Definition seedIV : St sess (option (list Z)) :=
  blkLength <- getf gf_blkLength ;;
  iv <- sys (malloc blkLength) ;; (* do NOT zero-out! *)
  (* if we cannot obtain data from /dev/urandom, we use whatever is present
     at the current memory location as random data *)
  fd <- sys (sys_open "/dev/urandom" {| o_access := O_RDONLY; o_append := false; o_creat := false |}) ;;
  if 0 <? fd then
    rd <- sys (sys_read fd blkLength) ;;
    sys (sys_close fd) ;;;
    ret (Some (blit (snd rd) iv))
  else ret (Some iv).

(** The [do ... while] of [readIV]: one round per unit of fuel; [None] is a
    loop that is still waiting for the side-file when the fuel is spent. *)
Fixpoint readIV_wait (fuel : nat) (s : sess) : option (rsRetVal * sess) :=
  match fuel with
  | O => None
  | S fuel' =>
      let (localRet, s) := eiOpenRead s in
      match localRet with
      | RS_RET_EI_NO_EXISTS =>
          (* wait until it is created *)
          let (_, s) := sys srSleep s in
          readIV_wait fuel' s
      | _ => Some (localRet, s)
      end
  end.

(** [iv] is the value of [*iv] on entry. *)
Definition readIV (fuel : nat) (iv : option (list Z)) (s : sess)
  : option (rsRetVal * option (list Z) * sess) :=
  match readIV_wait fuel s with
  | None => None
  | Some (RS_RET_OK, s) =>
      let (r, s) := eiCheckFiletype s in
      match r with
      | RS_RET_OK =>
          let (blkLength, s) := getf gf_blkLength s in
          let (iv, s) := sys (malloc blkLength) s in (* do NOT zero-out! *)
          let '((r, iv), s) := eiGetIV iv blkLength s in
          Some (r, Some iv, s)
      | _ => Some (r, iv, s)
      end
  | Some (r, s) => Some (r, iv, s)
  end.

(** ** Opening a session *)

(** The code after [finalize_it] in [rsgcryInitCrypt].  The second component
    of the result is what [*pgf] has been set to. *)
Definition rsgcryInitCrypt_finalize (iRet : rsRetVal) (pgf : option gcryfile_s)
    (iv : option (list Z)) (s : sess) : rsRetVal * option gcryfile_s * world :=
  let (gf, w) := s in
  let (_, w) := free iv ObjIV w in
  match iRet with
  | RS_RET_OK => (iRet, pgf, w)
  | _ => let (_, w) := gcryfileDestruct (Some gf) (-1) w in (iRet, pgf, w)
  end.

Definition rsgcryInitCrypt (fuel : nat) (ctx : gcryctx_s) (fname : string) (openMode : Z)
    (w : world) : option (rsRetVal * option gcryfile_s * world) :=
  let '((_, gf), w) := gcryfileConstruct ctx fname w in
  let gf := set_mode openMode gf in
  let gf := set_blkLength (u64 (gcry_cipher_get_algo_blklen (ctx_algo ctx))) gf in
  let (gcryError, chd) := gcry_cipher_open (ctx_algo ctx) (ctx_mode ctx) 0 in
  let gf := set_chd chd gf in
  if bool_decide (gcryError ≠ 0) then Some (rsgcryInitCrypt_finalize RS_RET_ERR None None (gf, w))
  else
    let (gcryError, chd) :=
      gcry_cipher_setkey (gf_chd gf) (ctx_key (gf_ctx gf)) (ctx_keyLen (gf_ctx gf)) in
    let gf := set_chd chd gf in
    if bool_decide (gcryError ≠ 0) then Some (rsgcryInitCrypt_finalize RS_RET_ERR None None (gf, w))
    else
      match (if openMode =? 114 then readIV fuel None (gf, w)
             else let (iv, s) := seedIV (gf, w) in Some (RS_RET_OK, iv, s)) with
      | None => None
      | Some (_, iv, (gf, w)) =>
          let (gcryError, chd) := gcry_cipher_setiv (gf_chd gf) iv (gf_blkLength gf) in
          let gf := set_chd chd gf in
          if bool_decide (gcryError ≠ 0)
          then Some (rsgcryInitCrypt_finalize RS_RET_ERR None iv (gf, w))
          else if openMode =? 119 then
            let (iRet, s) := CHKiRet eiOpenAppend (eiWriteIV (default [] iv)) (gf, w) in
            match iRet with
            | RS_RET_OK => Some (rsgcryInitCrypt_finalize iRet (Some (fst s)) iv s)
            | _ => Some (rsgcryInitCrypt_finalize iRet None iv s)
            end
          else Some (rsgcryInitCrypt_finalize RS_RET_OK (Some gf) iv (gf, w))
      end.

(** ** Encrypting and decrypting a buffer

    [buf] is the memory at the pointer handed in and [len] is [*len].  The
    result holds the return code, the session, the memory and [*len] after
    the call. *)

Definition rsgcryEncrypt (pF : gcryfile_s) (buf : list Z) (len : Z)
  : option (rsRetVal * gcryfile_s * list Z * Z) :=
  if len =? 0 then Some (RS_RET_OK, pF, buf, len)
  else
    '(buf, len) ← addPadding pF buf len;
    let '(gcryError, chd, out) := gcry_cipher_encrypt (gf_chd pF) (take (Z.to_nat len) buf) in
    let buf := blit (take (Z.to_nat len) out) buf in
    let pF := set_chd chd pF in
    if bool_decide (gcryError ≠ 0) then Some (RS_RET_ERR, pF, buf, len)
    else Some (RS_RET_OK, pF, buf, len).

Definition rsgcryDecrypt (pF : gcryfile_s) (buf : list Z) (len : Z)
  : rsRetVal * gcryfile_s * list Z * Z :=
  let '(gcryError, chd, out) := gcry_cipher_decrypt (gf_chd pF) (take (Z.to_nat len) buf) in
  let buf := blit (take (Z.to_nat len) out) buf in
  let pF := set_chd chd pF in
  if bool_decide (gcryError ≠ 0) then (RS_RET_ERR, pF, buf, len)
  else
    let (buf, len) := removePadding buf len in
    (RS_RET_OK, pF, buf, len).

(** Module-init and module-deinit dummies. *)
Definition rsgcryInit : Z := 0.
Definition rsgcryExit : unit := tt.

End Model.

(** ** A small cipher to run the model on

    It knows AES-128 in CBC mode by name only: key and block length are 16
    bytes, and a buffer is transformed by an exclusive or with key and IV.
    As libgcrypt does, it refuses buffers that are not a multiple of the
    block length, and it takes a [NULL] IV for an IV of zeros. *)

Record xor_hd : Type := { xh_open : bool; xh_key : list Z; xh_iv : list Z }.

Definition xor_stream (h : xor_hd) (data : list Z) : list Z :=
  imap (fun i b =>
          Z.lxor b (Z.lxor (peek (xh_key h) (Z.of_nat i mod 16))
                           (peek (xh_iv h) (Z.of_nat i mod 16)))) data.

Definition xor_crypt (h : xor_hd) (data : list Z) : Z * xor_hd * list Z :=
  if xh_open h && (Z.of_nat (length data) mod 16 =? 0) then (0, h, xor_stream h data)
  else (139, h, data).

Definition xor_cipher : Gcrypt := {|
  gcry_cipher_hd_t := xor_hd;
  hd_NULL := {| xh_open := false; xh_key := []; xh_iv := [] |};
  gcry_cipher_get_algo_keylen := fun a => if a =? GCRY_CIPHER_AES128 then 16 else 0;
  gcry_cipher_get_algo_blklen := fun a => if a =? GCRY_CIPHER_AES128 then 16 else 0;
  gcry_cipher_open := fun a m _ =>
    if (a =? GCRY_CIPHER_AES128) && (m =? GCRY_CIPHER_MODE_CBC)
    then (0, {| xh_open := true; xh_key := []; xh_iv := [] |})
    else (12, {| xh_open := false; xh_key := []; xh_iv := [] |});
  gcry_cipher_setkey := fun h k n =>
    match k with
    | Some k =>
        if xh_open h && (n =? 16)
        then (0, {| xh_open := true; xh_key := take 16 k; xh_iv := xh_iv h |})
        else (44, h)
    | None => (44, h)
    end;
  gcry_cipher_setiv := fun h iv n =>
    if xh_open h
    then (0, {| xh_open := true; xh_key := xh_key h;
                xh_iv := take (Z.to_nat n) (default [] iv) |})
    else (45, h);
  gcry_cipher_encrypt := xor_crypt;
  gcry_cipher_decrypt := xor_crypt |}.

(** A world to run the model in: standard input, output and error are open,
    the device has room, fresh memory holds the byte [0xAA]. *)
Definition tty (a : access) : ofile :=
  {| of_path := "/dev/tty"; of_flags := {| o_access := a; o_append := false; o_creat := false |};
     of_pos := 0 |}.

Definition boot (files : list (string * list Z)) : world :=
  {| w_files := list_to_map (prod_map id new_file <$> files);
     w_fds := <[0 := tty O_RDONLY]> (<[1 := tty O_WRONLY]> (<[2 := tty O_WRONLY]> ∅));
     w_errno := 0; w_space := 65536; w_junk := fun _ => 170;
     w_others := []; w_trace := [] |}.

(** ** Scenarios

    The callers of the static functions, put together the way
    [rsgcryInitCrypt] puts them together, so that the record codec can be
    run on a side-file. *)

Section Scenarios.

Context {G : Gcrypt}.

(** The writer's side: open the side-file for appending, which creates it
    with its [FILETYPE] line when it is missing, write one record of the
    given type and value, and close the descriptor. *)
Definition write_record (rectype value : list Z) : St sess rsRetVal :=
  CHKiRet eiOpenAppend
    (r <- eiWriteRec (rectype ++ [58]) (Z.of_nat (length rectype) + 1)
            value (Z.of_nat (length value)) ;;
     fd <- getf gf_fd ;;
     sys (sys_close fd) ;;;
     setf (set_fd (-1)) ;;;
     ret r).

(** The reader's side: open the side-file, check its first line and read
    one record.  The result holds the strings found in the two arrays when
    the record was read, and empty strings otherwise. *)
Definition read_record : St sess (rsRetVal * list Z * list Z) :=
  r <- eiOpenRead ;;
  match r with
  | RS_RET_OK =>
      r <- eiCheckFiletype ;;
      match r with
      | RS_RET_OK =>
          rectype <- sys (uninit (EIF_MAX_RECTYPE_LEN + 1)) ;;
          value <- sys (uninit (EIF_MAX_VALUE_LEN + 1)) ;;
          rec <- eiGetRecord rectype value ;;
          let '(r, rectype, value) := rec in
          match r with
          | RS_RET_OK => ret (r, c_str rectype, c_str value)
          | _ => ret (r, [], [])
          end
      | _ => ret (r, [], [])
      end
  | _ => ret (r, [], [])
  end.

(** Both sides, one after the other. *)
Definition write_then_read (rectype value : list Z)
  : St sess (rsRetVal * (rsRetVal * list Z * list Z)) :=
  rw <- write_record rectype value ;;
  rr <- read_record ;;
  ret (rw, rr).

(** Open the side-file and read an [IV] record of [leniv] bytes into the
    memory [iv]. *)
Definition read_iv_record (iv : list Z) (leniv : Z) : St sess (rsRetVal * list Z) :=
  r <- eiOpenRead ;;
  match r with
  | RS_RET_OK => eiGetIV iv leniv
  | _ => ret (r, iv)
  end.

End Scenarios.

(** A session of the small cipher with a block length of [blk]. *)
Definition xor_session (blk : Z) : gcryfile_s (G := xor_cipher) :=
  @Build_gcryfile_s xor_cipher
    {| xh_open := true; xh_key := replicate 16 90; xh_iv := replicate 16 165 |}
    blk "log.encinfo" (-1) 119 gcryCtxNew None 0 0.

(** A context of the small cipher with a key of the required 16 bytes. *)
Definition keyed_ctx : gcryctx_s :=
  snd (rsgcrySetKey (G := xor_cipher) gcryCtxNew (replicate 16 90) 16).

(** A longest file name to run the model with. *)
Definition maxfname : nat := 200.

(** ** Notions used in the statements *)

(** The number that a string of decimal digits denotes, when read after the
    digits that gave [a]. *)
Fixpoint digits_value (ds : list Z) (a : Z) : option Z :=
  match ds with
  | [] => Some a
  | d :: ds => if (48 <=? d) && (d <=? 57) then digits_value ds (10 * a + (d - 48)) else None
  end.

(** The number that a decimal numeral with an optional minus sign denotes. *)
Definition decimal_value (l : list Z) : option Z :=
  match l with
  | [] => None
  | 45 :: ds => match ds with [] => None | _ => Z.opp <$> digits_value ds 0 end
  | _ => digits_value l 0
  end.

(** What a file holds: values of an [unsigned char]. *)
Definition is_byte (b : Z) : Prop := 0 <= b < 256.

(** The lowercase hexadecimal digits. *)
Definition is_lower_hex (c : Z) : Prop := 48 <= c <= 57 \/ 97 <= c <= 102.

(** The line [END:<offset>] of a side-file. *)
Definition END_record (offs : Z) : list Z := bytes "END:" ++ lltoa offs ++ [10].

Section Notions.

Context {G : Gcrypt}.

(** The fields of a session that the side-file functions leave alone. *)
Definition same_cipher (g g' : gcryfile_s) : Prop :=
  gf_chd g' = gf_chd g /\ gf_blkLength g' = gf_blkLength g /\ gf_ctx g' = gf_ctx g.

Definition keeps_cipher {A : Type} (m : St sess A) : Prop :=
  forall s : sess, same_cipher (fst s) (fst (snd (m s))).

(** The contexts that come from [gcryCtxNew] by setting keys only. *)
Inductive keyed_from_new : gcryctx_s -> Prop :=
  | kfn_new : keyed_from_new gcryCtxNew
  | kfn_key (ctx : gcryctx_s) (key : list Z) (keyLen : Z) :
      keyed_from_new ctx -> keyed_from_new (snd (rsgcrySetKey ctx key keyLen)).

(** The bytes that the buffer of a session still holds. *)
Definition buffered (g : gcryfile_s) : list Z :=
  match gf_readBuf g with
  | Some rb => drop (Z.to_nat (gf_readBufIdx g)) (take (Z.to_nat (gf_readBufMaxIdx g)) rb)
  | None => []
  end.

(** The bytes of the side-file behind the position of the descriptor. *)
Definition unread (fd : Z) (w : world) : list Z :=
  match w_fds w !! fd with
  | Some o =>
      match w_files w !! of_path o with
      | Some ino => drop (of_pos o) (i_data ino)
      | None => []
      end
  | None => []
  end.

(** The bytes that [eiReadChar] has yet to deliver. *)
Definition pending (s : sess) : list Z := buffered (fst s) ++ unread (gf_fd (fst s)) (snd s).

(** A session that is reading its side-file. *)
Definition reading (s : sess) : Prop :=
  (exists o : ofile,
      w_fds (snd s) !! gf_fd (fst s) = Some o /\
      o_access (of_flags o) = O_RDONLY /\
      is_Some (w_files (snd s) !! of_path o)) /\
  0 <= gf_readBufIdx (fst s) <= gf_readBufMaxIdx (fst s) /\
  gf_readBufMaxIdx (fst s) <= READBUF_SIZE /\
  match gf_readBuf (fst s) with
  | Some rb => Z.of_nat (length rb) = READBUF_SIZE
  | None => gf_readBufMaxIdx (fst s) = 0
  end.

End Notions.

(** A world in which the side-file exists and is open for appending on
    descriptor 3. *)
Definition w_open_side_file : world :=
  snd (sys_open "log.encinfo" {| o_access := O_WRONLY; o_append := true; o_creat := false |}
         (boot [("log.encinfo"%string, filetype_line)])).

(** A world whose side-file does not start with the [FILETYPE] line. *)
Definition w_bad_filetype : world :=
  boot [("log.encinfo"%string, bytes "not an encryption info file")].

(** A world whose side-file has the [FILETYPE] line but no [IV] record. *)
Definition w_no_iv : world :=
  boot [("log.encinfo"%string, filetype_line ++ bytes "END:5" ++ [10])].

(** A world whose side-file is one [IV] record with the given value. *)
Definition w_iv (value : list Z) : world :=
  boot [("log.encinfo"%string, bytes "IV:" ++ value ++ [10])].

(** A world with an entropy device and no side-file. *)
Definition w_urandom : world := boot [("/dev/urandom"%string, replicate 64 7)].

(** ** Further notions used in the statements *)

(** The two hexadecimal digits that [eiWriteIV] writes for each byte. *)
Definition hex_of (iv : list Z) : list Z :=
  flat_map (fun b => [peek hexchars (Z.shiftr b 4); peek hexchars (Z.land b 15)]) iv.

(** The line [IV:<hex digits>] of a side-file. *)
Definition IV_record (iv : list Z) : list Z := bytes "IV:" ++ hex_of iv ++ [10].

Section WriterNotions.

Context {G : Gcrypt}.

(** A session that is writing its side-file: the session has a descriptor,
    which is open for writing on the side-file; the side-file holds [data]
    and may be read, and the next write goes to its end. *)
Definition writing (s : sess) (data : list Z) : Prop :=
  gf_fd (fst s) ≠ -1 /\
  exists (o : ofile) (ino : inode),
    w_fds (snd s) !! gf_fd (fst s) = Some o /\
    of_path o = gf_eiName (fst s) /\
    o_access (of_flags o) = O_WRONLY /\
    (o_append (of_flags o) = true \/ of_pos o = length data) /\
    w_files (snd s) !! gf_eiName (fst s) = Some ino /\
    i_data ino = data /\ i_rd ino = true.

(** A session as [gcryfileConstruct] leaves it, as far as the side-file is
    concerned: no descriptor, no read buffer. *)
Definition unopened (g : gcryfile_s) : Prop :=
  gf_fd g = -1 /\ gf_readBuf g = None /\ gf_readBufIdx g = 0 /\ gf_readBufMaxIdx g = 0.

End WriterNotions.

Section Configured.

Context {G : Gcrypt}.
Context (rsgcryModename2Mode rsgcryAlgoname2Algo : list Z -> Z).

(** The contexts that come from [gcryCtxNew] by any sequence of calls of
    [rsgcrySetKey], [rsgcrySetMode] and [rsgcrySetAlgo], whether they
    succeed or not. *)
Inductive configured : gcryctx_s -> Prop :=
  | cfg_new : configured gcryCtxNew
  | cfg_key (ctx : gcryctx_s) (key : list Z) (keyLen : Z) :
      configured ctx -> configured (snd (rsgcrySetKey ctx key keyLen))
  | cfg_mode (ctx : gcryctx_s) (modename : list Z) :
      configured ctx -> configured (snd (rsgcrySetMode rsgcryModename2Mode ctx modename))
  | cfg_algo (ctx : gcryctx_s) (algoname : list Z) :
      configured ctx -> configured (snd (rsgcrySetAlgo rsgcryAlgoname2Algo ctx algoname)).

End Configured.

Section ReaderScenario.

Context {G : Gcrypt}.

(** A caller of [eiReadChar] that asks for [n] characters, one after the
    other, as the loops of [eiGetRecord] do. *)
Fixpoint read_chars (n : nat) : St sess (list Z) :=
  match n with
  | O => ret []
  | S n' =>
      c <- eiReadChar ;;
      cs <- read_chars n' ;;
      ret (c :: cs)
  end.

End ReaderScenario.

(** The events of a trace that are sleeps. *)
Fixpoint sleeps (tr : list event) : nat :=
  match tr with
  | [] => 0
  | EvSleep :: tr => S (sleeps tr)
  | _ :: tr => sleeps tr
  end.

(** A world whose side-file holds [data]. *)
Definition w_side_file (data : list Z) : world := boot [("log.encinfo"%string, data)].

(** A world without side-file, in which another process creates first some
    other file and then the side-file. *)
Definition w_writer_later : world :=
  with_others [("other.log"%string, bytes "x"); ("log.encinfo"%string, filetype_line)]
    (boot []).

(** A world in which the device takes two more bytes. *)
Definition w_nearly_full : world := with_space 2 w_open_side_file.

(** The handle of the small cipher after [gcry_cipher_open], and after
    [gcry_cipher_setkey] with the key of [keyed_ctx]. *)
Definition xor_opened : xor_hd := {| xh_open := true; xh_key := []; xh_iv := [] |}.
Definition xor_keyed : xor_hd := {| xh_open := true; xh_key := replicate 16 90; xh_iv := [] |}.

(** A world whose side-file may not be read. *)
Definition w_unreadable : world :=
  with_files
    (<["log.encinfo"%string := {| i_data := filetype_line; i_rd := false; i_wr := true |}]> ∅)
    (boot []).

(** * Properties *)

(** ** Machine integers and memory *)

Lemma u16_small (z : Z) : 0 <= z < 2 ^ 16 -> u16 z = z.
Proof. intros H. unfold u16. apply Z.mod_small. exact H. Qed.

Lemma u32_small (z : Z) : 0 <= z < 2 ^ 32 -> u32 z = z.
Proof. intros H. unfold u32. apply Z.mod_small. exact H. Qed.

Lemma u64_small (z : Z) : 0 <= z < 2 ^ 64 -> u64 z = z.
Proof. intros H. unfold u64. apply Z.mod_small. exact H. Qed.

Lemma i16_small (z : Z) : 0 <= z < 2 ^ 15 -> i16 z = z.
Proof.
  intros Hz. unfold i16. rewrite Z.mod_small by lia.
  destruct (Z.ltb_spec z (2 ^ 15)); [reflexivity | lia].
Qed.

Lemma poke_at (buf : list Z) (k : nat) (v : Z) :
  poke buf (Z.of_nat k) v = <[k := v]> buf.
Proof.
  unfold poke. destruct (Z.ltb_spec (Z.of_nat k) 0) as [Hneg | _]; [lia |].
  now rewrite Nat2Z.id.
Qed.

Lemma peek_at (buf : list Z) (k : nat) : peek buf (Z.of_nat k) = default 0 (buf !! k).
Proof.
  unfold peek. destruct (Z.ltb_spec (Z.of_nat k) 0) as [Hneg | _]; [lia |].
  now rewrite Nat2Z.id.
Qed.

Lemma blit_front (data buf : list Z) :
  (length data <= length buf)%nat ->
  blit data buf = data ++ drop (length data) buf.
Proof.
  intros Hle. unfold blit. apply take_ge.
  rewrite length_app, length_drop. lia.
Qed.

Lemma blit_app (new old rest : list Z) :
  length new = length old -> blit new (old ++ rest) = new ++ rest.
Proof.
  intros Hlen. rewrite blit_front by (rewrite length_app; lia).
  rewrite Hlen, drop_app_length. reflexivity.
Qed.

Lemma blit_nil (buf : list Z) : blit [] buf = buf.
Proof. unfold blit. cbn. apply firstn_all. Qed.

(** Closed arithmetic facts are settled by evaluation. *)
(** Closed arithmetic facts are settled by evaluation. *)
Ltac by_eval := vm_compute; repeat split; (reflexivity || discriminate).

(** An equation whose left side is closed: run the left side. *)
Ltac eval_lhs :=
  match goal with
  | |- ?l = _ =>
      let v := eval vm_compute in l in
      transitivity v; [vm_cast_no_check (@eq_refl _ v) |]
  end.

(** ** Padding a buffer *)

Section Padding.

Context {G : Gcrypt}.

Lemma addPadding_loop_spec (plen nPad : nat) (n : nat) :
  forall (buf : list Z) (i : nat),
    (i + n = nPad)%nat ->
    Z.of_nat nPad < 2 ^ 32 ->
    (plen + nPad <= length buf)%nat ->
    Z.of_nat (length buf) < 2 ^ 64 ->
    addPadding_loop n buf (Z.of_nat plen) (Z.of_nat nPad) (Z.of_nat i)
    = Some (take (plen + i) buf ++ replicate n 0 ++ drop (plen + nPad) buf).
Proof.
  induction n as [| n IH]; intros buf i Hi Hpad Hcap Hmem.
  - assert (i = nPad) as -> by lia. cbn.
    rewrite Z.ltb_irrefl. now rewrite take_drop.
  - cbn [addPadding_loop].
    destruct (Z.ltb_spec (Z.of_nat i) (Z.of_nat nPad)) as [_ | Hge]; [| lia].
    rewrite u64_small by lia. rewrite u32_small by lia.
    replace (Z.of_nat plen + Z.of_nat i) with (Z.of_nat (plen + i)) by lia.
    replace (Z.of_nat i + 1) with (Z.of_nat (S i)) by lia.
    rewrite poke_at.
    rewrite IH; [| lia | lia | rewrite length_insert; lia | rewrite length_insert; lia].
    f_equal.
    replace (plen + S i)%nat with (S (plen + i)) by lia.
    assert (Hlt : (plen + i < length buf)%nat) by lia.
    rewrite (take_S_r _ _ 0) by (apply list_lookup_insert_eq; lia).
    rewrite take_insert_ge by lia.
    rewrite drop_insert_lt by lia.
    rewrite <- app_assoc. reflexivity.
Qed.

Lemma nPad_bounds (blk plen : Z) :
  0 < blk -> 0 <= plen ->
  0 <= (blk - plen mod blk) mod blk < blk /\
  (plen + (blk - plen mod blk) mod blk) mod blk = 0 /\
  (plen mod blk = 0 -> (blk - plen mod blk) mod blk = 0).
Proof.
  intros Hblk Hplen.
  pose proof (Z.mod_pos_bound plen blk Hblk) as Hr.
  pose proof (Z.div_mod plen blk ltac:(lia)) as Hdm.
  split; [apply Z.mod_pos_bound; lia |].
  destruct (Z.eq_dec (plen mod blk) 0) as [Hz | Hnz].
  - rewrite Hz, Z.sub_0_r, Z.mod_same by lia. rewrite Z.add_0_r. tauto.
  - split; [| tauto].
    rewrite (Z.mod_small (blk - plen mod blk)) by lia.
    replace (plen + (blk - plen mod blk)) with ((plen / blk + 1) * blk) by lia.
    apply Z.mod_mul. lia.
Qed.

(** What [addPadding] returns for a buffer that has room for the padding. *)
Lemma addPadding_run (pF : gcryfile_s) (buf : list Z) (plen : Z) :
  0 < gf_blkLength pF <= 2 ^ 32 ->
  0 <= plen ->
  plen + (gf_blkLength pF - plen mod gf_blkLength pF) mod gf_blkLength pF
    <= Z.of_nat (length buf) ->
  Z.of_nat (length buf) < 2 ^ 64 ->
  addPadding pF buf plen
  = Some (take (Z.to_nat plen) buf
            ++ replicate
                 (Z.to_nat ((gf_blkLength pF - plen mod gf_blkLength pF) mod gf_blkLength pF)) 0
            ++ drop
                 (Z.to_nat
                    (plen + (gf_blkLength pF - plen mod gf_blkLength pF) mod gf_blkLength pF))
                 buf,
          plen + (gf_blkLength pF - plen mod gf_blkLength pF) mod gf_blkLength pF).
Proof.
  intros Hblk Hplen Hcap Hmem.
  destruct (nPad_bounds (gf_blkLength pF) plen ltac:(lia) Hplen) as (Hpad & _ & _).
  pose proof (Z.mod_pos_bound plen (gf_blkLength pF) ltac:(lia)) as Hr.
  set (nPad := (gf_blkLength pF - plen mod gf_blkLength pF) mod gf_blkLength pF) in *.
  unfold addPadding.
  destruct (Z.eqb_spec (gf_blkLength pF) 0) as [Hz | _]; [lia |].
  rewrite (u64_small (gf_blkLength pF - _)) by lia.
  fold nPad.
  pose proof (addPadding_loop_spec (Z.to_nat plen) (Z.to_nat nPad) (Z.to_nat nPad) buf 0
                ltac:(lia) ltac:(lia) ltac:(lia) Hmem) as Hloop.
  rewrite !Z2Nat.id in Hloop by lia. change (Z.of_nat 0) with 0 in Hloop.
  rewrite Hloop. cbn.
  rewrite u64_small by lia.
  rewrite Nat.add_0_r, Z2Nat.inj_add by lia. reflexivity.
Qed.

(** C7: [addPadding] appends [(blkLength - len mod blkLength) mod blkLength]
    zero bytes: the bytes before [len] and behind the padding stay, the
    padding is zero, the new length is a multiple of the block length, fewer
    than [blkLength] bytes are added, and none when [len] is aligned.  The
    buffer has room for the padding, and lengths fit their C types. *)
Theorem addPadding_aligns (pF : gcryfile_s) (buf : list Z) (plen : Z) :
  0 < gf_blkLength pF <= 2 ^ 32 ->
  0 <= plen ->
  plen + (gf_blkLength pF - plen mod gf_blkLength pF) mod gf_blkLength pF
    <= Z.of_nat (length buf) ->
  Z.of_nat (length buf) < 2 ^ 64 ->
  exists nPad : Z,
    nPad = (gf_blkLength pF - plen mod gf_blkLength pF) mod gf_blkLength pF /\
    addPadding pF buf plen
    = Some (take (Z.to_nat plen) buf ++ replicate (Z.to_nat nPad) 0
              ++ drop (Z.to_nat (plen + nPad)) buf,
            plen + nPad) /\
    0 <= nPad < gf_blkLength pF /\
    (plen + nPad) mod gf_blkLength pF = 0 /\
    (plen mod gf_blkLength pF = 0 -> nPad = 0).
Proof.
  intros Hblk Hplen Hcap Hmem.
  destruct (nPad_bounds (gf_blkLength pF) plen ltac:(lia) Hplen) as (Hpad & Hmul & Hzero).
  eexists. split; [reflexivity |].
  split; [exact (addPadding_run pF buf plen Hblk Hplen Hcap Hmem) |].
  split; [exact Hpad |]. split; [exact Hmul | exact Hzero].
Qed.

End Padding.

Lemma addPadding_aligns_witness :
  addPadding (xor_session 16) [1; 2; 3; 4; 5; 6; 6; 6; 6; 6; 6; 6; 6; 6; 6; 6; 6; 6] 5
  = Some ([1; 2; 3; 4; 5; 0; 0; 0; 0; 0; 0; 0; 0; 0; 0; 0; 6; 6], 16).
Proof.
  destruct (addPadding_aligns (xor_session 16)
              [1; 2; 3; 4; 5; 6; 6; 6; 6; 6; 6; 6; 6; 6; 6; 6; 6; 6] 5)
    as (nPad & -> & Hrun & _); [by_eval .. |].
  rewrite Hrun. reflexivity.
Defined.

(** ** Removing the padding *)

(** What [strchr_NUL] finds: the first zero byte of the memory. *)
Lemma strchr_NUL_Some (buf : list Z) (k : Z) :
  strchr_NUL buf = Some k ->
  exists n : nat,
    k = Z.of_nat n /\ buf !! n = Some 0 /\
    filter (fun b => b ≠ 0) (take n buf) = take n buf.
Proof.
  revert k. induction buf as [| c buf IH]; intros k Hk; [discriminate |].
  cbn in Hk. destruct (Z.eqb_spec c 0) as [-> | Hc].
  - injection Hk as <-. exists 0%nat. auto.
  - destruct (strchr_NUL buf) as [k' |] eqn:Hrec; [| discriminate].
    injection Hk as <-.
    destruct (IH k' eq_refl) as (n & -> & Hz & Hnz).
    exists (S n). split; [lia |]. split; [exact Hz |].
    cbn [take]. rewrite filter_cons_True by exact Hc. now rewrite Hnz.
Qed.

Lemma strchr_NUL_None (buf : list Z) :
  strchr_NUL buf = None <-> 0 ∉ buf.
Proof.
  induction buf as [| c buf IH]; cbn.
  - split; [intros _; apply not_elem_of_nil | reflexivity].
  - destruct (Z.eqb_spec c 0) as [-> | Hc].
    + split; [discriminate | intros H; destruct H; left].
    + destruct (strchr_NUL buf); cbn.
      * split; [discriminate |]. intros H. 
        assert (0 ∉ buf) as H' by (intros ?; apply H; now right).
        apply IH in H'. discriminate.
      * split; [| reflexivity]. intros _ [Heq | Hin]%elem_of_cons; [congruence |].
        now apply IH in Hin.
Qed.

Lemma strchr_NUL_app (data rest : list Z) :
  0 ∉ data ->
  strchr_NUL (data ++ rest) = Z.add (Z.of_nat (length data)) <$> strchr_NUL rest.
Proof.
  induction data as [| c data IH]; intros Hnz.
  - cbn. destruct (strchr_NUL rest); reflexivity.
  - apply not_elem_of_cons in Hnz as [Hc Hnz].
    cbn [app strchr_NUL]. destruct (Z.eqb_spec c 0) as [-> | _]; [congruence |].
    rewrite (IH Hnz). destruct (strchr_NUL rest) as [k |]; cbn; [| reflexivity].
    f_equal. lia.
Qed.

Lemma filter_nonzero_id (data : list Z) :
  0 ∉ data -> filter (fun b => b ≠ 0) data = data.
Proof.
  induction data as [| c data IH]; intros Hnz; [reflexivity |].
  apply not_elem_of_cons in Hnz as [Hc Hnz].
  rewrite filter_cons_True by congruence. now rewrite IH.
Qed.

Lemma filter_nonzero_zeros (n : nat) : filter (fun b => b ≠ 0) (replicate n 0) = [].
Proof.
  induction n as [| n IH]; [reflexivity |].
  cbn [replicate]. rewrite filter_cons_False by tauto. exact IH.
Qed.

Section Compaction.

Variable buf0 : list Z.
Variable len : nat.
Hypothesis Hlen : (len <= length buf0)%nat.
Hypothesis Hfit : Z.of_nat len < 2 ^ 32.

(** The loop of [removePadding] keeps the non-zero bytes met so far in front
    of [iDst] and leaves the bytes from [iSrc] on as they were. *)
Lemma removePadding_loop_spec (n : nat) :
  forall (buf : list Z) (iSrc iDst : nat),
    (iSrc + n = len)%nat -> (iDst <= iSrc)%nat ->
    length buf = length buf0 ->
    take iDst buf = filter (fun b => b ≠ 0) (take iSrc buf0) ->
    drop iSrc buf = drop iSrc buf0 ->
    exists (buf' : list Z) (d : nat),
      removePadding_loop n buf (Z.of_nat len) (Z.of_nat iSrc) (Z.of_nat iDst)
      = (buf', Z.of_nat d) /\
      (d <= len)%nat /\
      take d buf' = filter (fun b => b ≠ 0) (take len buf0) /\
      length buf' = length buf0 /\
      drop len buf' = drop len buf0.
Proof.
  induction n as [| n IH]; intros buf iSrc iDst Hn Hle Hsize Hfront Hback.
  - assert (iSrc = len) as -> by lia. exists buf, iDst. cbn. auto.
  - cbn [removePadding_loop].
    destruct (Z.ltb_spec (Z.of_nat iSrc) (Z.of_nat len)) as [_ | Hge]; [| lia].
    rewrite !u32_small by lia.
    replace (Z.of_nat iSrc + 1) with (Z.of_nat (S iSrc)) by lia.
    replace (Z.of_nat iDst + 1) with (Z.of_nat (S iDst)) by lia.
    rewrite peek_at.
    assert (Hsrc : exists c, buf0 !! iSrc = Some c /\ buf !! iSrc = Some c).
    { destruct (lookup_lt_is_Some_2 buf0 iSrc ltac:(lia)) as [c Hc].
      exists c. split; [exact Hc |].
      rewrite <- (Nat.add_0_r iSrc), <- lookup_drop, Hback, lookup_drop.
      now rewrite Nat.add_0_r. }
    destruct Hsrc as (c & Hc0 & Hc). rewrite Hc. cbn [default from_option id].
    assert (Hnext : drop (S iSrc) buf = drop (S iSrc) buf0).
    { replace (S iSrc) with (iSrc + 1)%nat by lia.
      rewrite <- !drop_drop. now rewrite Hback. }
    assert (Hkeep : filter (fun b => b ≠ 0) (take (S iSrc) buf0)
                    = filter (fun b => b ≠ 0) (take iSrc buf0)
                      ++ (if bool_decide (c ≠ 0) then [c] else [])).
    { rewrite (take_S_r _ _ c) by exact Hc0. rewrite filter_app. f_equal.
      case_bool_decide.
      - now rewrite filter_cons_True.
      - now rewrite filter_cons_False by tauto. }
    case_bool_decide.
    + rewrite poke_at.
      apply IH; [lia | lia | now rewrite length_insert | | ].
      * rewrite (take_S_r _ _ c) by (apply list_lookup_insert_eq; lia).
        rewrite take_insert_ge by lia. now rewrite Hfront, Hkeep.
      * rewrite drop_insert_lt by lia. exact Hnext.
    + apply IH; [lia | lia | exact Hsize | | exact Hnext].
      rewrite Hfront, Hkeep. now rewrite app_nil_r.
Qed.

End Compaction.

(** [removePadding] when the first NUL lies within the length handed in: the
    bytes kept are the non-zero bytes of the buffer, in their order, and the
    length is their number. *)
Lemma removePadding_within (buf : list Z) (plen k : Z) :
  strchr_NUL buf = Some k ->
  k <= plen < 2 ^ 32 ->
  plen <= Z.of_nat (length buf) ->
  exists (buf' : list Z) (d : nat),
    removePadding buf plen = (buf', Z.of_nat d) /\
    take d buf' = filter (fun b => b ≠ 0) (take (Z.to_nat plen) buf) /\
    d = length (filter (fun b => b ≠ 0) (take (Z.to_nat plen) buf)) /\
    length buf' = length buf /\
    drop (Z.to_nat plen) buf' = drop (Z.to_nat plen) buf.
Proof.
  intros Hk Hrange Hcap.
  destruct (strchr_NUL_Some buf k Hk) as (n & -> & Hz & Hnz).
  unfold removePadding. rewrite Hk.
  rewrite !u32_small by lia.
  destruct (removePadding_loop_spec buf (Z.to_nat plen) ltac:(lia) ltac:(lia)
              (Z.to_nat (plen - Z.of_nat n)) buf n n
              ltac:(lia) ltac:(lia) eq_refl ltac:(now rewrite Hnz) eq_refl)
    as (buf' & d & Hrun & Hd & Hfront & Hsize & Hback).
  rewrite Z2Nat.id in Hrun by lia.
  exists buf', d. repeat split; try assumption.
  rewrite <- Hfront, length_take. lia.
Qed.

(** [removePadding] when the first NUL lies behind the length handed in: the
    length becomes the position of that NUL. *)
Lemma removePadding_beyond (buf : list Z) (plen k : Z) :
  strchr_NUL buf = Some k ->
  0 <= plen < k -> k < 2 ^ 32 ->
  removePadding buf plen = (buf, k).
Proof.
  intros Hk Hrange Hfit. unfold removePadding. rewrite Hk.
  rewrite !u32_small by lia.
  replace (Z.to_nat (plen - k)) with 0%nat by lia. reflexivity.
Qed.

(** C2 (the code departs from it): a buffer of length 2 holds the bytes 1 and
    2, so no zero byte; the memory behind it holds 3 and a NUL.
    [removePadding] does not leave the length unchanged: it sets it to 3,
    the position of the NUL that [strchr] found behind the buffer. *)
Theorem removePadding_scans_past_length :
  (0 ∉ take 2 [1; 2; 3; 0]) /\ removePadding [1; 2; 3; 0] 2 = ([1; 2; 3; 0], 3).
Proof.
  split; [| reflexivity].
  cbn. intros H. repeat (apply elem_of_cons in H as [H | H]; [discriminate |]).
  now apply elem_of_nil in H.
Qed.

(** ** Encrypting and decrypting *)

Section RoundTrip.

Context {G : Gcrypt}.

(** A writing and a reading session whose handles fit: what the first
    encrypts, the second decrypts, for buffers of whole blocks. *)
Variables pE pD : gcryfile_s.
Hypothesis Hblk : 0 < gf_blkLength pE <= 2 ^ 32.
Hypothesis Hinv :
  forall data : list Z,
    Z.of_nat (length data) mod gf_blkLength pE = 0 ->
    exists (hE hD : gcry_cipher_hd_t) (c : list Z),
      gcry_cipher_encrypt (gf_chd pE) data = (0, hE, c) /\
      length c = length data /\
      gcry_cipher_decrypt (gf_chd pD) c = (0, hD, data).

(** A buffer without zero byte whose length is not a multiple of the block
    length comes back from [rsgcryDecrypt] as it went into [rsgcryEncrypt],
    with its length. *)
Lemma roundtrip_unaligned (data rest : list Z) :
  0 ∉ data ->
  Z.of_nat (length data) mod gf_blkLength pE ≠ 0 ->
  gf_blkLength pE - Z.of_nat (length data) mod gf_blkLength pE <= Z.of_nat (length rest) ->
  Z.of_nat (length (data ++ rest)) < 2 ^ 32 ->
  exists (pE' pD' : gcryfile_s) (c buf' : list Z) (len' : Z),
    rsgcryEncrypt pE (data ++ rest) (Z.of_nat (length data)) = Some (RS_RET_OK, pE', c, len') /\
    len' mod gf_blkLength pE = 0 /\
    rsgcryDecrypt pD c len' = (RS_RET_OK, pD', buf', Z.of_nat (length data)) /\
    take (length data) buf' = data.
Proof.
  intros Hnz Hmod Hroom Hmem.
  set (blk := gf_blkLength pE) in *.
  pose proof (Z.mod_pos_bound (Z.of_nat (length data)) blk ltac:(lia)) as Hr.
  assert (HnPad : (blk - Z.of_nat (length data) mod blk) mod blk = blk - Z.of_nat (length data) mod blk)
    by (apply Z.mod_small; lia).
  rewrite length_app in Hmem.
  pose proof (addPadding_run pE (data ++ rest) (Z.of_nat (length data)) Hblk ltac:(lia)
                ltac:(fold blk; rewrite HnPad, length_app; lia)
                ltac:(rewrite length_app; lia)) as Hpad.
  destruct (nPad_bounds blk (Z.of_nat (length data)) ltac:(lia) ltac:(lia)) as (_ & Hmul & _).
  fold blk in Hpad. rewrite HnPad in Hpad, Hmul.
  set (nPad := blk - Z.of_nat (length data) mod blk) in *.
  rewrite Nat2Z.id, take_app_length in Hpad.
  replace (Z.to_nat (Z.of_nat (length data) + nPad)) with (length data + Z.to_nat nPad)%nat in Hpad by lia.
  rewrite drop_app_add in Hpad.
  set (tail := drop (Z.to_nat nPad) rest) in *.
  set (zeros := replicate (Z.to_nat nPad) 0) in *.
  assert (Hzlen : length zeros = Z.to_nat nPad) by apply length_replicate.
  assert (Hplen : length (data ++ zeros) = Z.to_nat (Z.of_nat (length data) + nPad))
    by (rewrite length_app; lia).
  destruct (Hinv (data ++ zeros)) as (hE & hD & c & Henc & Hclen & Hdec).
  { rewrite Hplen, Z2Nat.id by lia. exact Hmul. }
  destruct (removePadding_within ((data ++ zeros) ++ tail) (Z.of_nat (length data) + nPad) (Z.of_nat (length data)))
    as (buf' & d & Hrun & Hfront & Hd & Hsize & Hback).
  { rewrite <- app_assoc, strchr_NUL_app by exact Hnz.
    assert (Hz : strchr_NUL (zeros ++ tail) = Some 0).
    { subst zeros. destruct (Z.to_nat nPad) as [| n] eqn:Hn; [lia | reflexivity]. }
    rewrite Hz. cbn. f_equal. lia. }
  { lia. }
  { rewrite !length_app. lia. }
  rewrite <- Hplen, take_app_length, filter_app in Hfront, Hd.
  rewrite filter_nonzero_id in Hfront, Hd by exact Hnz.
  subst zeros. rewrite filter_nonzero_zeros, app_nil_r in Hfront, Hd. subst d.
  unfold rsgcryEncrypt.
  destruct (Z.eqb_spec (Z.of_nat (length data)) 0) as [HL0 | _].
  { rewrite HL0, Z.mod_0_l in Hmod by lia. congruence. }
  rewrite Hpad. cbn [mbind option_bind].
  rewrite app_assoc, <- Hplen, take_app_length, Henc.
  rewrite bool_decide_eq_false_2 by tauto.
  rewrite <- Hclen, firstn_all, blit_app by exact Hclen.
  eexists _, _, _, _, _. split; [reflexivity |]. split; [exact Hmul |].
  unfold rsgcryDecrypt.
  rewrite <- Hplen, <- Hclen, take_app_length, Hdec.
  rewrite bool_decide_eq_false_2 by tauto.
  rewrite Hclen, firstn_all, blit_app by (symmetry; exact Hclen).
  rewrite Hrun. split; [reflexivity | exact Hfront].
Qed.

(** A buffer without zero byte whose length is a multiple of the block
    length, lying in front of memory whose first NUL is at offset [k]:
    the bytes come back, the length comes back as [length data + k]. *)
Lemma roundtrip_aligned (data rest : list Z) (k : Z) :
  0 ∉ data ->
  Z.of_nat (length data) mod gf_blkLength pE = 0 ->
  strchr_NUL rest = Some k -> 0 < k ->
  Z.of_nat (length (data ++ rest)) < 2 ^ 32 ->
  exists (pE' pD' : gcryfile_s) (c : list Z),
    rsgcryEncrypt pE (data ++ rest) (Z.of_nat (length data))
    = Some (RS_RET_OK, pE', c, Z.of_nat (length data)) /\
    rsgcryDecrypt pD c (Z.of_nat (length data))
    = (RS_RET_OK, pD', data ++ rest, Z.of_nat (length data) + k).
Proof.
  intros Hnz Hmod Hk Hkpos Hmem.
  set (blk := gf_blkLength pE) in *.
  destruct (strchr_NUL_Some rest k Hk) as (n & -> & Hn & _).
  apply lookup_lt_Some in Hn. rewrite length_app in Hmem.
  assert (Hremove : removePadding (data ++ rest) (Z.of_nat (length data))
                    = (data ++ rest, Z.of_nat (length data) + Z.of_nat n)).
  { apply removePadding_beyond; [| lia | lia].
    rewrite strchr_NUL_app, Hk by exact Hnz. reflexivity. }
  destruct (Hinv data Hmod) as (hE & hD & c & Henc & Hclen & Hdec).
  unfold rsgcryEncrypt, rsgcryDecrypt.
  destruct (Z.eqb_spec (Z.of_nat (length data)) 0) as [HL0 | HL0].
  - assert (data = []) as -> by (apply nil_length_inv; lia).
    destruct c; [| discriminate].
    cbn [app length Z.of_nat Z.eqb Z.to_nat take] in *.
    eexists _, _, _. split; [reflexivity |].
    change (Z.of_nat 0) with 0 in *. change (Z.to_nat 0) with 0%nat. rewrite !take_0.
    rewrite Hdec. rewrite bool_decide_eq_false_2 by tauto.
    rewrite blit_nil, Hremove. reflexivity.
  - pose proof (addPadding_run pE (data ++ rest) (Z.of_nat (length data)) Hblk ltac:(lia)
                  ltac:(fold blk; rewrite Hmod, Z.sub_0_r, Z.mod_same, length_app by lia; lia)
                  ltac:(rewrite length_app; lia)) as Hpad.
    fold blk in Hpad. rewrite Hmod, Z.sub_0_r, Z.mod_same in Hpad by lia.
    rewrite Z.add_0_r in Hpad. change (Z.to_nat 0) with 0%nat in Hpad.
    change (replicate 0 0 ++ ?x) with x in Hpad.
    rewrite take_drop in Hpad. rewrite Hpad. cbn [mbind option_bind].
    rewrite Nat2Z.id. rewrite take_app_length, Henc.
    rewrite bool_decide_eq_false_2 by tauto.
    rewrite <- Hclen, firstn_all, blit_app by exact Hclen.
    eexists _, _, _. split; [reflexivity |].
    rewrite take_app_length, Hdec.
    rewrite bool_decide_eq_false_2 by tauto.
    rewrite Hclen, firstn_all, blit_app by (symmetry; exact Hclen).
    rewrite Hremove. reflexivity.
Qed.

End RoundTrip.

(** The small cipher decrypts what it encrypts. *)
Lemma xor_stream_involutive (h : xor_hd) (data : list Z) :
  xor_stream h (xor_stream h data) = data.
Proof.
  apply list_eq. intros i. unfold xor_stream.
  rewrite !list_lookup_imap. destruct (data !! i) as [b |]; [| reflexivity].
  cbn. f_equal. rewrite Z.lxor_assoc, Z.lxor_nilpotent. apply Z.lxor_0_r.
Qed.

Lemma xor_session_fits (data : list Z) :
  Z.of_nat (length data) mod gf_blkLength (xor_session 16) = 0 ->
  exists (hE hD : xor_hd) (c : list Z),
    gcry_cipher_encrypt (Gcrypt := xor_cipher) (gf_chd (xor_session 16)) data = (0, hE, c) /\
    length c = length data /\
    gcry_cipher_decrypt (Gcrypt := xor_cipher) (gf_chd (xor_session 16)) c = (0, hD, data).
Proof.
  intros Hmod. cbn in Hmod. cbn [gcry_cipher_encrypt gcry_cipher_decrypt xor_cipher].
  unfold xor_crypt. cbn [xor_session gf_chd xh_open andb].
  exists (gf_chd (xor_session 16)), (gf_chd (xor_session 16)),
    (xor_stream (gf_chd (xor_session 16)) data).
  assert (Hlen : length (xor_stream (gf_chd (xor_session 16)) data) = length data)
    by apply length_imap.
  rewrite Hlen.
  destruct (Z.eqb_spec (Z.of_nat (length data) mod 16) 0) as [_ | Hne]; [| contradiction].
  split; [reflexivity |]. split; [reflexivity |].
  now rewrite xor_stream_involutive.
Qed.

(** The two lemmas of the round trip, for the sessions of the small cipher. *)
Lemma roundtrip_unaligned_xor :
  exists (pE' pD' : gcryfile_s) (c buf' : list Z) (len' : Z),
    rsgcryEncrypt (xor_session 16) ([1; 2; 3; 4; 5] ++ replicate 20 9) 5
    = Some (RS_RET_OK, pE', c, len') /\
    len' mod 16 = 0 /\
    rsgcryDecrypt (xor_session 16) c len' = (RS_RET_OK, pD', buf', 5) /\
    take 5 buf' = [1; 2; 3; 4; 5].
Proof.
  apply (roundtrip_unaligned (xor_session 16) (xor_session 16) ltac:(by_eval) xor_session_fits
           [1; 2; 3; 4; 5] (replicate 20 9)); try by_eval.
  intros H. repeat (apply elem_of_cons in H as [H | H]; [discriminate |]).
  now apply elem_of_nil in H.
Defined.

Lemma roundtrip_aligned_xor :
  exists (pE' pD' : gcryfile_s) (c : list Z),
    rsgcryEncrypt (xor_session 16) (replicate 16 65 ++ [66; 67; 0; 68]) 16
    = Some (RS_RET_OK, pE', c, 16) /\
    rsgcryDecrypt (xor_session 16) c 16
    = (RS_RET_OK, pD', replicate 16 65 ++ [66; 67; 0; 68], 16 + 2).
Proof.
  apply (roundtrip_aligned (xor_session 16) (xor_session 16) ltac:(by_eval) xor_session_fits
           (replicate 16 65) [66; 67; 0; 68] 2); try by_eval.
  intros H. repeat (apply elem_of_cons in H as [H | H]; [discriminate |]).
  now apply elem_of_nil in H.
Defined.

(** C1 (the code departs from it): sixteen non-zero bytes, one block of the
    cipher, lie in a buffer of eighteen bytes whose last two are 17 and a
    NUL.  Encryption adds no padding and succeeds; decryption with the same
    key and IV succeeds and restores the bytes, but reports a length of 17
    instead of 16. *)
Theorem rsgcryDecrypt_after_rsgcryEncrypt_aligned :
  exists c : list Z,
    rsgcryEncrypt (xor_session 16)
      [1; 2; 3; 4; 5; 6; 7; 8; 9; 10; 11; 12; 13; 14; 15; 16; 17; 0] 16
    = Some (RS_RET_OK, xor_session 16, c, 16) /\
    rsgcryDecrypt (xor_session 16) c 16
    = (RS_RET_OK, xor_session 16,
       [1; 2; 3; 4; 5; 6; 7; 8; 9; 10; 11; 12; 13; 14; 15; 16; 17; 0], 17).
Proof.
  exists [254; 253; 252; 251; 250; 249; 248; 247; 246; 245; 244; 243; 242; 241; 240; 239;
          17; 0].
  split; eval_lhs; reflexivity.
Qed.

(** ** Contexts *)

Section Contexts.

Context {G : Gcrypt}.

(** C6: when the key length differs from the length the algorithm requires,
    [rsgcrySetKey] returns the required length, which is positive, and the
    context is as before; when it is the required length, [rsgcrySetKey]
    returns 0 and the context holds a copy of the key and its length.  The
    required length is positive and fits the [uint16_t] it is stored in, and
    the length of the key fits the [uint16_t] parameter it is passed in. *)
Theorem rsgcrySetKey_checks_length (ctx : gcryctx_s) (key : list Z) (keyLen : Z) :
  0 < gcry_cipher_get_algo_keylen (ctx_algo ctx) < 2 ^ 16 ->
  Z.of_nat (length key) = keyLen ->
  keyLen < 2 ^ 16 ->
  (keyLen ≠ gcry_cipher_get_algo_keylen (ctx_algo ctx) ->
   rsgcrySetKey ctx key keyLen = (gcry_cipher_get_algo_keylen (ctx_algo ctx), ctx) /\
   0 < fst (rsgcrySetKey ctx key keyLen)) /\
  (keyLen = gcry_cipher_get_algo_keylen (ctx_algo ctx) ->
   rsgcrySetKey ctx key keyLen
   = (0, {| ctx_key := Some key; ctx_keyLen := keyLen;
            ctx_algo := ctx_algo ctx; ctx_mode := ctx_mode ctx |})).
Proof.
  intros Hreq Hlen Hfits. unfold rsgcrySetKey. rewrite !u16_small by lia.
  split; intros Hcmp.
  - rewrite bool_decide_eq_true_2 by exact Hcmp. cbn. split; [reflexivity | lia].
  - rewrite bool_decide_eq_false_2 by tauto.
    rewrite <- Hlen, Nat2Z.id, firstn_all. reflexivity.
Qed.

(** The key length reaches [rsgcrySetKey] through its [uint16_t] parameter:
    lengths that agree modulo [2 ^ 16] are not told apart. *)
Lemma rsgcrySetKey_keyLen_uint16 (ctx : gcryctx_s) (key : list Z) (keyLen : Z) :
  rsgcrySetKey ctx key keyLen = rsgcrySetKey ctx key (u16 keyLen).
Proof.
  unfold rsgcrySetKey.
  replace (u16 (u16 keyLen)) with (u16 keyLen) by (unfold u16; now rewrite Z.mod_mod).
  reflexivity.
Qed.

(** C10: [gcryfileDestruct] on a [NULL] session returns 0 and leaves the
    world as it is, whatever the offset: nothing is written, nothing is
    closed, nothing is freed. *)
Theorem gcryfileDestruct_NULL (offsLogfile : Z) (w : world) :
  gcryfileDestruct None offsLogfile w = (0, w).
Proof. reflexivity. Qed.

End Contexts.

Lemma rsgcrySetKey_checks_length_witness :
  rsgcrySetKey (G := xor_cipher) gcryCtxNew (replicate 3 90) 3 = (16, gcryCtxNew) /\
  rsgcrySetKey (G := xor_cipher) gcryCtxNew (replicate 16 90) 16
  = (0, {| ctx_key := Some (replicate 16 90); ctx_keyLen := 16;
           ctx_algo := GCRY_CIPHER_AES128; ctx_mode := GCRY_CIPHER_MODE_CBC |}).
Proof.
  split.
  - apply (rsgcrySetKey_checks_length (G := xor_cipher) gcryCtxNew (replicate 3 90) 3);
      by_eval.
  - apply (rsgcrySetKey_checks_length (G := xor_cipher) gcryCtxNew (replicate 16 90) 16);
      by_eval.
Defined.

(** ** Closing the side-file *)

Lemma digits_value_app (l1 l2 : list Z) (a : Z) :
  digits_value (l1 ++ l2) a = digits_value l1 a ≫= digits_value l2.
Proof.
  revert a. induction l1 as [| d l1 IH]; intros a; cbn; [reflexivity |].
  destruct ((48 <=? d) && (d <=? 57)); [apply IH | reflexivity].
Qed.

(** [utoa] puts the digits of [n] in front of [acc], the most significant
    first. *)
Lemma utoa_spec (f : nat) :
  forall (n : Z) (acc : list Z),
    0 <= n < 10 ^ Z.of_nat (S f) ->
    exists ds : list Z,
      utoa (S f) n acc = ds ++ acc /\
      (0 < length ds <= S f)%nat /\
      (forall d, d ∈ ds -> 48 <= d <= 57) /\
      forall a, digits_value ds a = Some (a * 10 ^ Z.of_nat (length ds) + n).
Proof.
  induction f as [| f IH]; intros n acc Hn.
  - exists [48 + n mod 10]. 
    assert (n / 10 = 0) as Hq by (apply Z.div_small; lia).
    assert (n mod 10 = n) as Hr by (apply Z.mod_small; lia).
    cbn [utoa]. rewrite Hq, Hr. cbn [Z.eqb app length].
    split; [reflexivity |]. split; [lia |]. split.
    + intros d ->%list_elem_of_singleton. lia.
    + intros a. cbn [digits_value].
      destruct (Z.leb_spec 48 (48 + n)); [| lia].
      destruct (Z.leb_spec (48 + n) 57); [| lia].
      cbn. f_equal. lia.
  - pose proof (Z.mod_pos_bound n 10 ltac:(lia)) as Hr.
    pose proof (Z.div_mod n 10 ltac:(lia)) as Hdm.
    change (utoa (S (S f)) n acc)
      with (if n / 10 =? 0 then (48 + n mod 10) :: acc
            else utoa (S f) (n / 10) ((48 + n mod 10) :: acc)).
    destruct (Z.eqb_spec (n / 10) 0) as [Hq | Hq].
    + exists [48 + n mod 10]. cbn [app length].
      split; [reflexivity |]. split; [lia |]. split.
      * intros d ->%list_elem_of_singleton. lia.
      * intros a. cbn [digits_value].
        destruct (Z.leb_spec 48 (48 + n mod 10)); [| lia].
        destruct (Z.leb_spec (48 + n mod 10) 57); [| lia].
        cbn. f_equal. lia.
    + assert (Hq' : 0 <= n / 10 < 10 ^ Z.of_nat (S f)).
      { split; [apply Z.div_pos; lia |].
        apply Z.div_lt_upper_bound; [lia |].
        rewrite <- Z.pow_succ_r by lia. 
        replace (Z.succ (Z.of_nat (S f))) with (Z.of_nat (S (S f))) by lia. lia. }
      destruct (IH (n / 10) ((48 + n mod 10) :: acc) Hq') as (ds & Hrun & Hlen & Hdig & Hval).
      exists (ds ++ [48 + n mod 10]).
      split; [rewrite Hrun, <- app_assoc; reflexivity |].
      rewrite length_app. cbn [length].
      split; [lia |]. split.
      * intros d [Hd | ->%list_elem_of_singleton]%elem_of_app; [auto | lia].
      * intros a. rewrite digits_value_app, Hval. cbn [mbind option_bind digits_value].
        destruct (Z.leb_spec 48 (48 + n mod 10)); [| lia].
        destruct (Z.leb_spec (48 + n mod 10) 57); [| lia].
        cbn. f_equal.
        replace (Z.of_nat (length ds + 1)) with (Z.succ (Z.of_nat (length ds))) by lia.
        rewrite Z.pow_succ_r by lia. lia.
Qed.

(** The conversion ["%lld"] yields at most 20 characters, and they are the
    decimal numeral of the number converted. *)
Lemma lltoa_spec (v : Z) :
  - 2 ^ 63 <= v < 2 ^ 63 ->
  (0 < length (lltoa v) <= 20)%nat /\ decimal_value (lltoa v) = Some v.
Proof.
  intros Hv. unfold lltoa.
  destruct (Z.ltb_spec v 0) as [Hneg | Hpos].
  - destruct (utoa_spec 18 (- v) [] ltac:(lia)) as (ds & Hrun & Hlen & Hdig & Hval).
    rewrite Hrun, app_nil_r. cbn [length]. split; [lia |].
    cbn [decimal_value]. destruct ds as [| d ds]; [cbn in Hlen; lia |].
    rewrite Hval. cbn [fmap option_fmap option_map]. f_equal; lia.
  - destruct (utoa_spec 18 v [] ltac:(lia)) as (ds & Hrun & Hlen & Hdig & Hval).
    rewrite Hrun, app_nil_r. split; [lia |].
    destruct ds as [| d ds]; [cbn in Hlen; lia |].
    assert (Hd : 48 <= d <= 57) by (apply Hdig; left).
    unfold decimal_value.
    destruct (Z.eqb_spec d 45) as [-> | Hne]; [lia |].
    rewrite Hval. 
    replace (match d with 45 => _ | _ => Some (0 * 10 ^ Z.of_nat (length (d :: ds)) + v) end)
      with (Some (0 * 10 ^ Z.of_nat (length (d :: ds)) + v)).
    + f_equal; lia.
    + destruct d as [| p | p]; try reflexivity.
      do 6 (destruct p as [p | p |]; try reflexivity). lia.
Qed.

Lemma snprintf_lld_spec (str : list Z) (v : Z) :
  length str = 21%nat ->
  - 2 ^ 63 <= v < 2 ^ 63 ->
  take (Z.to_nat (snd (snprintf_lld str 21 v))) (fst (snprintf_lld str 21 v)) = lltoa v.
Proof.
  intros Hstr Hv. destruct (lltoa_spec v Hv) as [Hlen _].
  unfold snprintf_lld. cbn [fst snd]. rewrite Nat2Z.id.
  change (Z.to_nat (21 - 1)) with 20%nat.
  rewrite (take_ge (lltoa v)) by lia.
  rewrite blit_front by (rewrite length_app; cbn; lia).
  rewrite <- app_assoc. rewrite take_app_length. reflexivity.
Qed.

Lemma sys_writev_trace (fd : Z) (data : list Z) (w : world) :
  w_trace (snd (sys_writev fd data w))
  = w_trace w ++ [EvWritev fd data (fst (sys_writev fd data w))].
Proof.
  unfold sys_writev.
  destruct (w_fds w !! fd) as [o |]; [| reflexivity].
  destruct (o_access (of_flags o)); [reflexivity |].
  destruct (w_files w !! of_path o) as [ino |]; [| reflexivity].
  destruct ((w_space w <=? 0) && negb (bool_decide (data = []))); reflexivity.
Qed.

Lemma sys_writev_append (fd : Z) (data : list Z) (w : world) (o : ofile) (ino : inode) :
  w_fds w !! fd = Some o ->
  o_access (of_flags o) = O_WRONLY ->
  o_append (of_flags o) = true ->
  w_files w !! of_path o = Some ino ->
  Z.of_nat (length data) <= w_space w ->
  fst (sys_writev fd data w) = Z.of_nat (length data) /\
  i_data <$> w_files (snd (sys_writev fd data w)) !! of_path o = Some (i_data ino ++ data).
Proof.
  intros Hfd Hacc Happ Hino Hroom. unfold sys_writev.
  rewrite Hfd, Hacc, Hino, Happ.
  assert (Hgo : (w_space w <=? 0) && negb (bool_decide (data = [])) = false).
  { destruct (Z.leb_spec (w_space w) 0) as [Hfull |]; [| reflexivity].
    destruct data; [reflexivity | cbn in Hroom; lia]. }
  rewrite Hgo. cbn [fst snd log with_space with_fds with_files w_files].
  rewrite take_ge by lia. split; [reflexivity |].
  rewrite lookup_insert_eq. cbn.
  rewrite take_ge by lia. rewrite drop_ge by lia. now rewrite app_nil_r.
Qed.

Section Close.

Context {G : Gcrypt}.

(** C8: with an open descriptor, [eiClose] issues one write of the record
    [END:<offset>], the offset in decimal notation, frees the read buffer
    if there is one, closes the descriptor and sets the field to -1,
    whatever the result [n] of the write is; it returns nothing.  When the
    descriptor is open for appending and the device has room, the record is
    at the end of the side-file afterwards. *)
Theorem eiClose_releases (gf : gcryfile_s) (w : world) (offsLogfile : Z) :
  gf_fd gf ≠ -1 ->
  - 2 ^ 63 <= offsLogfile < 2 ^ 63 ->
  exists (n : Z) (w' : world),
    eiClose offsLogfile (gf, w) = (tt, (set_fd (-1) gf, w')) /\
    w_fds w' !! gf_fd gf = None /\
    w_trace w'
    = w_trace w ++ [EvWritev (gf_fd gf) (END_record offsLogfile) n]
        ++ match gf_readBuf gf with Some _ => [EvFree ObjReadBuf] | None => [] end
        ++ [EvClose (gf_fd gf)] /\
    decimal_value (lltoa offsLogfile) = Some offsLogfile /\
    forall (o : ofile) (ino : inode),
      w_fds w !! gf_fd gf = Some o ->
      o_access (of_flags o) = O_WRONLY ->
      o_append (of_flags o) = true ->
      w_files w !! of_path o = Some ino ->
      Z.of_nat (length (END_record offsLogfile)) <= w_space w ->
      n = Z.of_nat (length (END_record offsLogfile)) /\
      i_data <$> w_files w' !! of_path o = Some (i_data ino ++ END_record offsLogfile).
Proof.
  intros Hopen Hoffs.
  destruct (lltoa_spec offsLogfile Hoffs) as [Hlen Hdec].
  pose proof (snprintf_lld_spec (w_junk w <$> seq 0 21) offsLogfile
                ltac:(now rewrite length_fmap, length_seq) Hoffs) as Hsn.
  unfold eiClose, bind, getf. cbn [fst snd].
  destruct (Z.eqb_spec (gf_fd gf) (-1)) as [Heq | _]; [contradiction |].
  unfold sys at 1, uninit, malloc. cbn [fst snd].
  change (Z.to_nat 21) with 21%nat.
  destruct (snprintf_lld (w_junk w <$> seq 0 21) 21 offsLogfile) as [offs len] eqn:Hs.
  cbn [fst snd] in Hsn.
  unfold eiWriteRec, bind, getf, sys. cbn [fst snd concat].
  rewrite Hsn, app_nil_r.
  change (take (Z.to_nat 4) (bytes "END:") ++ lltoa offsLogfile ++ [10])
    with (END_record offsLogfile).
  pose proof (sys_writev_trace (gf_fd gf) (END_record offsLogfile) w) as Htr.
  pose proof (sys_writev_append (gf_fd gf) (END_record offsLogfile) w) as Happ.
  destruct (sys_writev (gf_fd gf) (END_record offsLogfile) w) as [n w1].
  cbn [fst snd] in Htr, Happ.
  exists n.
  destruct (bool_decide (n ≠ 4 + len + 1)); cbn [ret fst snd];
    unfold free, sys_close, setf, ret; cbn [fst snd];
    (eexists; split; [reflexivity |]);
    (split; [cbn; apply lookup_delete_eq |]);
    (split; [destruct (gf_readBuf gf); cbn; rewrite Htr, <- ?app_assoc; reflexivity |]);
    (split; [exact Hdec |]);
    intros o ino Hfd Hacc Hap Hino Hroom;
    destruct (Happ o ino Hfd Hacc Hap Hino Hroom) as [-> Hfile];
    (split; [reflexivity |]);
    destruct (gf_readBuf gf); exact Hfile.
Qed.

End Close.

Lemma eiClose_releases_witness :
  exists (n : Z) (w' : world),
    eiClose 12345 (set_fd 3 (xor_session 16), w_open_side_file)
    = (tt, (set_fd (-1) (xor_session 16), w')) /\
    w_fds w' !! 3 = None /\
    n = 10 /\
    i_data <$> w_files w' !! "log.encinfo"%string
    = Some (filetype_line ++ bytes "END:12345" ++ [10]).
Proof.
  destruct (eiClose_releases (set_fd 3 (xor_session 16)) w_open_side_file 12345)
    as (n & w' & Hrun & Hfd & _ & _ & Hfile); [by_eval .. |].
  exists n, w'. split; [exact Hrun |]. split; [exact Hfd |].
  apply (Hfile {| of_path := "log.encinfo";
                  of_flags := {| o_access := O_WRONLY; o_append := true; o_creat := false |};
                  of_pos := 0 |} (new_file filetype_line)); by_eval.
Defined.

(** ** The cipher of a session *)

Section Frame.
Context {G : Gcrypt}.

Lemma keeps_ret {A : Type} (a : A) : keeps_cipher (ret a).
Proof. intros s. repeat split. Qed.

Lemma keeps_bind {A B : Type} (m : St sess A) (k : A -> St sess B) :
  keeps_cipher m -> (forall a, keeps_cipher (k a)) -> keeps_cipher (bind m k).
Proof.
  intros Hm Hk s. unfold bind.
  specialize (Hm s). destruct (m s) as [a s1]. specialize (Hk a s1).
  unfold same_cipher in *. cbn [fst snd] in *. intuition congruence.
Qed.

Lemma keeps_getf {A : Type} (p : gcryfile_s -> A) : keeps_cipher (getf p).
Proof. intros s. repeat split. Qed.

Lemma keeps_sys {A : Type} (m : St world A) : keeps_cipher (sys m).
Proof. intros s. unfold sys. destruct (m (snd s)). repeat split. Qed.

Lemma keeps_set_fd (x : Z) : keeps_cipher (setf (set_fd x)).
Proof. intros s. repeat split. Qed.

Lemma keeps_set_readBuf (x : option (list Z)) : keeps_cipher (setf (set_readBuf x)).
Proof. intros s. repeat split. Qed.

Lemma keeps_set_readBufIdx (x : Z) : keeps_cipher (setf (set_readBufIdx x)).
Proof. intros s. repeat split. Qed.

Lemma keeps_set_readBufMaxIdx (x : Z) : keeps_cipher (setf (set_readBufMaxIdx x)).
Proof. intros s. repeat split. Qed.

Lemma keeps_CHKiRet (m k : St sess rsRetVal) :
  keeps_cipher m -> keeps_cipher k -> keeps_cipher (CHKiRet m k).
Proof.
  intros Hm Hk. unfold CHKiRet. apply keeps_bind; [exact Hm |].
  intros []; first [exact Hk | apply keeps_ret].
Qed.

Create HintDb keeps discriminated.
#[local] Hint Resolve keeps_ret keeps_getf keeps_sys keeps_set_fd keeps_set_readBuf
  keeps_set_readBufIdx keeps_set_readBufMaxIdx : keeps.

(** Takes a monadic term apart along its binds and branches. *)
Ltac keeps :=
  repeat first
    [ solve [auto with keeps]
    | apply keeps_bind; [| intros ?]
    | apply keeps_CHKiRet
    | match goal with
      | |- keeps_cipher (if ?b then _ else _) => destruct b
      | |- keeps_cipher (match ?x with _ => _ end) => destruct x
      end ].

Lemma keeps_eiWriteRec (recHdr : list Z) (lenRecHdr : Z) (buf : list Z) (lenBuf : Z) :
  keeps_cipher (eiWriteRec recHdr lenRecHdr buf lenBuf).
Proof. unfold eiWriteRec. keeps. Qed.

Lemma keeps_eiOpenRead : keeps_cipher eiOpenRead.
Proof. unfold eiOpenRead. keeps. Qed.

Lemma keeps_eiRead : keeps_cipher eiRead.
Proof. unfold eiRead. keeps. Qed.

#[local] Hint Resolve keeps_eiWriteRec keeps_eiOpenRead keeps_eiRead : keeps.

Lemma keeps_eiReadChar : keeps_cipher eiReadChar.
Proof. unfold eiReadChar. keeps. Qed.

Lemma keeps_eiCheckFiletype : keeps_cipher eiCheckFiletype.
Proof. unfold eiCheckFiletype. keeps. Qed.

#[local] Hint Resolve keeps_eiReadChar keeps_eiCheckFiletype : keeps.

Lemma keeps_eiGetRecord_rectype (fuel : nat) :
  forall (i c : Z) (rectype : list Z), keeps_cipher (eiGetRecord_rectype fuel i c rectype).
Proof.
  induction fuel as [| fuel IH]; intros i c rectype; cbn [eiGetRecord_rectype]; keeps.
Qed.

Lemma keeps_eiGetRecord_value (fuel : nat) :
  forall (i j c : Z) (value : list Z), keeps_cipher (eiGetRecord_value fuel i j c value).
Proof.
  induction fuel as [| fuel IH]; intros i j c value; cbn [eiGetRecord_value]; keeps.
Qed.

#[local] Hint Resolve keeps_eiGetRecord_rectype keeps_eiGetRecord_value : keeps.

Lemma keeps_eiGetRecord (rectype value : list Z) : keeps_cipher (eiGetRecord rectype value).
Proof. unfold eiGetRecord. keeps. Qed.

#[local] Hint Resolve keeps_eiGetRecord : keeps.

Lemma keeps_eiGetIV (iv : list Z) (leniv : Z) : keeps_cipher (eiGetIV iv leniv).
Proof. unfold eiGetIV. keeps. Qed.

Lemma keeps_eiOpenAppend : keeps_cipher eiOpenAppend.
Proof. unfold eiOpenAppend. keeps. Qed.

Lemma keeps_eiWriteIV (iv : list Z) : keeps_cipher (eiWriteIV iv).
Proof. unfold eiWriteIV. keeps. Qed.

Lemma keeps_seedIV : keeps_cipher seedIV.
Proof. unfold seedIV. keeps. Qed.

#[local] Hint Resolve keeps_eiGetIV keeps_eiOpenAppend keeps_eiWriteIV keeps_seedIV : keeps.

Lemma same_cipher_trans (g1 g2 g3 : gcryfile_s) :
  same_cipher g1 g2 -> same_cipher g2 g3 -> same_cipher g1 g3.
Proof. unfold same_cipher. intuition congruence. Qed.

Lemma readIV_wait_keeps (fuel : nat) :
  forall (s s' : sess) (r : rsRetVal),
    readIV_wait fuel s = Some (r, s') -> same_cipher (fst s) (fst s').
Proof.
  induction fuel as [| fuel IH]; intros s s' r Hrun; [discriminate |].
  cbn [readIV_wait] in Hrun.
  pose proof (keeps_eiOpenRead s) as Hopen.
  destruct (eiOpenRead s) as [localRet s1]. cbn [fst snd] in Hopen.
  destruct localRet; try (injection Hrun as <- <-; exact Hopen).
  pose proof (keeps_sys srSleep s1) as Hsleep.
  destruct (sys srSleep s1) as [u s2]. cbn [fst snd] in Hsleep.
  eapply same_cipher_trans; [exact Hopen |].
  eapply same_cipher_trans; [exact Hsleep |].
  eapply IH. exact Hrun.
Qed.

Lemma readIV_keeps (fuel : nat) (iv iv' : option (list Z)) (s s' : sess) (r : rsRetVal) :
  readIV fuel iv s = Some (r, iv', s') -> same_cipher (fst s) (fst s').
Proof.
  unfold readIV. intros Hrun.
  destruct (readIV_wait fuel s) as [[r0 s0] |] eqn:Hwait; [| discriminate].
  apply readIV_wait_keeps in Hwait.
  pose proof (keeps_eiCheckFiletype s0) as Hcheck.
  destruct r0; try (injection Hrun as <- <- <-; exact Hwait).
  destruct (eiCheckFiletype s0) as [r1 s1]. cbn [fst snd] in Hcheck.
  eapply same_cipher_trans; [exact Hwait |].
  eapply same_cipher_trans; [exact Hcheck |].
  destruct r1; try (injection Hrun as <- <- <-; repeat split).
  unfold getf, sys, malloc in Hrun. cbn [fst snd] in Hrun.
  match type of Hrun with
  | context [eiGetIV ?m ?n ?st] =>
      pose proof (keeps_eiGetIV m n st) as Hget; destruct (eiGetIV m n st) as [[r2 iv2] s2]
  end.
  cbn [fst snd] in Hget. injection Hrun as <- <- <-. exact Hget.
Qed.

Lemma rsgcryInitCrypt_finalize_result (iRet : rsRetVal) (pgf : option gcryfile_s)
    (iv : option (list Z)) (s : sess) :
  fst (rsgcryInitCrypt_finalize iRet pgf iv s) = (iRet, pgf).
Proof.
  unfold rsgcryInitCrypt_finalize. destruct s as [gf w].
  destruct (free iv ObjIV w) as [u w1].
  destruct iRet; try reflexivity;
    destruct (gcryfileDestruct (Some gf) (-1) w1); reflexivity.
Qed.

Lemma keyed_from_new_algo_mode (ctx : gcryctx_s) :
  keyed_from_new ctx ->
  ctx_algo ctx = GCRY_CIPHER_AES128 /\ ctx_mode ctx = GCRY_CIPHER_MODE_CBC.
Proof.
  induction 1 as [| ctx key keyLen _ IH]; [split; reflexivity |].
  unfold rsgcrySetKey. cbv zeta. destruct (bool_decide _); exact IH.
Qed.

Lemma rsgcryInitCrypt_finalize_Some (iRet r : rsRetVal) (pgf : option gcryfile_s)
    (iv : option (list Z)) (s : sess) (gf : gcryfile_s) (w' : world) :
  Some (rsgcryInitCrypt_finalize iRet pgf iv s) = Some (r, Some gf, w') ->
  iRet = r /\ pgf = Some gf.
Proof.
  intros Hrun. injection Hrun as Hrun.
  pose proof (rsgcryInitCrypt_finalize_result iRet pgf iv s) as Hres.
  rewrite Hrun in Hres. cbn in Hres. injection Hres as <- <-. split; reflexivity.
Qed.

(** What [rsgcryInitCrypt] has done to the cipher handle of a session it
    returns. *)
Lemma rsgcryInitCrypt_handle (MAXFNAME fuel : nat) (ctx : gcryctx_s) (fname : string)
    (openMode : Z) (w w' : world) (r : rsRetVal) (gf : gcryfile_s) :
  rsgcryInitCrypt MAXFNAME fuel ctx fname openMode w = Some (r, Some gf, w') ->
  exists (h0 h1 : gcry_cipher_hd_t) (iv : option (list Z)),
    gcry_cipher_open (ctx_algo ctx) (ctx_mode ctx) 0 = (0, h0) /\
    gcry_cipher_setkey h0 (ctx_key ctx) (ctx_keyLen ctx) = (0, h1) /\
    gcry_cipher_setiv h1 iv (gf_blkLength gf) = (0, gf_chd gf) /\
    gf_blkLength gf = u64 (gcry_cipher_get_algo_blklen (ctx_algo ctx)).
Proof.
  unfold rsgcryInitCrypt. cbn [gcryfileConstruct ret].
  intros Hrun.
  destruct (gcry_cipher_open (ctx_algo ctx) (ctx_mode ctx) 0) as [e0 h0] eqn:Hopen.
  cbn [gf_chd gf_ctx gf_blkLength set_chd set_blkLength set_mode] in Hrun.
  case_bool_decide as He0;
    [apply rsgcryInitCrypt_finalize_Some in Hrun as [_ Hrun]; discriminate |].
  assert (e0 = 0) as -> by lia.
  destruct (gcry_cipher_setkey h0 (ctx_key ctx) (ctx_keyLen ctx)) as [e1 h1] eqn:Hkey.
  case_bool_decide as He1;
    [apply rsgcryInitCrypt_finalize_Some in Hrun as [_ Hrun]; discriminate |].
  assert (e1 = 0) as -> by lia.
  match type of Hrun with
  | context [readIV fuel None (?g, w)] => set (g1 := g) in *
  end.
  assert (Hiv : exists (riv : rsRetVal) (iv : option (list Z)) (g2 : gcryfile_s) (w2 : world),
             (if openMode =? 114 then readIV fuel None (g1, w)
              else let (iv, s) := seedIV (g1, w) in Some (RS_RET_OK, iv, s))
             = Some (riv, iv, (g2, w2)) /\ same_cipher g1 g2).
  { destruct (openMode =? 114).
    - destruct (readIV fuel None (g1, w)) as [[[riv iv] [g2 w2]] |] eqn:Hread;
        [| discriminate].
      exists riv, iv, g2, w2. split; [reflexivity |].
      apply readIV_keeps in Hread. exact Hread.
    - pose proof (keeps_seedIV (g1, w)) as Hseed.
      destruct (seedIV (g1, w)) as [iv [g2 w2]].
      exists RS_RET_OK, iv, g2, w2. split; [reflexivity | exact Hseed]. }
  destruct Hiv as (riv & iv & g2 & w2 & Hiv & Hsame).
  rewrite Hiv in Hrun.
  destruct Hsame as (Hchd & Hblk & _). subst g1. cbn [gf_chd gf_blkLength] in Hchd, Hblk.
  destruct (gcry_cipher_setiv (gf_chd g2) iv (gf_blkLength g2)) as [e2 h2] eqn:Hsetiv.
  rewrite Hchd, Hblk in Hsetiv.
  case_bool_decide as He2;
    [apply rsgcryInitCrypt_finalize_Some in Hrun as [_ Hrun]; discriminate |].
  assert (e2 = 0) as -> by lia.
  exists h0, h1, iv.
  assert (Hgf : gf_chd gf = h2 /\ gf_blkLength gf = gf_blkLength g2).
  { destruct (openMode =? 119).
    - match type of Hrun with
      | context [CHKiRet ?m ?k ?st] =>
          pose proof (keeps_CHKiRet m k keeps_eiOpenAppend (keeps_eiWriteIV _) st) as Hw;
          destruct (CHKiRet m k st) as [iRet s3]
      end.
      cbn [fst snd] in Hw. destruct Hw as (Hc & Hb & _).
      destruct iRet;
        apply rsgcryInitCrypt_finalize_Some in Hrun as [_ Hrun];
        try discriminate.
      injection Hrun as <-. split; [exact Hc | exact Hb].
    - apply rsgcryInitCrypt_finalize_Some in Hrun as [_ Hrun].
      injection Hrun as <-. split; reflexivity. }
  destruct Hgf as [-> ->]. rewrite Hblk. repeat split; assumption.
Qed.

(** C9: a context fresh from [gcryCtxNew] has no key, a key length of zero,
    the algorithm AES-128 and the mode CBC; and whenever [rsgcryInitCrypt]
    returns a session for a context that was made by [gcryCtxNew] and on
    which at most keys were set, the handle of the session was opened for
    AES-128 in CBC mode and then given the key and an IV, and the block
    length of the session is that of AES-128. *)
Theorem gcryCtxNew_AES128_CBC :
  gcryCtxNew = {| ctx_key := None; ctx_keyLen := 0;
                  ctx_algo := GCRY_CIPHER_AES128; ctx_mode := GCRY_CIPHER_MODE_CBC |} /\
  forall (ctx : gcryctx_s) (MAXFNAME fuel : nat) (fname : string) (openMode : Z)
         (w w' : world) (r : rsRetVal) (gf : gcryfile_s),
    keyed_from_new ctx ->
    rsgcryInitCrypt MAXFNAME fuel ctx fname openMode w = Some (r, Some gf, w') ->
    exists (h0 h1 : gcry_cipher_hd_t) (iv : option (list Z)),
      gcry_cipher_open GCRY_CIPHER_AES128 GCRY_CIPHER_MODE_CBC 0 = (0, h0) /\
      gcry_cipher_setkey h0 (ctx_key ctx) (ctx_keyLen ctx) = (0, h1) /\
      gcry_cipher_setiv h1 iv (gf_blkLength gf) = (0, gf_chd gf) /\
      gf_blkLength gf = u64 (gcry_cipher_get_algo_blklen GCRY_CIPHER_AES128).
Proof.
  split; [reflexivity |].
  intros ctx MAXFNAME fuel fname openMode w w' r gf Hctx Hrun.
  destruct (keyed_from_new_algo_mode ctx Hctx) as [Halgo Hmode].
  apply rsgcryInitCrypt_handle in Hrun. rewrite Halgo, Hmode in Hrun. exact Hrun.
Qed.

End Frame.

Lemma rsgcryInitCrypt_write_runs :
  exists (gf : gcryfile_s) (w' : world),
    rsgcryInitCrypt (G := xor_cipher) maxfname 1 keyed_ctx "log" 119 w_urandom
    = Some (RS_RET_OK, Some gf, w').
Proof.
  set (res := rsgcryInitCrypt (G := xor_cipher) maxfname 1 keyed_ctx "log" 119 w_urandom).
  assert (H : match res with Some (r, Some gf, _) => r = RS_RET_OK | _ => False end)
    by (vm_compute; reflexivity).
  destruct res as [[[r [gf |]] w'] |]; try contradiction.
  subst r. exists gf, w'. reflexivity.
Qed.

Lemma gcryCtxNew_AES128_CBC_witness :
  exists (gf : gcryfile_s) (w' : world),
    rsgcryInitCrypt (G := xor_cipher) maxfname 1 keyed_ctx "log" 119 w_urandom
    = Some (RS_RET_OK, Some gf, w') /\
    exists (h0 h1 : xor_hd) (iv : option (list Z)),
      gcry_cipher_open (Gcrypt := xor_cipher) GCRY_CIPHER_AES128 GCRY_CIPHER_MODE_CBC 0
      = (0, h0) /\
      gcry_cipher_setkey (Gcrypt := xor_cipher) h0 (ctx_key keyed_ctx) (ctx_keyLen keyed_ctx)
      = (0, h1) /\
      gcry_cipher_setiv (Gcrypt := xor_cipher) h1 iv (gf_blkLength gf) = (0, gf_chd gf) /\
      gf_blkLength gf = 16.
Proof.
  destruct rsgcryInitCrypt_write_runs as (gf & w' & Hrun).
  exists gf, w'. split; [exact Hrun |].
  apply (proj2 (gcryCtxNew_AES128_CBC (G := xor_cipher)) keyed_ctx maxfname 1%nat "log"%string
           119 w_urandom w' RS_RET_OK gf).
  - apply (kfn_key (G := xor_cipher)). apply kfn_new.
  - exact Hrun.
Defined.

(** ** Reading the side-file *)

Section Reader.

Context {G : Gcrypt}.

(** One byte from the buffer. *)
Lemma eiReadChar_buffered (s : sess) :
  reading s ->
  gf_readBufIdx (fst s) < gf_readBufMaxIdx (fst s) ->
  exists (c : Z) (s' : sess),
    eiReadChar s = (c, s') /\ reading s' /\
    pending s = c :: pending s' /\ same_cipher (fst s) (fst s').
Proof.
  destruct s as [g w]. intros (Hfd & Hidx & Hmax & Hbuf) Hlt. cbn [fst snd] in *.
  unfold READBUF_SIZE in *.
  destruct (gf_readBuf g) as [rb |] eqn:Hrb; [| lia].
  assert (Hsome : exists c, rb !! Z.to_nat (gf_readBufIdx g) = Some c)
    by (apply lookup_lt_is_Some_2; lia).
  destruct Hsome as [c Hc].
  exists c. eexists. split.
  - unfold eiReadChar, bind, getf, setf, ret. cbn [fst snd].
    destruct (Z.leb_spec (gf_readBufMaxIdx g) (gf_readBufIdx g)); [lia |].
    cbn [fst snd]. rewrite Hrb. cbn [default from_option id].
    unfold peek. destruct (Z.ltb_spec (gf_readBufIdx g) 0); [lia |].
    rewrite Hc. reflexivity.
  - rewrite i16_small by lia.
    split; [| split].
    + unfold reading. cbn [fst snd set_readBufIdx gf_fd gf_readBufIdx gf_readBufMaxIdx gf_readBuf].
      rewrite Hrb. repeat split; try assumption; lia.
    + unfold pending, buffered.
      cbn [fst snd set_readBufIdx gf_fd gf_readBufIdx gf_readBufMaxIdx gf_readBuf].
      rewrite Hrb. rewrite app_comm_cons. f_equal.
      replace (Z.to_nat (gf_readBufIdx g + 1)) with (S (Z.to_nat (gf_readBufIdx g))) by lia.
      apply drop_S. rewrite lookup_take_lt by lia. exact Hc.
    + repeat split.
Qed.

Lemma READBUF_SIZE_range : 0 < READBUF_SIZE < 2 ^ 15.
Proof. unfold READBUF_SIZE. lia. Qed.

#[local] Opaque READBUF_SIZE.

(** A [read] of [READBUF_SIZE] bytes when the side-file has bytes left. *)
Lemma sys_read_unread (fd : Z) (w : world) (o : ofile) (c : Z) (rest : list Z) :
  w_fds w !! fd = Some o ->
  o_access (of_flags o) = O_RDONLY ->
  is_Some (w_files w !! of_path o) ->
  unread fd w = c :: rest ->
  exists (data : list Z) (w' : world),
    sys_read fd READBUF_SIZE w = ((Z.of_nat (length (c :: data)), c :: data), w') /\
    Z.of_nat (length (c :: data)) <= READBUF_SIZE /\
    (exists o' : ofile,
        w_fds w' !! fd = Some o' /\ o_access (of_flags o') = O_RDONLY /\
        is_Some (w_files w' !! of_path o')) /\
    data ++ unread fd w' = rest.
Proof.
  intros Hfd Hacc [ino Hino] Hun. unfold unread in Hun. rewrite Hfd, Hino in Hun.
  pose proof READBUF_SIZE_range as Hsize.
  set (n := Z.to_nat (READBUF_SIZE - 1)).
  assert (Hn : Z.to_nat READBUF_SIZE = S n) by lia.
  exists (take n rest). eexists. split; [| split; [| split]].
  - unfold sys_read. rewrite Hfd, Hacc, Hino, Hun, Hn. cbn [take]. reflexivity.
  - cbn [length]. rewrite length_take. lia.
  - cbn [log with_fds w_fds w_files]. eexists. rewrite lookup_insert_eq.
    split; [reflexivity |]. cbn [of_flags of_path].
    split; [exact Hacc |]. rewrite Hino. eauto.
  - unfold unread. cbn [log with_fds w_fds w_files].
    rewrite lookup_insert_eq. cbn [of_flags of_path of_pos]. rewrite Hino.
    cbn [length].
    replace (of_pos o + S (length (take n rest)))%nat
      with (of_pos o + (1 + length (take n rest)))%nat by lia.
    rewrite <- drop_drop, Hun, <- drop_drop.
    change (drop 1 (c :: rest)) with rest.
    rewrite length_take. destruct (Nat.le_ge_cases n (length rest)) as [Hle | Hge].
    + rewrite Nat.min_l by exact Hle. apply take_drop.
    + rewrite Nat.min_r by exact Hge. rewrite take_ge by exact Hge.
      rewrite drop_all. apply app_nil_r.
Qed.

Lemma set_readBuf_same (g : gcryfile_s) (rb : list Z) :
  gf_readBuf g = Some rb -> set_readBuf (Some rb) g = g.
Proof. destruct g as [h b e f m x r i j]. cbn. intros ->. reflexivity. Qed.

(** One byte from the side-file, when the buffer is used up. *)
Lemma eiReadChar_refill (s : sess) (c : Z) (rest : list Z) :
  reading s ->
  gf_readBufIdx (fst s) = gf_readBufMaxIdx (fst s) ->
  unread (gf_fd (fst s)) (snd s) = c :: rest ->
  exists s' : sess,
    eiReadChar s = (c, s') /\ reading s' /\
    pending s' = rest /\ same_cipher (fst s) (fst s').
Proof.
  destruct s as [g w]. intros ((o & Hfd & Hacc & Hino) & Hidx & Hmax & Hbuf) Heq Hun.
  cbn [fst snd] in *.
  pose proof READBUF_SIZE_range as Hsize.
  destruct (sys_read_unread (gf_fd g) w o c rest Hfd Hacc Hino Hun)
    as (data & w' & Hread & Hlen & Hfd' & Hun').
  set (rb0 := default (w_junk w <$> seq 0 (Z.to_nat READBUF_SIZE)) (gf_readBuf g)).
  assert (Hrb0 : Z.of_nat (length rb0) = READBUF_SIZE).
  { subst rb0. destruct (gf_readBuf g); cbn [default from_option id].
    - exact Hbuf.
    - rewrite length_fmap, length_seq. lia. }
  assert (Hprep : (match gf_readBuf g with
                   | Some _ => ret tt
                   | None => bind (sys (malloc READBUF_SIZE))
                               (fun b => setf (set_readBuf (Some b)))
                   end) (g, w) = (tt, (set_readBuf (Some rb0) g, w))).
  { subst rb0. destruct (gf_readBuf g) eqn:Hrb; cbn [default from_option id].
    - unfold ret. now rewrite (set_readBuf_same g l Hrb).
    - reflexivity. }
  assert (Hblit : blit (c :: data) rb0 = (c :: data) ++ drop (length (c :: data)) rb0)
    by (apply blit_front; lia).
  exists (set_readBufIdx 1
            (set_readBufMaxIdx (Z.of_nat (length (c :: data)))
               (set_readBuf (Some (blit (c :: data) rb0)) g)), w').
  split; [| split; [| split]].
  - unfold eiReadChar, bind at 1 2 3, getf at 1 2. cbn [fst snd].
    destruct (Z.leb_spec (gf_readBufMaxIdx g) (gf_readBufIdx g)); [| lia].
    unfold eiRead, bind at 1 2, getf at 1. cbn [fst snd].
    rewrite Hprep.
    unfold bind, getf, setf, ret, sys. cbn [fst snd gf_fd set_readBuf]. rewrite Hread.
    cbn [fst snd set_readBuf gf_readBuf default from_option id].
    destruct (Z.leb_spec (Z.of_nat (length (c :: data))) 0); [cbn [length] in *; lia |].
    cbn [fst snd set_readBufMaxIdx set_readBufIdx gf_readBufIdx gf_readBuf
         default from_option id].
    rewrite (i16_small (Z.of_nat (length (c :: data)))) by (cbn [length] in *; lia).
    rewrite (i16_small (0 + 1)) by lia.
    rewrite Hblit. reflexivity.
  - unfold reading. cbn [fst snd set_readBufIdx set_readBufMaxIdx set_readBuf gf_fd
                         gf_readBufIdx gf_readBufMaxIdx gf_readBuf].
    split; [exact Hfd' |]. cbn [length] in *. split; [lia |]. split; [lia |].
    unfold blit. rewrite length_take, length_app, length_drop. cbn [length]. lia.
  - unfold pending, buffered.
    cbn [fst snd set_readBufIdx set_readBufMaxIdx set_readBuf gf_fd
         gf_readBufIdx gf_readBufMaxIdx gf_readBuf].
    rewrite Hblit, Nat2Z.id, take_app_length.
    change (Z.to_nat 1) with 1%nat. change (drop 1 (c :: data)) with data.
    exact Hun'.
  - repeat split.
Qed.

(** [eiReadChar] delivers the pending bytes one by one. *)
Lemma eiReadChar_next (s : sess) (c : Z) (rest : list Z) :
  reading s ->
  pending s = c :: rest ->
  exists s' : sess,
    eiReadChar s = (c, s') /\ reading s' /\
    pending s' = rest /\ same_cipher (fst s) (fst s').
Proof.
  intros Hs Hpend.
  destruct (Z.lt_ge_cases (gf_readBufIdx (fst s)) (gf_readBufMaxIdx (fst s))) as [Hlt | Hge].
  - destruct (eiReadChar_buffered s Hs Hlt) as (c' & s' & Hrun & Hs' & Hp & Hsame).
    rewrite Hpend in Hp. injection Hp as -> ->. exists s'. auto.
  - assert (Heq : gf_readBufIdx (fst s) = gf_readBufMaxIdx (fst s))
      by (destruct Hs as (_ & Hidx & _); lia).
    assert (Hempty : buffered (fst s) = []).
    { unfold buffered. destruct (gf_readBuf (fst s)); [| reflexivity].
      rewrite Heq. apply drop_ge. rewrite length_take. lia. }
    unfold pending in Hpend. rewrite Hempty in Hpend.
    exact (eiReadChar_refill s c rest Hs Heq Hpend).
Qed.

Lemma poke_list_step (arr t : list Z) (i : nat) (c : Z) :
  (i + S (length t) <= length arr)%nat ->
  take (S i) (<[i := c]> arr) ++ t ++ drop (S i + length t) (<[i := c]> arr)
  = take i arr ++ (c :: t) ++ drop (i + length (c :: t)) arr.
Proof.
  intros Hroom.
  rewrite (take_S_r _ _ c) by (apply list_lookup_insert_eq; lia).
  rewrite take_insert_ge by lia. rewrite drop_insert_lt by lia.
  rewrite <- app_assoc. cbn [app length].
  replace (i + S (length t))%nat with (S i + length t)%nat by lia. reflexivity.
Qed.

(** The first loop of [eiGetRecord] on a record type followed by a colon. *)
Lemma eiGetRecord_rectype_reads (t : list Z) :
  forall (fuel : nat) (i : nat) (c0 : Z) (rectype rest : list Z) (s : sess),
    reading s ->
    pending s = t ++ 58 :: rest ->
    Forall is_byte t -> 58 ∉ t ->
    Z.of_nat (i + length t) < EIF_MAX_RECTYPE_LEN ->
    (length t < fuel)%nat ->
    (i + length t <= length rectype)%nat ->
    exists s' : sess,
      eiGetRecord_rectype fuel (Z.of_nat i) c0 rectype s
      = ((Z.of_nat (i + length t), 58, take i rectype ++ t ++ drop (i + length t) rectype), s')
      /\ reading s' /\ pending s' = rest /\ same_cipher (fst s) (fst s').
Proof.
  induction t as [| c t IH]; intros fuel i c0 rectype rest s Hs Hpend Hbytes Hcolon Hmax Hfuel Hroom.
  - destruct fuel as [| fuel]; [cbn in Hfuel; lia |].
    destruct (eiReadChar_next s 58 rest Hs Hpend) as (s' & Hrun & Hs' & Hp & Hsame).
    exists s'. cbn [eiGetRecord_rectype length] in *.
    destruct (Z.ltb_spec (Z.of_nat i) EIF_MAX_RECTYPE_LEN); [| lia].
    unfold bind. rewrite Hrun. cbn [orb Z.eqb Pos.eqb ret].
    rewrite Nat.add_0_r. cbn [app]. rewrite take_drop. auto.
  - destruct fuel as [| fuel]; [cbn in Hfuel; lia |].
    cbn [app] in Hpend.
    destruct (eiReadChar_next s c (t ++ 58 :: rest) Hs Hpend) as (s1 & Hrun & Hs1 & Hp1 & Hsame1).
    apply Forall_cons in Hbytes as [Hc Hbytes].
    apply not_elem_of_cons in Hcolon as [Hc58 Hcolon].
    cbn [length] in Hmax, Hfuel, Hroom. unfold is_byte in Hc.
    destruct (IH fuel (S i) c (<[i := c]> rectype) rest s1 Hs1 Hp1 Hbytes Hcolon
                ltac:(lia) ltac:(lia) ltac:(rewrite length_insert; lia))
      as (s' & Hloop & Hs' & Hp' & Hsame').
    exists s'. cbn [eiGetRecord_rectype].
    destruct (Z.ltb_spec (Z.of_nat i) EIF_MAX_RECTYPE_LEN); [| lia].
    unfold bind at 1. rewrite Hrun.
    destruct (Z.eqb_spec c 58) as [-> | _]; [congruence |].
    destruct (Z.eqb_spec c EOF) as [-> | _]; [unfold EOF in Hc; lia |].
    cbn [orb]. rewrite u16_small by (unfold EIF_MAX_RECTYPE_LEN in *; lia).
    rewrite Z.mod_small by lia. rewrite poke_at.
    replace (Z.of_nat i + 1) with (Z.of_nat (S i)) by lia.
    rewrite Hloop. rewrite poke_list_step by lia.
    replace (S i + length t)%nat with (i + length (c :: t))%nat by (cbn [length]; lia).
    split; [reflexivity |]. split; [exact Hs' |]. split; [exact Hp' |].
    eapply same_cipher_trans; eassumption.
Qed.

(** The second loop of [eiGetRecord] on a value followed by a line feed. *)
Lemma eiGetRecord_value_reads (v : list Z) :
  forall (fuel : nat) (i j : nat) (c0 : Z) (value rest : list Z) (s : sess),
    reading s ->
    pending s = v ++ 10 :: rest ->
    Forall is_byte v -> 10 ∉ v ->
    (j <= i)%nat ->
    Z.of_nat (i + length v) < EIF_MAX_VALUE_LEN ->
    (length v < fuel)%nat ->
    (j + length v <= length value)%nat ->
    exists s' : sess,
      eiGetRecord_value fuel (Z.of_nat i) (Z.of_nat j) c0 value s
      = ((Z.of_nat (j + length v), 10, take j value ++ v ++ drop (j + length v) value), s')
      /\ reading s' /\ pending s' = rest /\ same_cipher (fst s) (fst s').
Proof.
  induction v as [| c v IH]; intros fuel i j c0 value rest s Hs Hpend Hbytes Hnl Hji Hmax Hfuel Hroom.
  - destruct fuel as [| fuel]; [cbn in Hfuel; lia |].
    destruct (eiReadChar_next s 10 rest Hs Hpend) as (s' & Hrun & Hs' & Hp & Hsame).
    exists s'. cbn [eiGetRecord_value length] in *.
    destruct (Z.ltb_spec (Z.of_nat i) EIF_MAX_VALUE_LEN); [| lia].
    unfold bind. rewrite Hrun. cbn [orb Z.eqb Pos.eqb ret].
    rewrite Nat.add_0_r. cbn [app]. rewrite take_drop. auto.
  - destruct fuel as [| fuel]; [cbn in Hfuel; lia |].
    cbn [app] in Hpend.
    destruct (eiReadChar_next s c (v ++ 10 :: rest) Hs Hpend) as (s1 & Hrun & Hs1 & Hp1 & Hsame1).
    apply Forall_cons in Hbytes as [Hc Hbytes].
    apply not_elem_of_cons in Hnl as [Hc10 Hnl].
    cbn [length] in Hmax, Hfuel, Hroom. unfold is_byte in Hc.
    destruct (IH fuel (S i) (S j) c (<[j := c]> value) rest s1 Hs1 Hp1 Hbytes Hnl
                ltac:(lia) ltac:(lia) ltac:(lia) ltac:(rewrite length_insert; lia))
      as (s' & Hloop & Hs' & Hp' & Hsame').
    exists s'. cbn [eiGetRecord_value].
    destruct (Z.ltb_spec (Z.of_nat i) EIF_MAX_VALUE_LEN); [| lia].
    unfold bind at 1. rewrite Hrun.
    destruct (Z.eqb_spec c 10) as [-> | _]; [congruence |].
    destruct (Z.eqb_spec c EOF) as [-> | _]; [unfold EOF in Hc; lia |].
    cbn [orb]. rewrite !u16_small by (unfold EIF_MAX_VALUE_LEN in *; lia).
    rewrite Z.mod_small by lia. rewrite poke_at.
    replace (Z.of_nat i + 1) with (Z.of_nat (S i)) by lia.
    replace (Z.of_nat j + 1) with (Z.of_nat (S j)) by lia.
    rewrite Hloop. rewrite poke_list_step by lia.
    replace (S j + length v)%nat with (j + length (c :: v))%nat by (cbn [length]; lia).
    split; [reflexivity |]. split; [exact Hs' |]. split; [exact Hp' |].
    eapply same_cipher_trans; eassumption.
Qed.

Lemma c_str_terminated (t rest : list Z) : 0 ∉ t -> c_str (t ++ 0 :: rest) = t.
Proof.
  induction t as [| c t IH]; intros Hnz; [reflexivity |].
  apply not_elem_of_cons in Hnz as [Hc Hnz]. cbn [app c_str].
  destruct (Z.eqb_spec c 0) as [-> | _]; [congruence |]. now rewrite IH.
Qed.

Lemma poke_terminator (t arr : list Z) :
  (length t < length arr)%nat ->
  poke (take 0 arr ++ t ++ drop (0 + length t) arr) (Z.of_nat (0 + length t)) 0
  = t ++ 0 :: drop (S (length t)) arr.
Proof.
  intros Hlen. rewrite poke_at, take_0. cbn [app Nat.add].
  rewrite insert_app_r_alt by lia. rewrite Nat.sub_diag. f_equal.
  destruct (drop (length t) arr) as [| x l] eqn:Hd.
  - apply (f_equal length) in Hd. rewrite length_drop in Hd. cbn in Hd. lia.
  - cbn. f_equal. replace (S (length t)) with (length t + 1)%nat by lia.
    rewrite <- drop_drop, Hd. reflexivity.
Qed.

(** [eiGetRecord] on a record as [eiWriteRec] writes it, within the limits
    that the loops really have: the type has at most 30 bytes, type and value
    together at most 1021. *)
Lemma eiGetRecord_reads (t v rest rectype value : list Z) (s : sess) :
  reading s ->
  pending s = t ++ 58 :: v ++ 10 :: rest ->
  Forall is_byte t -> Forall is_byte v ->
  58 ∉ t -> 10 ∉ v -> 0 ∉ t -> 0 ∉ v ->
  Z.of_nat (length t) < EIF_MAX_RECTYPE_LEN ->
  Z.of_nat (length t + 1 + length v) < EIF_MAX_VALUE_LEN ->
  (length t < length rectype)%nat ->
  (length v < length value)%nat ->
  exists (rectype' value' : list Z) (s' : sess),
    eiGetRecord rectype value s = ((RS_RET_OK, rectype', value'), s') /\
    c_str rectype' = t /\ c_str value' = v /\
    reading s' /\ pending s' = rest /\ same_cipher (fst s) (fst s').
Proof.
  intros Hs Hpend Hbt Hbv Hcolon Hnl Hzt Hzv Htmax Hvmax Htroom Hvroom.
  destruct (eiGetRecord_rectype_reads t (Z.to_nat EIF_MAX_RECTYPE_LEN) 0 0 rectype
              (v ++ 10 :: rest) s Hs Hpend Hbt Hcolon ltac:(lia) ltac:(lia) ltac:(lia))
    as (s1 & Hloop1 & Hs1 & Hp1 & Hsame1).
  destruct (eiGetRecord_value_reads v (Z.to_nat EIF_MAX_VALUE_LEN) (S (length t)) 0 58 value
              rest s1 Hs1 Hp1 Hbv Hnl ltac:(lia) ltac:(lia)
              ltac:(unfold EIF_MAX_VALUE_LEN in *; lia) ltac:(lia))
    as (s2 & Hloop2 & Hs2 & Hp2 & Hsame2).
  unfold eiGetRecord, bind. change (Z.of_nat 0) with 0 in Hloop1, Hloop2.
  rewrite Hloop1. rewrite bool_decide_eq_false_2 by tauto.
  rewrite u16_small by (unfold EIF_MAX_RECTYPE_LEN in *; lia).
  replace (Z.of_nat (0 + length t) + 1) with (Z.of_nat (S (length t))) by lia.
  rewrite Hloop2. rewrite bool_decide_eq_false_2 by tauto.
  rewrite !poke_terminator by assumption.
  eexists _, _, _. split; [reflexivity |].
  rewrite !c_str_terminated by assumption.
  split; [reflexivity |]. split; [reflexivity |].
  split; [exact Hs2 |]. split; [exact Hp2 |].
  eapply same_cipher_trans; eassumption.
Qed.

(** The first loop of [eiGetRecord] when no colon comes before its bound: it
    stops at the bound, and the last character read is not a colon. *)
Lemma eiGetRecord_rectype_overruns (t : list Z) :
  forall (fuel : nat) (i : nat) (c0 : Z) (rectype rest : list Z) (s : sess),
    reading s ->
    pending s = t ++ rest ->
    Forall is_byte t -> 58 ∉ t -> c0 ≠ 58 ->
    Z.of_nat (i + length t) = EIF_MAX_RECTYPE_LEN ->
    (length t <= fuel)%nat ->
    exists (c : Z) (rectype' : list Z) (s' : sess),
      eiGetRecord_rectype fuel (Z.of_nat i) c0 rectype s = ((EIF_MAX_RECTYPE_LEN, c, rectype'), s')
      /\ c ≠ 58.
Proof.
  induction t as [| c t IH]; intros fuel i c0 rectype rest s Hs Hpend Hbytes Hcolon Hc0 Hmax Hfuel.
  - exists c0, rectype, s. cbn [length] in Hmax. rewrite Nat.add_0_r in Hmax.
    split; [| exact Hc0]. rewrite Hmax.
    destruct fuel; cbn [eiGetRecord_rectype]; [reflexivity |].
    rewrite Z.ltb_irrefl. reflexivity.
  - destruct fuel as [| fuel]; [cbn in Hfuel; lia |].
    cbn [app] in Hpend.
    destruct (eiReadChar_next s c (t ++ rest) Hs Hpend) as (s1 & Hrun & Hs1 & Hp1 & _).
    apply Forall_cons in Hbytes as [Hc Hbytes].
    apply not_elem_of_cons in Hcolon as [Hc58 Hcolon].
    cbn [length] in Hmax, Hfuel. unfold is_byte in Hc.
    destruct (IH fuel (S i) c (<[i := c]> rectype) rest s1 Hs1 Hp1 Hbytes Hcolon
                ltac:(congruence) ltac:(lia) ltac:(lia))
      as (c' & rectype' & s' & Hloop & Hc').
    exists c', rectype', s'. split; [| exact Hc'].
    cbn [eiGetRecord_rectype].
    destruct (Z.ltb_spec (Z.of_nat i) EIF_MAX_RECTYPE_LEN); [| lia].
    unfold bind at 1. rewrite Hrun.
    destruct (Z.eqb_spec c 58) as [-> | _]; [congruence |].
    destruct (Z.eqb_spec c EOF) as [-> | _]; [unfold EOF in Hc; lia |].
    cbn [orb]. rewrite u16_small by (unfold EIF_MAX_RECTYPE_LEN in *; lia).
    rewrite Z.mod_small by lia. rewrite poke_at.
    replace (Z.of_nat i + 1) with (Z.of_nat (S i)) by lia.
    exact Hloop.
Qed.

(** A record type of [EIF_MAX_RECTYPE_LEN] bytes or more is not read. *)
Lemma eiGetRecord_rectype_limit (t rest rectype value : list Z) (s : sess) :
  reading s ->
  pending s = t ++ rest ->
  Forall is_byte t -> 58 ∉ t ->
  Z.of_nat (length t) = EIF_MAX_RECTYPE_LEN ->
  exists (rectype' value' : list Z) (s' : sess),
    eiGetRecord rectype value s = ((RS_RET_ERR, rectype', value'), s').
Proof.
  intros Hs Hpend Hbytes Hcolon Hlen.
  destruct (eiGetRecord_rectype_overruns t (Z.to_nat EIF_MAX_RECTYPE_LEN) 0 0 rectype rest s
              Hs Hpend Hbytes Hcolon ltac:(lia) ltac:(lia) ltac:(lia))
    as (c & rectype' & s' & Hloop & Hc).
  unfold eiGetRecord, bind. change (Z.of_nat 0) with 0 in Hloop. rewrite Hloop.
  rewrite bool_decide_eq_true_2 by exact Hc. eexists _, _, _. reflexivity.
Qed.

(** The second loop of [eiGetRecord] when no line feed comes before its
    bound. *)
Lemma eiGetRecord_value_overruns (v : list Z) :
  forall (fuel : nat) (i j : nat) (c0 : Z) (value rest : list Z) (s : sess),
    reading s ->
    pending s = v ++ rest ->
    Forall is_byte v -> 10 ∉ v -> c0 ≠ 10 ->
    (j <= i)%nat ->
    Z.of_nat (i + length v) = EIF_MAX_VALUE_LEN ->
    (length v <= fuel)%nat ->
    exists (j' c : Z) (value' : list Z) (s' : sess),
      eiGetRecord_value fuel (Z.of_nat i) (Z.of_nat j) c0 value s = ((j', c, value'), s')
      /\ c ≠ 10.
Proof.
  induction v as [| c v IH]; intros fuel i j c0 value rest s Hs Hpend Hbytes Hnl Hc0 Hji Hmax Hfuel.
  - exists (Z.of_nat j), c0, value, s. cbn [length] in Hmax. rewrite Nat.add_0_r in Hmax.
    split; [| exact Hc0]. rewrite Hmax.
    destruct fuel; cbn [eiGetRecord_value]; [reflexivity |].
    rewrite Z.ltb_irrefl. reflexivity.
  - destruct fuel as [| fuel]; [cbn in Hfuel; lia |].
    cbn [app] in Hpend.
    destruct (eiReadChar_next s c (v ++ rest) Hs Hpend) as (s1 & Hrun & Hs1 & Hp1 & _).
    apply Forall_cons in Hbytes as [Hc Hbytes].
    apply not_elem_of_cons in Hnl as [Hc10 Hnl].
    cbn [length] in Hmax, Hfuel. unfold is_byte in Hc.
    destruct (IH fuel (S i) (S j) c (<[j := c]> value) rest s1 Hs1 Hp1 Hbytes Hnl
                ltac:(congruence) ltac:(lia) ltac:(lia) ltac:(lia))
      as (j' & c' & value' & s' & Hloop & Hc').
    exists j', c', value', s'. split; [| exact Hc'].
    cbn [eiGetRecord_value].
    destruct (Z.ltb_spec (Z.of_nat i) EIF_MAX_VALUE_LEN); [| lia].
    unfold bind at 1. rewrite Hrun.
    destruct (Z.eqb_spec c 10) as [-> | _]; [congruence |].
    destruct (Z.eqb_spec c EOF) as [-> | _]; [unfold EOF in Hc; lia |].
    cbn [orb]. rewrite !u16_small by (unfold EIF_MAX_VALUE_LEN in *; lia).
    rewrite Z.mod_small by lia. rewrite poke_at.
    replace (Z.of_nat i + 1) with (Z.of_nat (S i)) by lia.
    replace (Z.of_nat j + 1) with (Z.of_nat (S j)) by lia.
    exact Hloop.
Qed.

(** A record whose type and value together have 1022 bytes or more is not
    read. *)
Lemma eiGetRecord_value_limit (t v rest rectype value : list Z) (s : sess) :
  reading s ->
  pending s = t ++ 58 :: v ++ rest ->
  Forall is_byte t -> Forall is_byte v ->
  58 ∉ t -> 10 ∉ v ->
  Z.of_nat (length t) < EIF_MAX_RECTYPE_LEN ->
  Z.of_nat (length t + 1 + length v) = EIF_MAX_VALUE_LEN ->
  (length t < length rectype)%nat ->
  exists (rectype' value' : list Z) (s' : sess),
    eiGetRecord rectype value s = ((RS_RET_ERR, rectype', value'), s').
Proof.
  intros Hs Hpend Hbt Hbv Hcolon Hnl Htmax Hvmax Htroom.
  destruct (eiGetRecord_rectype_reads t (Z.to_nat EIF_MAX_RECTYPE_LEN) 0 0 rectype
              (v ++ rest) s Hs Hpend Hbt Hcolon ltac:(lia) ltac:(lia) ltac:(lia))
    as (s1 & Hloop1 & Hs1 & Hp1 & _).
  destruct (eiGetRecord_value_overruns v (Z.to_nat EIF_MAX_VALUE_LEN) (S (length t)) 0 58 value
              rest s1 Hs1 Hp1 Hbv Hnl ltac:(lia) ltac:(lia) ltac:(lia)
              ltac:(unfold EIF_MAX_VALUE_LEN in *; lia))
    as (j' & c & value' & s2 & Hloop2 & Hc).
  unfold eiGetRecord, bind. change (Z.of_nat 0) with 0 in Hloop1, Hloop2.
  rewrite Hloop1. rewrite bool_decide_eq_false_2 by tauto.
  rewrite u16_small by (unfold EIF_MAX_RECTYPE_LEN in *; lia).
  replace (Z.of_nat (0 + length t) + 1) with (Z.of_nat (S (length t))) by lia.
  rewrite Hloop2. rewrite bool_decide_eq_true_2 by exact Hc.
  eexists _, _, _. reflexivity.
Qed.

Lemma lowest_fd_nonneg (t : gmap Z ofile) : 0 <= lowest_fd t.
Proof.
  unfold lowest_fd.
  destruct (find _ (Z.of_nat <$> seq 0 (S (size t)))) as [fd |] eqn:Hfind; [| cbn; lia].
  apply find_some in Hfind as [Hin _]. cbn [default from_option id].
  apply list_elem_of_In, list_elem_of_fmap in Hin as (n & -> & _). lia.
Qed.

(** Opening an existing, readable side-file with a session that has not
    read yet: every byte of the file is pending. *)
Lemma eiOpenRead_reading (g : gcryfile_s) (w : world) (ino : inode) :
  w_files w !! gf_eiName g = Some ino ->
  i_rd ino = true ->
  gf_readBuf g = None -> gf_readBufIdx g = 0 -> gf_readBufMaxIdx g = 0 ->
  exists s' : sess,
    eiOpenRead (g, w) = (RS_RET_OK, s') /\ reading s' /\
    pending s' = i_data ino /\ same_cipher g (fst s').
Proof.
  intros Hino Hrd Hbuf Hidx Hmax.
  pose proof (lowest_fd_nonneg (w_fds w)) as Hfd.
  unfold eiOpenRead, bind, getf, setf, sys, sys_open. cbn [fst snd].
  rewrite Hino. cbn [may o_access]. rewrite Hrd. cbn [fst snd].
  destruct (Z.eqb_spec (lowest_fd (w_fds w)) (-1)) as [Heq | _]; [lia |].
  eexists. split; [reflexivity |].
  pose proof READBUF_SIZE_range as Hsize.
  split; [| split].
  - unfold reading. cbn [fst snd set_fd gf_fd gf_readBufIdx gf_readBufMaxIdx gf_readBuf
                         log with_fds w_fds w_files].
    rewrite Hbuf, Hidx, Hmax. split; [| lia].
    eexists. rewrite lookup_insert_eq. split; [reflexivity |].
    cbn [of_flags of_path o_access]. split; [reflexivity |]. rewrite Hino. eauto.
  - unfold pending, buffered, unread.
    cbn [fst snd set_fd gf_fd gf_readBufIdx gf_readBufMaxIdx gf_readBuf
         log with_fds w_fds w_files].
    rewrite Hbuf, lookup_insert_eq. cbn [of_path of_pos]. rewrite Hino. reflexivity.
  - repeat split.
Qed.

(** [eiWriteRec] on a descriptor that is open for appending, on a device
    with room: the record is added to the end of the side-file. *)
Lemma eiWriteRec_appends (g : gcryfile_s) (w : world) (o : ofile) (ino : inode)
    (recHdr buf : list Z) :
  w_fds w !! gf_fd g = Some o ->
  o_access (of_flags o) = O_WRONLY ->
  o_append (of_flags o) = true ->
  w_files w !! of_path o = Some ino ->
  Z.of_nat (length (recHdr ++ buf ++ [10])) <= w_space w ->
  exists w' : world,
    eiWriteRec recHdr (Z.of_nat (length recHdr)) buf (Z.of_nat (length buf)) (g, w)
    = (RS_RET_OK, (g, w')) /\
    i_data <$> w_files w' !! of_path o = Some (i_data ino ++ recHdr ++ buf ++ [10]).
Proof.
  intros Hfd Hacc Happ Hino Hroom.
  unfold eiWriteRec, bind, getf, sys. cbn [fst snd concat].
  rewrite !Nat2Z.id, !firstn_all, app_nil_r.
  destruct (sys_writev_append (gf_fd g) (recHdr ++ buf ++ [10]) w o ino Hfd Hacc Happ Hino Hroom)
    as [Hn Hfile].
  destruct (sys_writev (gf_fd g) (recHdr ++ buf ++ [10]) w) as [n w'].
  cbn [fst snd] in Hn, Hfile. subst n.
  rewrite bool_decide_eq_false_2.
  - exists w'. split; [reflexivity | exact Hfile].
  - rewrite !length_app. cbn [length]. lia.
Qed.

Lemma nibble_of_hex (c : Z) : is_lower_hex c -> is_Some (nibble_of c).
Proof.
  intros Hc. unfold nibble_of, schar. unfold is_lower_hex in Hc.
  rewrite (Z.mod_small c) by lia.
  destruct (Z.ltb_spec c (2 ^ 7)); [| lia].
  destruct (Z.leb_spec 48 c), (Z.leb_spec c 57), (Z.leb_spec 97 c), (Z.leb_spec c 102);
    cbn [andb]; eauto; lia.
Qed.

Lemma nibble_of_not_hex (c : Z) : is_byte c -> ¬ is_lower_hex c -> nibble_of c = None.
Proof.
  intros Hb Hc. unfold nibble_of, schar. unfold is_lower_hex in Hc. unfold is_byte in Hb.
  rewrite (Z.mod_small c) by lia.
  destruct (Z.ltb_spec c (2 ^ 7)).
  - destruct (Z.leb_spec 48 c), (Z.leb_spec c 57), (Z.leb_spec 97 c), (Z.leb_spec c 102);
      cbn [andb]; try reflexivity; lia.
  - destruct (Z.leb_spec 48 (c - 2 ^ 8)); [lia |].
    destruct (Z.leb_spec 97 (c - 2 ^ 8)); [lia |]. reflexivity.
Qed.

(** The decoding loop succeeds when every character from [i] on is a digit. *)
Lemma eiGetIV_loop_digits (value : list Z) (valueLen : nat) (fuel : nat) :
  forall (i : nat) (j : Z) (iv : list Z),
    Z.of_nat valueLen < 2 ^ 16 ->
    (forall k : nat, (i <= k < valueLen)%nat -> is_Some (nibble_of (peek value (Z.of_nat k)))) ->
    fst (eiGetIV_loop fuel value (Z.of_nat valueLen) (Z.of_nat i) j iv) = RS_RET_OK.
Proof.
  induction fuel as [| fuel IH]; intros i j iv Hfit Hhex; [reflexivity |].
  cbn [eiGetIV_loop].
  destruct (Z.ltb_spec (Z.of_nat i) (Z.of_nat valueLen)) as [Hlt | _]; [| reflexivity].
  destruct (Hhex i ltac:(lia)) as [nibble ->].
  rewrite u16_small by lia.
  replace (Z.of_nat i + 1) with (Z.of_nat (S i)) by lia.
  destruct (Z.of_nat i mod 2 =? 0); apply IH; try assumption; intros k Hk; apply Hhex; lia.
Qed.

(** The decoding loop fails when it meets a character that is no digit. *)
Lemma eiGetIV_loop_other (value : list Z) (valueLen : nat) (fuel : nat) :
  forall (i : nat) (j : Z) (iv : list Z) (k : nat),
    Z.of_nat valueLen < 2 ^ 16 ->
    (i <= k < valueLen)%nat -> (valueLen <= i + fuel)%nat ->
    nibble_of (peek value (Z.of_nat k)) = None ->
    fst (eiGetIV_loop fuel value (Z.of_nat valueLen) (Z.of_nat i) j iv) = RS_RET_ERR.
Proof.
  induction fuel as [| fuel IH]; intros i j iv k Hfit Hk Hfuel Hbad; [lia |].
  cbn [eiGetIV_loop].
  destruct (Z.ltb_spec (Z.of_nat i) (Z.of_nat valueLen)) as [Hlt | Hge]; [| lia].
  destruct (nibble_of (peek value (Z.of_nat i))) as [nibble |] eqn:Hi; [| reflexivity].
  assert (i ≠ k) by congruence.
  rewrite u16_small by lia.
  replace (Z.of_nat i + 1) with (Z.of_nat (S i)) by lia.
  destruct (Z.of_nat i mod 2 =? 0); apply (IH _ _ _ k); try assumption; lia.
Qed.

Lemma c_str_prefix (l : list Z) : exists rest : list Z, l = c_str l ++ rest.
Proof.
  induction l as [| c l [rest IH]]; [exists []; reflexivity |].
  cbn [c_str]. destruct (c =? 0); [exists (c :: l); reflexivity |].
  exists rest. cbn [app]. now rewrite <- IH.
Qed.

Lemma peek_c_str (l : list Z) (k : nat) :
  (k < length (c_str l))%nat -> peek l (Z.of_nat k) = peek (c_str l) (Z.of_nat k).
Proof.
  intros Hk. destruct (c_str_prefix l) as [rest Hl].
  rewrite Hl at 1. rewrite !peek_at. now rewrite lookup_app_l.
Qed.

(** [eiGetIV] on a record [IV:<value>]: it succeeds exactly when half the
    length of the value, rounded down, is the expected length and every
    character of the value is a lowercase hexadecimal digit. *)
Lemma eiGetIV_code (v rest iv : list Z) (leniv : Z) (s : sess) :
  reading s ->
  pending s = bytes "IV" ++ 58 :: v ++ 10 :: rest ->
  Forall is_byte v -> 10 ∉ v -> 0 ∉ v ->
  Z.of_nat (length v) < 1020 ->
  (Z.of_nat (length v) / 2 = leniv /\ Forall is_lower_hex v ->
   fst (fst (eiGetIV iv leniv s)) = RS_RET_OK) /\
  (Z.of_nat (length v) / 2 ≠ leniv \/ ¬ Forall is_lower_hex v ->
   fst (fst (eiGetIV iv leniv s)) = RS_RET_ERR).
Proof.
  intros Hs Hpend Hbv Hnl Hzv Hlen.
  assert (Hb_iv : Forall is_byte (bytes "IV"))
    by (repeat constructor; unfold is_byte; cbn; lia).
  assert (Hno : forall x : Z, x ≠ 73 -> x ≠ 86 -> x ∉ bytes "IV").
  { intros x H1 H2 H. change (bytes "IV") with [73; 86] in H.
    repeat (apply elem_of_cons in H as [H | H]; [congruence |]).
    now apply elem_of_nil in H. }
  destruct s as [g w].
  destruct (eiGetRecord_reads (bytes "IV") v rest
              (w_junk w <$> seq 0 (Z.to_nat (EIF_MAX_RECTYPE_LEN + 1)))
              (w_junk w <$> seq 0 (Z.to_nat (EIF_MAX_VALUE_LEN + 1)))
              (g, w) Hs Hpend Hb_iv Hbv (Hno 58 ltac:(lia) ltac:(lia)) Hnl
              (Hno 0 ltac:(lia) ltac:(lia)) Hzv
              ltac:(cbn; unfold EIF_MAX_RECTYPE_LEN; lia)
              ltac:(cbn [bytes length]; unfold EIF_MAX_VALUE_LEN; lia)
              ltac:(rewrite length_fmap, length_seq; cbn; unfold EIF_MAX_RECTYPE_LEN; lia)
              ltac:(rewrite length_fmap, length_seq; unfold EIF_MAX_VALUE_LEN; lia))
    as (rectype' & value' & s' & Hrun & Hrt & Hvl & _).
  unfold eiGetIV, bind, sys, uninit, malloc. cbn [fst snd].
  rewrite Hrun.
  assert (Hiv : streq rectype' (bytes "IV") = true).
  { unfold streq. apply bool_decide_eq_true_2. rewrite Hrt. reflexivity. }
  rewrite Hiv. cbn [negb]. unfold strlen. rewrite Hvl.
  assert (Hpeek : forall k : nat, (k < length v)%nat ->
                    peek value' (Z.of_nat k) = default 0 (v !! k)).
  { intros k Hk. rewrite peek_c_str by (rewrite Hvl; exact Hk).
    rewrite Hvl. apply peek_at. }
  split.
  - intros [Hhalf Hhex]. rewrite bool_decide_eq_false_2 by tauto. unfold ret. cbn [fst].
    apply (eiGetIV_loop_digits value' (length v) _ 0 0 iv); [lia |].
    intros k Hk. rewrite Hpeek by lia.
    destruct (lookup_lt_is_Some_2 v k ltac:(lia)) as [c Hc]. rewrite Hc.
    apply nibble_of_hex. eapply Forall_lookup_1; eassumption.
  - intros Hwrong. case_bool_decide as Hhalf; [reflexivity |].
    destruct Hwrong as [Hne | Hnot]; [tauto |].
    assert (Hdec : forall c : Z, Decision (is_lower_hex c))
      by (intros c; unfold is_lower_hex; apply _).
    apply (not_Forall_Exists _) in Hnot.
    apply Exists_exists in Hnot as (c & Hin & Hc).
    apply list_elem_of_lookup in Hin as [k Hk].
    pose proof (lookup_lt_Some _ _ _ Hk) as Hklt.
    unfold ret. cbn [fst].
    apply (eiGetIV_loop_other value' (length v) _ 0 0 iv k); [lia | lia | lia |].
    rewrite Hpeek by lia. rewrite Hk. cbn [default from_option id].
    apply nibble_of_not_hex; [| exact Hc].
    exact (Forall_lookup_1 _ _ _ _ Hbv Hk).
Qed.

End Reader.

(** C3 (the code departs from it): a record whose type has 31 bytes, and a
    record of type [IV] whose value has 1020 bytes, are written without
    error and are within the limits of 31 and 1023 bytes, but [eiGetRecord]
    fails on them.  A type of 30 bytes with a value of 991 bytes is read
    back as written. *)
Theorem eiGetRecord_fails_within_limits :
  fst (write_then_read (replicate 31 65) (bytes "x") (xor_session 16, boot []))
  = (RS_RET_OK, (RS_RET_ERR, [], [])) /\
  fst (write_then_read (bytes "IV") (replicate 1020 97) (xor_session 16, boot []))
  = (RS_RET_OK, (RS_RET_ERR, [], [])) /\
  fst (write_then_read (replicate 30 65) (replicate 991 97) (xor_session 16, boot []))
  = (RS_RET_OK, (RS_RET_OK, replicate 30 65, replicate 991 97)).
Proof. repeat split; eval_lhs; reflexivity. Qed.

(** ** Decoding the IV *)

Section ReadIV.

Context {G : Gcrypt}.

(** [read_iv_record] on a side-file that holds one [IV] record. *)
Lemma read_iv_record_code (g : gcryfile_s) (w : world) (ino : inode)
    (v rest iv : list Z) (leniv : Z) :
  w_files w !! gf_eiName g = Some ino ->
  i_rd ino = true ->
  i_data ino = bytes "IV" ++ 58 :: v ++ 10 :: rest ->
  gf_readBuf g = None -> gf_readBufIdx g = 0 -> gf_readBufMaxIdx g = 0 ->
  Forall is_byte v -> 10 ∉ v -> 0 ∉ v ->
  Z.of_nat (length v) < 1020 ->
  (Z.of_nat (length v) / 2 = leniv /\ Forall is_lower_hex v ->
   fst (fst (read_iv_record iv leniv (g, w))) = RS_RET_OK) /\
  (Z.of_nat (length v) / 2 ≠ leniv \/ ¬ Forall is_lower_hex v ->
   fst (fst (read_iv_record iv leniv (g, w))) = RS_RET_ERR).
Proof.
  intros Hino Hrd Hdata Hbuf Hidx Hmax Hbv Hnl Hzv Hlen.
  destruct (eiOpenRead_reading g w ino Hino Hrd Hbuf Hidx Hmax)
    as (s' & Hopen & Hs' & Hp' & _).
  rewrite Hdata in Hp'.
  unfold read_iv_record, bind. rewrite Hopen.
  exact (eiGetIV_code v rest iv leniv s' Hs' Hp' Hbv Hnl Hzv Hlen).
Qed.

End ReadIV.

(** An odd number of digits: three digits are taken for one byte. *)
Lemma read_iv_record_three_digits :
  fst (fst (read_iv_record [170] 1 (xor_session 16, w_iv (bytes "abc")))) = RS_RET_OK.
Proof.
  apply (read_iv_record_code (xor_session 16) (w_iv (bytes "abc"))
           (new_file (bytes "IV:abc" ++ [10])) (bytes "abc") [] [170] 1);
    try reflexivity.
  - repeat constructor; unfold is_byte; cbn; lia.
  - intros H. change (bytes "abc") with [97; 98; 99] in H.
    repeat (apply elem_of_cons in H as [H | H]; [discriminate |]).
    now apply elem_of_nil in H.
  - intros H. change (bytes "abc") with [97; 98; 99] in H.
    repeat (apply elem_of_cons in H as [H | H]; [discriminate |]).
    now apply elem_of_nil in H.
  - split; [reflexivity |].
    repeat constructor; unfold is_lower_hex; cbn; lia.
Defined.

(** C5 (the code departs from it): an [IV] record with 33 hexadecimal
    digits, an odd number, is decoded without error when 16 bytes are
    expected; the last digit is stored into the byte behind the 16 bytes
    of the IV. *)
Theorem eiGetIV_accepts_odd_length :
  fst (read_iv_record (replicate 16 170 ++ [238]) 16
         (xor_session 16, w_iv (bytes "000102030405060708090a0b0c0d0e0f1")))
  = (RS_RET_OK, [0; 1; 2; 3; 4; 5; 6; 7; 8; 9; 10; 11; 12; 13; 14; 15; 16]).
Proof. eval_lhs. reflexivity. Qed.

(** ** Opening for reading *)

Section OpenForReading.

Context {G : Gcrypt}.

(** Opening for reading: whatever code [readIV] returns, [rsgcryInitCrypt]
    goes on to set the IV, and returns [RS_RET_OK] and the session when that
    call succeeds. *)
Lemma rsgcryInitCrypt_read_ignores_readIV (MAXFNAME fuel : nat) (ctx : gcryctx_s)
    (fname : string) (w w2 : world) (h0 h1 h2 : gcry_cipher_hd_t) (r : rsRetVal)
    (iv : option (list Z)) (g2 : gcryfile_s) :
  gcry_cipher_open (ctx_algo ctx) (ctx_mode ctx) 0 = (0, h0) ->
  gcry_cipher_setkey h0 (ctx_key ctx) (ctx_keyLen ctx) = (0, h1) ->
  readIV fuel None
    (set_chd h1
       (set_chd h0
          (set_blkLength (u64 (gcry_cipher_get_algo_blklen (ctx_algo ctx)))
             (set_mode 114 (snd (fst (gcryfileConstruct MAXFNAME ctx fname w)))))), w)
  = Some (r, iv, (g2, w2)) ->
  gcry_cipher_setiv (gf_chd g2) iv (gf_blkLength g2) = (0, h2) ->
  rsgcryInitCrypt MAXFNAME fuel ctx fname 114 w
  = Some (RS_RET_OK, Some (set_chd h2 g2), snd (free iv ObjIV w2)).
Proof.
  intros Hopen Hkey Hread Hiv.
  unfold rsgcryInitCrypt. cbn [gcryfileConstruct ret fst snd] in *.
  rewrite Hopen. cbn [gf_chd gf_ctx set_chd set_blkLength set_mode].
  rewrite bool_decide_eq_false_2 by tauto. rewrite Hkey.
  rewrite bool_decide_eq_false_2 by tauto.
  cbn [Z.eqb Pos.eqb]. rewrite Hread, Hiv.
  rewrite bool_decide_eq_false_2 by tauto.
  cbn [gf_chd gf_blkLength]. 
  unfold rsgcryInitCrypt_finalize. destruct (free iv ObjIV w2). reflexivity.
Qed.

End OpenForReading.

(** C4 (the code departs from it): opening for reading, [readIV] reports a
    side-file without the [FILETYPE] line, and one without an [IV] record,
    as failures; [rsgcryInitCrypt] returns [RS_RET_OK] and a session for
    both. *)
Theorem rsgcryInitCrypt_read_drops_readIV_failure :
  (fst <$> (readIV 1 None (xor_session 16, w_bad_filetype))
   = Some (RS_RET_EI_INVLD_FILE, None) /\
   exists (gf : gcryfile_s) (w' : world),
     rsgcryInitCrypt (G := xor_cipher) maxfname 1 keyed_ctx "log" 114 w_bad_filetype
     = Some (RS_RET_OK, Some gf, w')) /\
  (fst <$> (fst <$> (readIV 1 None (xor_session 16, w_no_iv))) = Some RS_RET_ERR /\
   exists (gf : gcryfile_s) (w' : world),
     rsgcryInitCrypt (G := xor_cipher) maxfname 1 keyed_ctx "log" 114 w_no_iv
     = Some (RS_RET_OK, Some gf, w')).
Proof.
  split; split; try (eval_lhs; reflexivity).
  - set (res := rsgcryInitCrypt (G := xor_cipher) maxfname 1 keyed_ctx "log" 114 w_bad_filetype).
    assert (H : match res with Some (r, Some gf, _) => r = RS_RET_OK | _ => False end)
      by (vm_compute; reflexivity).
    destruct res as [[[r [gf |]] w'] |]; try contradiction.
    subst r. exists gf, w'. reflexivity.
  - set (res := rsgcryInitCrypt (G := xor_cipher) maxfname 1 keyed_ctx "log" 114 w_no_iv).
    assert (H : match res with Some (r, Some gf, _) => r = RS_RET_OK | _ => False end)
      by (vm_compute; reflexivity).
    destruct res as [[[r [gf |]] w'] |]; try contradiction.
    subst r. exists gf, w'. reflexivity.
Qed.

(** ** Descriptors and strings *)

Lemma lowest_fd_fresh (t : gmap Z ofile) : t !! lowest_fd t = None.
Proof.
  unfold lowest_fd.
  destruct (find _ (Z.of_nat <$> seq 0 (S (size t)))) as [fd |] eqn:Hfind.
  - apply find_some in Hfind as [_ Hp]. cbn [default from_option id].
    apply negb_true_iff, bool_decide_eq_false in Hp.
    now apply eq_None_not_Some.
  - exfalso.
    assert (Hall : forall n : nat, (n < S (size t))%nat -> Z.of_nat n ∈ dom t).
    { intros n Hn. apply elem_of_dom.
      pose proof (find_none _ _ Hfind (Z.of_nat n)) as Hp. cbn beta in Hp.
      apply negb_false_iff, bool_decide_eq_true in Hp; [exact Hp |].
      apply list_elem_of_In, list_elem_of_fmap. exists n. split; [reflexivity |].
      apply elem_of_seq. lia. }
    assert (Hsub : list_to_set (C := gset Z) (Z.of_nat <$> seq 0 (S (size t))) ⊆ dom t).
    { intros x Hx. apply elem_of_list_to_set, list_elem_of_fmap in Hx as (n & -> & Hn).
      apply Hall. apply elem_of_seq in Hn. lia. }
    apply subseteq_size in Hsub.
    rewrite size_list_to_set, length_fmap, length_seq, size_dom in Hsub; [lia |].
    apply NoDup_fmap; [intros a b; lia | apply NoDup_seq].
Qed.

Lemma lowest_fd_zero (t : gmap Z ofile) : t !! 0 = None -> lowest_fd t = 0.
Proof.
  intros Hfree. unfold lowest_fd.
  change (seq 0 (S (size t))) with (0%nat :: seq 1 (size t)).
  rewrite fmap_cons. cbn [find]. change (Z.of_nat 0) with 0.
  rewrite bool_decide_eq_false_2 by (rewrite Hfree; apply is_Some_None). reflexivity.
Qed.

Lemma c_str_id (l : list Z) : 0 ∉ l -> c_str l = l.
Proof.
  intros Hnz. rewrite <- (app_nil_r l) at 1.
  induction l as [| c l IH]; [reflexivity |].
  apply not_elem_of_cons in Hnz as [Hc Hnz]. cbn [app c_str].
  destruct (Z.eqb_spec c 0) as [-> | _]; [congruence |]. now rewrite IH.
Qed.

(** [strcmp] of an array that is full with a string of the same length. *)
Lemma streq_full (a b : list Z) :
  length a = length b -> 0 ∉ b -> streq a b = bool_decide (a = b).
Proof.
  intros Hlen Hnz. unfold streq. rewrite (c_str_id b Hnz).
  apply bool_decide_ext. split.
  - intros Hc. destruct (c_str_prefix a) as [rest Ha]. rewrite Hc in Ha.
    assert (rest = []) as ->.
    { apply nil_length_inv. apply (f_equal length) in Ha. rewrite length_app in Ha. lia. }
    now rewrite app_nil_r in Ha.
  - intros ->. now apply c_str_id.
Qed.

Lemma filetype_line_no_NUL : 0 ∉ filetype_line.
Proof.
  intros H. apply list_elem_of_In in H. vm_compute in H.
  repeat (destruct H as [H | H]; [discriminate |]). exact H.
Qed.

Lemma set_fd_same {G : Gcrypt} (g : gcryfile_s) : set_fd (gf_fd g) g = g.
Proof. destruct g as [h b e f m x r i j]. reflexivity. Qed.

Lemma set_fd_back {G : Gcrypt} (g : gcryfile_s) (x : Z) : set_fd (gf_fd g) (set_fd x g) = g.
Proof. destruct g as [h b e f m c r i j]. reflexivity. Qed.

Section SideFile.
Context {G : Gcrypt}.

(** [eiOpenRead] on a side-file that exists and may be read. *)
Lemma eiOpenRead_ok (g : gcryfile_s) (w : world) (ino : inode) :
  w_files w !! gf_eiName g = Some ino ->
  i_rd ino = true ->
  eiOpenRead (g, w)
  = (RS_RET_OK,
     (set_fd (lowest_fd (w_fds w)) g,
      log (EvOpen (gf_eiName g) {| o_access := O_RDONLY; o_append := false; o_creat := false |}
             (lowest_fd (w_fds w)))
        (with_fds
           (<[lowest_fd (w_fds w) :=
                {| of_path := gf_eiName g;
                   of_flags := {| o_access := O_RDONLY; o_append := false; o_creat := false |};
                   of_pos := 0 |}]> (w_fds w)) w))).
Proof.
  intros Hino Hrd. pose proof (lowest_fd_nonneg (w_fds w)) as Hfd.
  unfold eiOpenRead, bind, getf, setf, sys, sys_open, ret. cbn [fst snd].
  rewrite Hino. cbn [may o_access]. rewrite Hrd. cbn [fst snd].
  destruct (Z.eqb_spec (lowest_fd (w_fds w)) (-1)) as [Heq | _]; [lia | reflexivity].
Qed.

(** [eiOpenRead] when there is no side-file. *)
Lemma eiOpenRead_missing (g : gcryfile_s) (w : world) :
  w_files w !! gf_eiName g = None ->
  eiOpenRead (g, w)
  = (RS_RET_EI_NO_EXISTS,
     (set_fd (-1) g,
      log (EvOpen (gf_eiName g) {| o_access := O_RDONLY; o_append := false; o_creat := false |}
             (-1))
        (with_errno ENOENT w))).
Proof.
  intros Hino.
  unfold eiOpenRead, bind, getf, setf, sys, sys_open, ret. cbn [fst snd].
  rewrite Hino. reflexivity.
Qed.

(** [eiOpenRead] on a side-file that may not be read. *)
Lemma eiOpenRead_denied (g : gcryfile_s) (w : world) (ino : inode) :
  w_files w !! gf_eiName g = Some ino ->
  i_rd ino = false ->
  eiOpenRead (g, w)
  = (RS_RET_EI_OPN_ERR,
     (set_fd (-1) g,
      log (EvOpen (gf_eiName g) {| o_access := O_RDONLY; o_append := false; o_creat := false |}
             (-1))
        (with_errno EACCES w))).
Proof.
  intros Hino Hrd.
  unfold eiOpenRead, bind, getf, setf, sys, sys_open, ret. cbn [fst snd].
  rewrite Hino. cbn [may o_access]. rewrite Hrd. reflexivity.
Qed.

(** [eiCheckFiletype] with a session that has no descriptor, on a side-file
    that exists and may be read. *)
Lemma eiCheckFiletype_closed (g : gcryfile_s) (w : world) (ino : inode) :
  gf_fd g = -1 ->
  w_files w !! gf_eiName g = Some ino ->
  i_rd ino = true ->
  exists w' : world,
    eiCheckFiletype (g, w)
    = (if bool_decide (take 33 (i_data ino) = filetype_line)
       then RS_RET_OK else RS_RET_EI_INVLD_FILE, (g, w')) /\
    w_files w' = w_files w /\ w_fds w' = w_fds w /\ w_space w' = w_space w.
Proof.
  intros Hclosed Hino Hrd.
  pose proof (lowest_fd_fresh (w_fds w)) as Hfresh.
  unfold eiCheckFiletype, CHKiRet, bind at 1 2, getf at 1. cbn [fst snd].
  rewrite Hclosed. change (-1 =? -1) with true. cbn iota.
  rewrite (eiOpenRead_ok g w ino Hino Hrd).
  unfold bind, getf, setf, sys, ret, uninit, malloc, sys_read, sys_close.
  cbn [fst snd set_fd gf_fd log with_fds w_fds w_files w_junk].
  rewrite lookup_insert_eq. cbn [of_flags of_path of_pos o_access].
  rewrite Hino. cbn [fst snd log with_fds w_fds w_files drop].
  change (Z.of_nat (length (bytes "FILETYPE:")) + Z.of_nat (length (bytes RSGCRY_FILETYPE_NAME)) + 1)
    with 33.
  change (Z.to_nat 33) with 33%nat. change (Z.to_nat 128) with 128%nat.
  rewrite !drop_0. cbn [Nat.add]. set (data := take 33 (i_data ino)).
  assert (Hdlen : (length data <= 33)%nat) by (subst data; rewrite length_take; lia).
  assert (Hcond : bool_decide (u64 (Z.of_nat (length data)) ≠ 33)
                  || negb (strneq (blit data (w_junk w <$> seq 0 128)) filetype_line 33)
                  = negb (bool_decide (data = filetype_line))).
  { rewrite u64_small by lia.
    case_bool_decide as Hn; cbn [orb].
    - rewrite bool_decide_eq_false_2; [reflexivity |].
      intros Heq. apply Hn. rewrite Heq. reflexivity.
    - assert (Hlen : length data = 33%nat) by lia.
      unfold strneq. change (Z.to_nat 33) with 33%nat.
      rewrite blit_front by (rewrite length_fmap, length_seq; lia).
      rewrite Hlen. rewrite <- Hlen at 1. rewrite take_app_length.
      change (take 33 filetype_line) with filetype_line.
      rewrite streq_full; [reflexivity | exact Hlen | exact filetype_line_no_NUL]. }
  rewrite Hcond. rewrite <- Hclosed, set_fd_back.
  eexists. split; [| split; [| split]].
  - destruct (bool_decide (data = filetype_line)); reflexivity.
  - reflexivity.
  - cbn [w_fds log with_fds]. rewrite insert_insert_eq.
    apply delete_insert_id. exact Hfresh.
  - reflexivity.
Qed.

(** [eiCheckFiletype] with a session that has no descriptor, when there is
    no side-file. *)
Lemma eiCheckFiletype_missing (g : gcryfile_s) (w : world) :
  gf_fd g = -1 ->
  w_files w !! gf_eiName g = None ->
  eiCheckFiletype (g, w)
  = (RS_RET_EI_NO_EXISTS,
     (g, log (EvOpen (gf_eiName g)
                {| o_access := O_RDONLY; o_append := false; o_creat := false |} (-1))
           (with_errno ENOENT w))).
Proof.
  intros Hclosed Hino.
  unfold eiCheckFiletype, CHKiRet, bind at 1 2, getf at 1. cbn [fst snd].
  rewrite Hclosed. change (-1 =? -1) with true. cbn iota.
  rewrite (eiOpenRead_missing g w Hino). unfold ret.
  rewrite <- Hclosed, set_fd_same. reflexivity.
Qed.


(** A [writev] to the end of a file, on a device with room. *)
Lemma sys_writev_end (fd : Z) (data : list Z) (w : world) (o : ofile) (ino : inode) :
  w_fds w !! fd = Some o ->
  o_access (of_flags o) = O_WRONLY ->
  (o_append (of_flags o) = true \/ of_pos o = length (i_data ino)) ->
  w_files w !! of_path o = Some ino ->
  Z.of_nat (length data) <= w_space w ->
  sys_writev fd data w
  = (Z.of_nat (length data),
     log (EvWritev fd data (Z.of_nat (length data)))
       (with_space (w_space w - Z.of_nat (length data))
          (with_fds
             (<[fd := {| of_path := of_path o; of_flags := of_flags o;
                         of_pos := (length (i_data ino) + length data)%nat |}]> (w_fds w))
             (with_files
                (<[of_path o := {| i_data := i_data ino ++ data;
                                   i_rd := i_rd ino; i_wr := i_wr ino |}]> (w_files w))
                w)))).
Proof.
  intros Hfd Hacc Hend Hino Hroom. unfold sys_writev.
  rewrite Hfd, Hacc, Hino.
  assert (Hgo : (w_space w <=? 0) && negb (bool_decide (data = [])) = false).
  { destruct (Z.leb_spec (w_space w) 0) as [Hfull |]; [| reflexivity].
    destruct data; [reflexivity | cbn in Hroom; lia]. }
  rewrite Hgo.
  assert (Hpos : (if o_append (of_flags o) then length (i_data ino) else of_pos o)
                 = length (i_data ino)).
  { destruct Hend as [-> | ->]; [reflexivity |]. destruct (o_append (of_flags o)); reflexivity. }
  rewrite Hpos. rewrite (take_ge data) by lia.
  rewrite (take_ge (i_data ino)) by lia. rewrite drop_ge by lia. rewrite app_nil_r.
  reflexivity.
Qed.

(** [eiWriteRec] by a session that is writing its side-file, on a device
    with room: the record goes to the end of the side-file. *)
Lemma eiWriteRec_writing (s : sess) (data recHdr buf : list Z) (lenRecHdr lenBuf : Z) :
  writing s data ->
  0 <= lenRecHdr <= Z.of_nat (length recHdr) ->
  0 <= lenBuf <= Z.of_nat (length buf) ->
  lenRecHdr + lenBuf + 1 <= w_space (snd s) ->
  exists w' : world,
    eiWriteRec recHdr lenRecHdr buf lenBuf s = (RS_RET_OK, (fst s, w')) /\
    writing (fst s, w')
      (data ++ take (Z.to_nat lenRecHdr) recHdr ++ take (Z.to_nat lenBuf) buf ++ [10]) /\
    w_space w' = w_space (snd s) - (lenRecHdr + lenBuf + 1) /\
    (forall p : string, p ≠ gf_eiName (fst s) -> w_files w' !! p = w_files (snd s) !! p) /\
    (forall fd : Z, fd ≠ gf_fd (fst s) -> w_fds w' !! fd = w_fds (snd s) !! fd).
Proof.
  destruct s as [g w]. cbn [fst snd].
  intros (Hopen & o & ino & Hfd & Hpath & Hacc & Hend & Hino & Hdata & Hrd) Hhdr Hbuf Hroom.
  cbn [fst snd] in *.
  set (rec := take (Z.to_nat lenRecHdr) recHdr ++ take (Z.to_nat lenBuf) buf ++ [10]).
  assert (Hlen : Z.of_nat (length rec) = lenRecHdr + lenBuf + 1).
  { subst rec. rewrite !length_app, !length_take. cbn [length]. lia. }
  rewrite <- Hpath in Hino.
  assert (Hend' : o_append (of_flags o) = true \/ of_pos o = length (i_data ino))
    by (rewrite Hdata; exact Hend).
  pose proof (sys_writev_end (gf_fd g) rec w o ino Hfd Hacc Hend' Hino ltac:(lia)) as Hw.
  unfold eiWriteRec, bind, getf, sys. cbn [fst snd concat]. rewrite app_nil_r.
  fold rec. rewrite Hw. rewrite bool_decide_eq_false_2 by lia.
  eexists. split; [reflexivity |]. split; [| split; [| split]].
  - split; [exact Hopen |].
    eexists _, _. cbn [fst snd log with_space with_fds with_files w_fds w_files].
    rewrite lookup_insert_eq. split; [reflexivity |]. cbn [of_path of_flags of_pos].
    split; [exact Hpath |]. split; [exact Hacc |].
    rewrite <- Hpath, lookup_insert_eq.
    split; [right; rewrite length_app, <- Hdata; reflexivity |].
    split; [reflexivity |]. cbn [i_data i_rd]. rewrite Hdata. split; [reflexivity | exact Hrd].
  - cbn [log with_space w_space]. lia.
  - intros p Hp. cbn [log with_space with_fds with_files w_files].
    rewrite lookup_insert_ne by congruence. reflexivity.
  - intros fd Hne. cbn [log with_space with_fds with_files w_fds].
    rewrite lookup_insert_ne by congruence. reflexivity.
Qed.

(** [eiOpenAppend] when there is no side-file. *)
Lemma eiOpenAppend_missing (g : gcryfile_s) (w : world) :
  gf_fd g = -1 ->
  w_files w !! gf_eiName g = None ->
  33 <= w_space w ->
  exists w' : world,
    eiOpenAppend (g, w) = (RS_RET_OK, (set_fd (lowest_fd (w_fds w)) g, w')) /\
    writing (set_fd (lowest_fd (w_fds w)) g, w') filetype_line /\
    w_space w' = w_space w - 33 /\
    (forall p : string, p ≠ gf_eiName g -> w_files w' !! p = w_files w !! p) /\
    (forall fd : Z, fd ≠ lowest_fd (w_fds w) -> w_fds w' !! fd = w_fds w !! fd).
Proof.
  intros Hclosed Hino Hroom.
  pose proof (lowest_fd_nonneg (w_fds w)) as Hfd.
  unfold eiOpenAppend, bind at 1. rewrite (eiCheckFiletype_missing g w Hclosed Hino).
  unfold bind at 1, getf at 1. cbn [fst snd].
  unfold bind at 1, sys at 1, sys_open. cbn [fst snd log with_errno w_files w_fds o_creat].
  rewrite Hino.
  unfold bind at 1, setf at 1. cbn [fst snd w_fds with_files log with_errno].
  destruct (Z.eqb_spec (lowest_fd (w_fds w)) (-1)) as [Heq | _]; [lia |].
  match goal with
  | |- context [eiWriteRec _ _ _ _ ?s] =>
      destruct (eiWriteRec_writing s [] (bytes "FILETYPE:") (bytes RSGCRY_FILETYPE_NAME) 9
                  (Z.of_nat (length (bytes RSGCRY_FILETYPE_NAME))))
        as (w' & Hrun & Hwr & Hspace & Hfiles & Hfds)
  end.
  - split; [cbn [fst set_fd gf_fd]; lia |].
    eexists _, _. cbn [fst snd set_fd gf_fd gf_eiName log with_fds with_files with_errno
                         w_fds w_files].
    rewrite !lookup_insert_eq. cbn [of_path of_flags of_pos o_access o_append].
    split; [reflexivity |]. split; [reflexivity |]. split; [reflexivity |].
    split; [right; reflexivity |]. split; [reflexivity |]. split; reflexivity.
  - cbn. lia.
  - cbn. lia.
  - cbn [fst snd log with_fds with_files with_errno w_space]. cbn. lia.
  - cbn [fst snd set_fd gf_fd gf_eiName] in *. exists w'.
    split; [exact Hrun |]. split; [exact Hwr |].
    split; [rewrite Hspace; cbn; lia |]. split.
    + intros p Hp. rewrite (Hfiles p Hp).
      cbn [log with_fds with_files with_errno w_files].
      now rewrite lookup_insert_ne by congruence.
    + intros fd Hne. rewrite (Hfds fd Hne).
      cbn [log with_fds with_files with_errno w_fds].
      now rewrite lookup_insert_ne by congruence.
Qed.

(** [eiOpenAppend] on a side-file that exists, may be read and written and
    starts with the [FILETYPE] line. *)
Lemma eiOpenAppend_valid (g : gcryfile_s) (w : world) (ino : inode) :
  gf_fd g = -1 ->
  w_files w !! gf_eiName g = Some ino ->
  i_rd ino = true -> i_wr ino = true ->
  take 33 (i_data ino) = filetype_line ->
  exists w' : world,
    eiOpenAppend (g, w) = (RS_RET_OK, (set_fd (lowest_fd (w_fds w)) g, w')) /\
    writing (set_fd (lowest_fd (w_fds w)) g, w') (i_data ino) /\
    w_space w' = w_space w /\
    w_files w' = w_files w /\
    (forall fd : Z, fd ≠ lowest_fd (w_fds w) -> w_fds w' !! fd = w_fds w !! fd).
Proof.
  intros Hclosed Hino Hrd Hwr Hhead.
  pose proof (lowest_fd_nonneg (w_fds w)) as Hfd.
  destruct (eiCheckFiletype_closed g w ino Hclosed Hino Hrd) as (w1 & Hcheck & Hf1 & Hd1 & Hs1).
  rewrite bool_decide_eq_true_2 in Hcheck by exact Hhead.
  unfold eiOpenAppend, bind at 1. rewrite Hcheck.
  unfold bind, getf, setf, sys, sys_open, ret. cbn [fst snd o_creat o_access].
  rewrite Hf1, Hino. cbn [may]. rewrite Hwr, Hd1. cbn [fst snd].
  destruct (Z.eqb_spec (lowest_fd (w_fds w)) (-1)) as [Heq | _]; [lia |].
  eexists. split; [reflexivity |]. split; [| split; [| split]].
  - split; [cbn [fst set_fd gf_fd]; lia |].
    eexists _, ino. cbn [fst snd set_fd gf_fd gf_eiName log with_fds w_fds w_files].
    rewrite lookup_insert_eq, Hf1. cbn [of_path of_flags of_pos o_access o_append].
    repeat split; try assumption; try reflexivity. left. reflexivity.
  - exact Hs1.
  - exact Hf1.
  - intros fd Hne. cbn [log with_fds w_fds].
    now rewrite lookup_insert_ne by congruence.
Qed.

(** X3: [eiCheckFiletype] with a session that has no descriptor, on a side-file
    that may be read, opens the file, looks at its first 33 bytes and closes
    it again.  It returns [RS_RET_OK] exactly when these bytes are the
    [FILETYPE] line and [RS_RET_EI_INVLD_FILE] otherwise; the session, the
    files and the descriptor table are afterwards as they were. *)
Theorem eiCheckFiletype_verdict (g : gcryfile_s) (w : world) (ino : inode) :
  gf_fd g = -1 ->
  w_files w !! gf_eiName g = Some ino ->
  i_rd ino = true ->
  exists (r : rsRetVal) (w' : world),
    eiCheckFiletype (g, w) = (r, (g, w')) /\
    (r = RS_RET_OK <-> take 33 (i_data ino) = filetype_line) /\
    (r = RS_RET_OK \/ r = RS_RET_EI_INVLD_FILE) /\
    w_files w' = w_files w /\ w_fds w' = w_fds w.
Proof.
  intros Hclosed Hino Hrd.
  destruct (eiCheckFiletype_closed g w ino Hclosed Hino Hrd) as (w' & Hrun & Hf & Hd & _).
  eexists _, w'. split; [exact Hrun |].
  case_bool_decide as Hhead.
  - repeat split; auto.
  - split; [split; [discriminate | contradiction] |]. auto.
Qed.

(** X10: when there is no side-file, [eiOpenAppend] creates it and writes the
    [FILETYPE] line into it: it returns [RS_RET_OK], the side-file holds
    exactly that line, the descriptor of the session is one that was not in
    use and is now open, and no other file is touched.  The session has no
    descriptor before, and the device has room for the 33 bytes. *)
Theorem eiOpenAppend_creates (g : gcryfile_s) (w : world) :
  gf_fd g = -1 ->
  w_files w !! gf_eiName g = None ->
  33 <= w_space w ->
  exists (g' : gcryfile_s) (w' : world),
    eiOpenAppend (g, w) = (RS_RET_OK, (g', w')) /\
    i_data <$> w_files w' !! gf_eiName g = Some filetype_line /\
    w_fds w !! gf_fd g' = None /\
    (of_path <$> w_fds w' !! gf_fd g') = Some (gf_eiName g) /\
    same_cipher g g' /\ gf_eiName g' = gf_eiName g /\
    forall p : string, p ≠ gf_eiName g -> w_files w' !! p = w_files w !! p.
Proof.
  intros Hclosed Hino Hroom.
  destruct (eiOpenAppend_missing g w Hclosed Hino Hroom)
    as (w' & Hrun & (_ & o & ino & Hfd & Hpath & _ & _ & Hfile & Hdata & _) & _ & Hfiles & _).
  cbn [fst snd set_fd gf_fd gf_eiName] in *.
  eexists _, w'. split; [exact Hrun |]. cbn [set_fd gf_fd gf_eiName].
  split; [rewrite Hfile; cbn; now rewrite Hdata |].
  split; [apply lowest_fd_fresh |].
  split; [rewrite Hfd; cbn; now rewrite Hpath |].
  split; [repeat split |]. split; [reflexivity | exact Hfiles].
Qed.

(** X11: on a side-file that starts with the [FILETYPE] line and may be read
    and written, [eiOpenAppend] returns [RS_RET_OK] with a descriptor that
    appends to the side-file, and leaves every file as it was. *)
Theorem eiOpenAppend_keeps_existing (g : gcryfile_s) (w : world) (ino : inode) :
  gf_fd g = -1 ->
  w_files w !! gf_eiName g = Some ino ->
  i_rd ino = true -> i_wr ino = true ->
  take 33 (i_data ino) = filetype_line ->
  exists (g' : gcryfile_s) (w' : world) (o : ofile),
    eiOpenAppend (g, w) = (RS_RET_OK, (g', w')) /\
    w_files w' = w_files w /\
    w_fds w !! gf_fd g' = None /\
    w_fds w' !! gf_fd g' = Some o /\
    of_path o = gf_eiName g /\
    of_flags o = {| o_access := O_WRONLY; o_append := true; o_creat := false |} /\
    same_cipher g g'.
Proof.
  intros Hclosed Hino Hrd Hwr Hhead.
  pose proof (lowest_fd_nonneg (w_fds w)) as Hfd.
  destruct (eiCheckFiletype_closed g w ino Hclosed Hino Hrd) as (w1 & Hcheck & Hf1 & Hd1 & Hs1).
  rewrite bool_decide_eq_true_2 in Hcheck by exact Hhead.
  unfold eiOpenAppend, bind at 1. rewrite Hcheck.
  unfold bind, getf, setf, sys, sys_open, ret. cbn [fst snd o_creat o_access].
  rewrite Hf1, Hino. cbn [may]. rewrite Hwr, Hd1. cbn [fst snd].
  destruct (Z.eqb_spec (lowest_fd (w_fds w)) (-1)) as [Heq | _]; [lia |].
  eexists _, _, _. split; [reflexivity |].
  cbn [set_fd gf_fd log with_fds w_fds w_files].
  split; [exact Hf1 |]. split; [apply lowest_fd_fresh |].
  split; [apply lookup_insert_eq |]. repeat split.
Qed.

(** [eiOpenAppend] on a side-file that may be read but does not start with
    the [FILETYPE] line. *)
Lemma eiOpenAppend_invalid (g : gcryfile_s) (w : world) (ino : inode) :
  gf_fd g = -1 ->
  w_files w !! gf_eiName g = Some ino ->
  i_rd ino = true ->
  take 33 (i_data ino) ≠ filetype_line ->
  exists w' : world,
    eiOpenAppend (g, w) = (RS_RET_EI_INVLD_FILE, (g, w')) /\
    w_files w' = w_files w /\ w_fds w' = w_fds w.
Proof.
  intros Hclosed Hino Hrd Hhead.
  destruct (eiCheckFiletype_closed g w ino Hclosed Hino Hrd) as (w1 & Hcheck & Hf1 & Hd1 & _).
  rewrite bool_decide_eq_false_2 in Hcheck by exact Hhead.
  exists w1. split; [| split; assumption].
  unfold eiOpenAppend, bind at 1. rewrite Hcheck.
  unfold bind, getf, setf, ret. cbn [fst snd].
  rewrite <- Hclosed, set_fd_same. reflexivity.
Qed.

(** X1: [eiWriteRec] by a session that is writing its side-file.  When the
    device has room for the record, the call returns [RS_RET_OK] and the
    side-file ends with header, value and a line feed.  When the device
    takes fewer bytes, the call returns [RS_RET_EI_WR_ERR], and the bytes
    that the device took stay in the side-file: a cut-off record is not
    taken back. *)
Theorem eiWriteRec_all_or_error (s : sess) (data recHdr buf : list Z) :
  writing s data ->
  0 <= w_space (snd s) ->
  exists (r : rsRetVal) (w' : world),
    eiWriteRec recHdr (Z.of_nat (length recHdr)) buf (Z.of_nat (length buf)) s
    = (r, (fst s, w')) /\
    i_data <$> w_files w' !! gf_eiName (fst s)
    = Some (data ++ take (Z.to_nat (w_space (snd s))) (recHdr ++ buf ++ [10])) /\
    (r = RS_RET_OK <-> Z.of_nat (length (recHdr ++ buf ++ [10])) <= w_space (snd s)) /\
    (r = RS_RET_OK \/ r = RS_RET_EI_WR_ERR).
Proof.
  destruct s as [g w]. cbn [fst snd].
  intros (_ & o & ino & Hfd & Hpath & Hacc & Hend & Hino & Hdata & Hrd) Hspace.
  cbn [fst snd] in *.
  set (rec := recHdr ++ buf ++ [10]).
  assert (Hrec : Z.of_nat (length rec) = Z.of_nat (length recHdr) + Z.of_nat (length buf) + 1).
  { subst rec. rewrite !length_app. cbn [length]. lia. }
  assert (Hne : rec ≠ []) by (intros Hnil; rewrite Hnil in Hrec; cbn in Hrec; lia).
  assert (Hpos : (if o_append (of_flags o) then length (i_data ino) else of_pos o)
                 = length (i_data ino)).
  { rewrite Hdata. destruct Hend as [-> | ->]; [reflexivity |].
    destruct (o_append (of_flags o)); reflexivity. }
  unfold eiWriteRec, bind, getf, sys. cbn [fst snd concat].
  rewrite !Nat2Z.id, !firstn_all, app_nil_r. fold rec.
  unfold sys_writev. rewrite Hfd, Hacc, Hpath, Hino, Hpos.
  destruct (Z.leb_spec (w_space w) 0) as [Hfull | Hsome].
  - rewrite bool_decide_eq_false_2 by exact Hne. cbn [andb negb fst snd].
    rewrite bool_decide_eq_true_2 by lia.
    eexists _, _. split; [reflexivity |].
    cbn [log with_errno w_files]. rewrite Hino. cbn [fmap option_fmap option_map].
    replace (Z.to_nat (w_space w)) with 0%nat by lia. rewrite take_0, app_nil_r, Hdata.
    split; [reflexivity |]. split; [split; [discriminate | lia] | now right].
  - cbn [andb fst snd].
    rewrite (take_ge (i_data ino)) by lia. rewrite drop_ge by lia. rewrite app_nil_r.
    rewrite length_take.
    case_bool_decide as Hn; unfold ret;
      (eexists _, _; split; [reflexivity |]);
      cbn [log with_space with_fds with_files w_files]; rewrite lookup_insert_eq;
      cbn [fmap option_fmap option_map i_data]; rewrite Hdata;
      (split; [reflexivity |]).
    + split; [split; [discriminate | lia] | now right].
    + split; [split; [lia | reflexivity] | now left].
Qed.

End SideFile.

(** ** The hexadecimal digits of the IV *)

(** The two digits of a byte, and how [eiGetIV] puts them together again. *)
Lemma byte_digits (b : Z) :
  is_byte b ->
  nibble_of (peek hexchars (Z.shiftr b 4)) = Some (Z.shiftr b 4) /\
  nibble_of (peek hexchars (Z.land b 15)) = Some (Z.land b 15) /\
  Z.lor (Z.shiftl (Z.shiftr b 4) 4 mod 256) (Z.land b 15) = b /\
  is_lower_hex (peek hexchars (Z.shiftr b 4)) /\
  is_lower_hex (peek hexchars (Z.land b 15)).
Proof.
  intros Hb. unfold is_byte in Hb.
  assert (Hall : forallb
                   (fun n : nat =>
                      let b := Z.of_nat n in
                      let hi := peek hexchars (Z.shiftr b 4) in
                      let lo := peek hexchars (Z.land b 15) in
                      bool_decide (nibble_of hi = Some (Z.shiftr b 4))
                      && bool_decide (nibble_of lo = Some (Z.land b 15))
                      && (Z.lor (Z.shiftl (Z.shiftr b 4) 4 mod 256) (Z.land b 15) =? b)
                      && (((48 <=? hi) && (hi <=? 57)) || ((97 <=? hi) && (hi <=? 102)))
                      && (((48 <=? lo) && (lo <=? 57)) || ((97 <=? lo) && (lo <=? 102))))
                   (seq 0 256) = true) by (vm_compute; reflexivity).
  rewrite forallb_forall in Hall.
  specialize (Hall (Z.to_nat b) ltac:(apply in_seq; lia)). cbn zeta in Hall.
  rewrite Z2Nat.id in Hall by lia.
  repeat (apply andb_prop in Hall as [Hall ?]).
  repeat match goal with
         | H : bool_decide _ = true |- _ => apply bool_decide_eq_true in H
         | H : (_ =? _) = true |- _ => apply Z.eqb_eq in H
         end.
  unfold is_lower_hex. repeat split; try assumption; lia.
Qed.

Lemma hex_of_cons (b : Z) (bs : list Z) :
  hex_of (b :: bs)
  = peek hexchars (Z.shiftr b 4) :: peek hexchars (Z.land b 15) :: hex_of bs.
Proof. reflexivity. Qed.

Lemma length_hex_of (bs : list Z) : length (hex_of bs) = (2 * length bs)%nat.
Proof.
  induction bs as [| b bs IH]; [reflexivity |].
  rewrite hex_of_cons. cbn [length]. rewrite IH. lia.
Qed.

Lemma hex_of_lookup (bs : list Z) (k : nat) (b : Z) :
  bs !! k = Some b ->
  hex_of bs !! (2 * k)%nat = Some (peek hexchars (Z.shiftr b 4)) /\
  hex_of bs !! (2 * k + 1)%nat = Some (peek hexchars (Z.land b 15)).
Proof.
  revert k. induction bs as [| x bs IH]; intros k Hk; [discriminate |].
  rewrite hex_of_cons. destruct k as [| k].
  - injection Hk as ->. split; reflexivity.
  - cbn in Hk. destruct (IH k Hk) as [H1 H2].
    replace (2 * S k)%nat with (S (S (2 * k))) by lia.
    replace (S (S (2 * k)) + 1)%nat with (S (S (2 * k + 1))) by lia.
    split; [exact H1 | exact H2].
Qed.

Lemma hex_of_digits (bs : list Z) : Forall is_byte bs -> Forall is_lower_hex (hex_of bs).
Proof.
  induction 1 as [| b bs Hb _ IH]; [constructor |].
  rewrite hex_of_cons. destruct (byte_digits b Hb) as (_ & _ & _ & Hhi & Hlo).
  constructor; [exact Hhi | constructor; [exact Hlo | exact IH]].
Qed.

Lemma lower_hex_plain (l : list Z) :
  Forall is_lower_hex l -> Forall is_byte l /\ (0 ∉ l) /\ (10 ∉ l) /\ (58 ∉ l).
Proof.
  intros Hl. split; [| split; [| split]].
  - eapply Forall_impl; [exact Hl |]. unfold is_lower_hex, is_byte. intros; lia.
  - intros Hin. rewrite Forall_forall in Hl. specialize (Hl _ Hin). unfold is_lower_hex in Hl. lia.
  - intros Hin. rewrite Forall_forall in Hl. specialize (Hl _ Hin). unfold is_lower_hex in Hl. lia.
  - intros Hin. rewrite Forall_forall in Hl. specialize (Hl _ Hin). unfold is_lower_hex in Hl. lia.
Qed.

(** The loop of [eiWriteIV] writes the digits of the first [blk] bytes of the
    IV to the front of [hex]. *)
Lemma eiWriteIV_loop_spec (ivm : list Z) (blk : nat) :
  forall (n k : nat) (hex : list Z),
    (k + n = blk)%nat -> (blk <= length ivm)%nat -> (2 * blk <= length hex)%nat ->
    Z.of_nat blk <= 2048 ->
    eiWriteIV_loop n ivm (Z.of_nat blk) (Z.of_nat k) (Z.of_nat (2 * k)) hex
    = take (2 * k) hex ++ hex_of (take n (drop k ivm)) ++ drop (2 * blk) hex.
Proof.
  induction n as [| n IH]; intros k hex Hk Hiv Hhex Hblk.
  - assert (k = blk) as -> by lia. cbn [eiWriteIV_loop]. rewrite take_0. cbn [hex_of flat_map app].
    now rewrite take_drop.
  - cbn [eiWriteIV_loop].
    destruct (Z.ltb_spec (Z.of_nat k) (Z.of_nat blk)) as [_ | Hge]; [| lia].
    rewrite !u32_small by lia.
    replace (Z.of_nat (2 * k) + 1) with (Z.of_nat (2 * k + 1)) by lia.
    replace (Z.of_nat (2 * k) + 2) with (Z.of_nat (2 * S k)) by lia.
    replace (Z.of_nat k + 1) with (Z.of_nat (S k)) by lia.
    rewrite !poke_at, peek_at.
    destruct (lookup_lt_is_Some_2 ivm k ltac:(lia)) as [x Hx]. rewrite Hx.
    cbn [default from_option id].
    rewrite IH by (rewrite ?length_insert; lia).
    rewrite (drop_S ivm x k Hx). rewrite firstn_cons, hex_of_cons.
    rewrite !drop_insert_lt by lia.
    replace (2 * S k)%nat with (S (S (2 * k))) by lia.
    rewrite (take_S_r _ _ (peek hexchars (Z.land x 15)))
      by (replace (S (2 * k)) with (2 * k + 1)%nat by lia;
          apply list_lookup_insert_eq; rewrite length_insert; lia).
    rewrite take_insert_ge by lia.
    rewrite (take_S_r _ _ (peek hexchars (Z.shiftr x 4)))
      by (apply list_lookup_insert_eq; lia).
    rewrite take_insert_ge by lia.
    rewrite <- !app_assoc. reflexivity.
Qed.

(** The loop of [eiGetIV] on the digits of [bs]: it stores [bs]. *)
Lemma eiGetIV_loop_decodes (value bs : list Z) :
  Forall is_byte bs ->
  (forall n : nat, (n < 2 * length bs)%nat ->
                   peek value (Z.of_nat n) = default 0 (hex_of bs !! n)) ->
  Z.of_nat (2 * length bs) < 2 ^ 16 ->
  forall (m k fuel : nat) (ivm : list Z),
    (k + m = length bs)%nat -> (2 * m <= fuel)%nat -> (length bs <= length ivm)%nat ->
    eiGetIV_loop fuel value (Z.of_nat (2 * length bs)) (Z.of_nat (2 * k)) (Z.of_nat k) ivm
    = (RS_RET_OK, take k ivm ++ drop k bs ++ drop (length bs) ivm).
Proof.
  intros Hbytes Hvalue Hfit.
  induction m as [| m IH]; intros k fuel ivm Hk Hfuel Hroom.
  - assert (k = length bs) as -> by lia.
    rewrite drop_all. cbn [app]. rewrite take_drop.
    destruct fuel as [| fuel]; [reflexivity |]. cbn [eiGetIV_loop].
    now rewrite Z.ltb_irrefl.
  - destruct fuel as [| [| fuel]]; [lia | lia |].
    destruct (lookup_lt_is_Some_2 bs k ltac:(lia)) as [b Hb].
    destruct (hex_of_lookup bs k b Hb) as [Hhi Hlo].
    destruct (byte_digits b (Forall_lookup_1 _ _ _ _ Hbytes Hb)) as (Nhi & Nlo & Hjoin & _ & _).
    assert (Heven : Z.of_nat (2 * k) mod 2 = 0).
    { replace (Z.of_nat (2 * k)) with (Z.of_nat k * 2) by lia. apply Z.mod_mul. lia. }
    assert (Hodd : Z.of_nat (2 * k + 1) mod 2 = 1).
    { replace (Z.of_nat (2 * k + 1)) with (1 + Z.of_nat k * 2) by lia.
      rewrite Z.mod_add by lia. reflexivity. }
    cbn [eiGetIV_loop].
    destruct (Z.ltb_spec (Z.of_nat (2 * k)) (Z.of_nat (2 * length bs))) as [_ | Hge]; [| lia].
    rewrite (Hvalue (2 * k)%nat) by lia. rewrite Hhi. cbn [default from_option id].
    rewrite Nhi, Heven. cbn [Z.eqb].
    rewrite u16_small by lia.
    replace (Z.of_nat (2 * k) + 1) with (Z.of_nat (2 * k + 1)) by lia.
    destruct (Z.ltb_spec (Z.of_nat (2 * k + 1)) (Z.of_nat (2 * length bs))) as [_ | Hge]; [| lia].
    rewrite (Hvalue (2 * k + 1)%nat) by lia. rewrite Hlo. cbn [default from_option id].
    rewrite Nlo, Hodd. cbn [Z.eqb].
    rewrite !u16_small by lia.
    replace (Z.of_nat (2 * k + 1) + 1) with (Z.of_nat (2 * S k)) by lia.
    replace (Z.of_nat k + 1) with (Z.of_nat (S k)) by lia.
    rewrite !poke_at, peek_at.
    rewrite list_lookup_insert_eq by lia. cbn [default from_option id].
    rewrite Hjoin, list_insert_insert_eq.
    rewrite IH by (rewrite ?length_insert; lia).
    rewrite (take_S_r _ _ b) by (apply list_lookup_insert_eq; lia).
    rewrite take_insert_ge by lia. rewrite drop_insert_lt by lia.
    rewrite (drop_S bs b k Hb). rewrite <- app_assoc. reflexivity.
Qed.

Section Codec.

Context {G : Gcrypt}.

(** [eiWriteIV] by a session that is writing its side-file, on a device
    with room: the record [IV:<digits>] goes to the end of the side-file. *)
Lemma eiWriteIV_writing (s : sess) (data ivm : list Z) :
  writing s data ->
  0 <= gf_blkLength (fst s) <= 2048 ->
  (Z.to_nat (gf_blkLength (fst s)) <= length ivm)%nat ->
  2 * gf_blkLength (fst s) + 4 <= w_space (snd s) ->
  exists w' : world,
    eiWriteIV ivm s = (RS_RET_OK, (fst s, w')) /\
    writing (fst s, w') (data ++ IV_record (take (Z.to_nat (gf_blkLength (fst s))) ivm)) /\
    w_space w' = w_space (snd s) - (2 * gf_blkLength (fst s) + 4) /\
    (forall p : string, p ≠ gf_eiName (fst s) -> w_files w' !! p = w_files (snd s) !! p) /\
    (forall fd : Z, fd ≠ gf_fd (fst s) -> w_fds w' !! fd = w_fds (snd s) !! fd).
Proof.
  intros Hwr Hblk Hiv Hroom.
  set (blk := Z.to_nat (gf_blkLength (fst s))).
  assert (Hb : gf_blkLength (fst s) = Z.of_nat blk) by lia.
  unfold eiWriteIV, bind at 1, sys at 1, uninit, malloc. cbn [fst snd].
  unfold bind at 1, getf at 1. cbn [fst snd].
  change (4096 / 2) with 2048.
  destruct (Z.ltb_spec 2048 (gf_blkLength (fst s))) as [Hbig | _]; [lia |].
  set (hex0 := w_junk (snd s) <$> seq 0 (Z.to_nat 4096)).
  assert (Hhex0 : length hex0 = 4096%nat)
    by (subst hex0; rewrite length_fmap, length_seq; reflexivity).
  rewrite u64_small by lia.
  fold blk. rewrite Hb.
  pose proof (eiWriteIV_loop_spec ivm blk blk 0 hex0 ltac:(lia) ltac:(lia) ltac:(lia) ltac:(lia))
    as Hloop.
  change (Z.of_nat (2 * 0)) with 0 in Hloop. change (Z.of_nat 0) with 0 in Hloop.
  rewrite Hloop. rewrite take_0, drop_0. cbn [app].
  replace (fst s, snd s) with s by (destruct s; reflexivity).
  destruct (eiWriteRec_writing s data (bytes "IV:")
              (hex_of (take blk ivm) ++ drop (2 * blk) hex0) 3 (Z.of_nat blk * 2) Hwr)
    as (w' & Hrun & Hwr' & Hspace & Hfiles & Hfds).
  - cbn. lia.
  - rewrite length_app, length_hex_of, length_take, length_drop. lia.
  - lia.
  - exists w'. split; [exact Hrun |].
    replace (Z.to_nat (Z.of_nat blk * 2)) with (length (hex_of (take blk ivm))) in Hwr'
      by (rewrite length_hex_of, length_take; lia).
    rewrite take_app_length in Hwr'.
    split; [exact Hwr' |]. split; [lia |]. split; assumption.
Qed.

(** [eiGetIV] on the record that [eiWriteIV] writes for the bytes [bs]. *)
Lemma eiGetIV_reads (bs rest ivm : list Z) (s : sess) :
  reading s ->
  pending s = IV_record bs ++ rest ->
  Forall is_byte bs ->
  Z.of_nat (length bs) < 510 ->
  (length bs <= length ivm)%nat ->
  exists s' : sess,
    eiGetIV ivm (Z.of_nat (length bs)) s
    = ((RS_RET_OK, bs ++ drop (length bs) ivm), s') /\
    reading s' /\ pending s' = rest /\ same_cipher (fst s) (fst s').
Proof.
  intros Hs Hpend Hbytes Hlen Hroom.
  pose proof (hex_of_digits bs Hbytes) as Hhex.
  destruct (lower_hex_plain _ Hhex) as (Hbv & Hzv & Hnl & _).
  pose proof (length_hex_of bs) as Hhl.
  assert (Hb_iv : Forall is_byte (bytes "IV"))
    by (repeat constructor; unfold is_byte; cbn; lia).
  assert (Hno : forall x : Z, x ≠ 73 -> x ≠ 86 -> x ∉ bytes "IV").
  { intros x H1 H2 H. change (bytes "IV") with [73; 86] in H.
    repeat (apply elem_of_cons in H as [H | H]; [congruence |]).
    now apply elem_of_nil in H. }
  assert (Hpend' : pending s = bytes "IV" ++ 58 :: hex_of bs ++ 10 :: rest).
  { rewrite Hpend. unfold IV_record. change (bytes "IV:") with (bytes "IV" ++ [58]).
    rewrite <- !app_assoc. reflexivity. }
  destruct s as [g w].
  destruct (eiGetRecord_reads (bytes "IV") (hex_of bs) rest
              (w_junk w <$> seq 0 (Z.to_nat (EIF_MAX_RECTYPE_LEN + 1)))
              (w_junk w <$> seq 0 (Z.to_nat (EIF_MAX_VALUE_LEN + 1)))
              (g, w) Hs Hpend' Hb_iv Hbv (Hno 58 ltac:(lia) ltac:(lia)) Hnl
              (Hno 0 ltac:(lia) ltac:(lia)) Hzv
              ltac:(cbn; unfold EIF_MAX_RECTYPE_LEN; lia)
              ltac:(cbn [bytes length]; unfold EIF_MAX_VALUE_LEN; lia)
              ltac:(rewrite length_fmap, length_seq; cbn; unfold EIF_MAX_RECTYPE_LEN; lia)
              ltac:(rewrite length_fmap, length_seq; unfold EIF_MAX_VALUE_LEN; lia))
    as (rectype' & value' & s' & Hrun & Hrt & Hvl & Hs' & Hp' & Hsame).
  unfold eiGetIV, bind, sys, uninit, malloc. cbn [fst snd].
  rewrite Hrun.
  assert (Hiv : streq rectype' (bytes "IV") = true).
  { unfold streq. apply bool_decide_eq_true_2. rewrite Hrt. reflexivity. }
  rewrite Hiv. cbn [negb]. unfold strlen. rewrite Hvl, Hhl.
  replace (Z.of_nat (2 * length bs) / 2) with (Z.of_nat (length bs))
    by (rewrite Nat2Z.inj_mul, Z.mul_comm, Z.div_mul; lia).
  rewrite bool_decide_eq_false_2 by tauto. unfold ret.
  rewrite Nat2Z.id.
  pose proof (eiGetIV_loop_decodes value' bs Hbytes
                ltac:(intros n Hn; rewrite peek_c_str by (rewrite Hvl, Hhl; exact Hn);
                      rewrite Hvl; apply peek_at) ltac:(lia)
                (length bs) 0%nat (2 * length bs)%nat ivm ltac:(lia) ltac:(lia) Hroom) as Hloop.
  change (Z.of_nat (2 * 0)) with 0 in Hloop. change (Z.of_nat 0) with 0 in Hloop.
  rewrite Hloop, take_0, drop_0. cbn [app].
  exists s'. split; [reflexivity |]. split; [exact Hs' |]. split; [exact Hp' | exact Hsame].
Qed.

(** [eiCheckFiletype] with a session that has opened its side-file and not
    read from it yet, when the [FILETYPE] line comes next. *)
Lemma eiCheckFiletype_open (s : sess) (rest : list Z) :
  reading s ->
  gf_fd (fst s) ≠ -1 ->
  buffered (fst s) = [] ->
  unread (gf_fd (fst s)) (snd s) = filetype_line ++ rest ->
  exists w' : world,
    eiCheckFiletype s = (RS_RET_OK, (fst s, w')) /\
    reading (fst s, w') /\ pending (fst s, w') = rest /\
    w_files w' = w_files (snd s).
Proof.
  destruct s as [g w]. cbn [fst snd].
  intros ((o & Hfd & Hacc & [ino Hino]) & Hidx & Hmax & Hbuf) Hopen Hempty Hun.
  cbn [fst snd] in *.
  unfold unread in Hun. rewrite Hfd, Hino in Hun.
  unfold eiCheckFiletype, CHKiRet, bind at 1 2, getf at 1. cbn [fst snd].
  destruct (Z.eqb_spec (gf_fd g) (-1)) as [Heq | _]; [contradiction |].
  unfold ret at 1. cbn iota.
  unfold bind, getf, setf, sys, ret, uninit, malloc, sys_read. cbn [fst snd].
  rewrite Hfd, Hacc, Hino.
  change (Z.of_nat (length (bytes "FILETYPE:")) + Z.of_nat (length (bytes RSGCRY_FILETYPE_NAME)) + 1)
    with 33.
  change (Z.to_nat 33) with (length filetype_line). change (Z.to_nat 128) with 128%nat.
  rewrite Hun, take_app_length. cbn [fst snd].
  assert (Hcond : bool_decide (u64 (Z.of_nat (length filetype_line)) ≠ 33)
                  || negb (strneq (blit filetype_line (w_junk w <$> seq 0 128)) filetype_line 33)
                  = false).
  { rewrite bool_decide_eq_false_2 by (intros H; apply H; reflexivity). cbn [orb].
    unfold strneq. change (Z.to_nat 33) with (length filetype_line).
    rewrite blit_front by (rewrite length_fmap, length_seq; cbn; lia).
    rewrite take_app_length, firstn_all. unfold streq.
    now rewrite bool_decide_eq_true_2. }
  rewrite Hcond.
  eexists. split; [reflexivity |]. split; [| split].
  - unfold reading. cbn [fst snd log with_fds w_fds w_files].
    split; [| auto].
    eexists. rewrite lookup_insert_eq. split; [reflexivity |].
    cbn [of_flags of_path]. split; [exact Hacc |]. rewrite Hino. eauto.
  - unfold pending. cbn [fst snd]. rewrite Hempty. cbn [app].
    unfold unread. cbn [log with_fds w_fds w_files]. rewrite lookup_insert_eq.
    cbn [of_path of_pos]. rewrite Hino.
    rewrite <- drop_drop, Hun. apply drop_app_length.
  - reflexivity.
Qed.

(** [readIV] on a side-file that holds the [FILETYPE] line and then the
    record that [eiWriteIV] writes for the bytes [bs]. *)
Lemma readIV_reads (fuel : nat) (g : gcryfile_s) (w : world) (ino : inode)
    (bs rest : list Z) (iv0 : option (list Z)) :
  gf_readBuf g = None -> gf_readBufIdx g = 0 -> gf_readBufMaxIdx g = 0 ->
  w_files w !! gf_eiName g = Some ino ->
  i_rd ino = true ->
  i_data ino = filetype_line ++ IV_record bs ++ rest ->
  Forall is_byte bs ->
  Z.of_nat (length bs) = gf_blkLength g ->
  gf_blkLength g < 510 ->
  exists s' : sess,
    readIV (S fuel) iv0 (g, w) = Some (RS_RET_OK, Some bs, s') /\
    same_cipher g (fst s') /\ reading s' /\ pending s' = rest.
Proof.
  intros Hbuf Hidx Hmax Hino Hrd Hdata Hbytes Hblk Hlen.
  destruct (eiOpenRead_reading g w ino Hino Hrd Hbuf Hidx Hmax)
    as (s1 & Hopen & Hs1 & Hp1 & Hsame1).
  pose proof (eiOpenRead_ok g w ino Hino Hrd) as Hopen'.
  rewrite Hopen in Hopen'. injection Hopen' as Hs1eq.
  pose proof (lowest_fd_nonneg (w_fds w)) as Hfd.
  assert (Hempty : buffered (fst s1) = []).
  { rewrite Hs1eq. unfold buffered. cbn [fst set_fd gf_readBuf]. now rewrite Hbuf. }
  assert (Hun : unread (gf_fd (fst s1)) (snd s1) = filetype_line ++ IV_record bs ++ rest).
  { unfold pending in Hp1. rewrite Hempty in Hp1. cbn [app] in Hp1. now rewrite Hp1. }
  destruct (eiCheckFiletype_open s1 (IV_record bs ++ rest) Hs1
              ltac:(rewrite Hs1eq; cbn [fst set_fd gf_fd]; lia) Hempty Hun)
    as (w2 & Hcheck & Hs2 & Hp2 & _).
  assert (Hblk1 : gf_blkLength (fst s1) = gf_blkLength g) by apply Hsame1.
  destruct (eiGetIV_reads bs rest (w_junk w2 <$> seq 0 (Z.to_nat (gf_blkLength (fst s1))))
              (fst s1, w2) Hs2 Hp2 Hbytes ltac:(lia)
              ltac:(rewrite length_fmap, length_seq; lia))
    as (s3 & Hget & Hs3 & Hp3 & Hsame3).
  exists s3. split.
  - unfold readIV. cbn [readIV_wait]. rewrite Hopen, Hcheck.
    unfold getf, sys, malloc. cbn [fst snd].
    rewrite Hblk1, <- Hblk in Hget |- *. rewrite Hget.
    rewrite drop_ge by (rewrite length_fmap, length_seq; lia).
    now rewrite app_nil_r.
  - split; [| split; assumption].
    eapply same_cipher_trans; [exact Hsame1 | exact Hsame3].
Qed.

(** X12: [eiWriteIV] by a session that is writing its side-file, on a device
    with room.  For a block length of at most 2048 it returns [RS_RET_OK]
    and the side-file ends with the record [IV:<digits>], two lowercase
    hexadecimal digits for each byte of the IV, the high half first.  For a
    greater block length it returns [RS_RET_ERR] and does nothing. *)
Theorem eiWriteIV_writes_IV_record (s : sess) (data iv : list Z) :
  writing s data ->
  Z.of_nat (length iv) = gf_blkLength (fst s) ->
  Forall is_byte iv ->
  2 * gf_blkLength (fst s) + 4 <= w_space (snd s) ->
  (gf_blkLength (fst s) <= 2048 ->
   exists w' : world,
     eiWriteIV iv s = (RS_RET_OK, (fst s, w')) /\
     i_data <$> w_files w' !! gf_eiName (fst s) = Some (data ++ bytes "IV:" ++ hex_of iv ++ [10]) /\
     length (hex_of iv) = (2 * length iv)%nat /\
     Forall is_lower_hex (hex_of iv) /\
     forall (k : nat) (b : Z),
       iv !! k = Some b ->
       exists hi lo : Z,
         hex_of iv !! (2 * k)%nat = Some hi /\ hex_of iv !! (2 * k + 1)%nat = Some lo /\
         nibble_of hi = Some (b / 16) /\ nibble_of lo = Some (b mod 16)) /\
  (2048 < gf_blkLength (fst s) -> eiWriteIV iv s = (RS_RET_ERR, s)).
Proof.
  intros Hwr Hlen Hbytes Hroom. split.
  - intros Hblk.
    destruct (eiWriteIV_writing s data iv Hwr ltac:(lia) ltac:(lia) Hroom)
      as (w' & Hrun & (_ & o & ino & _ & _ & _ & _ & Hfile & Hdata & _) & _).
    cbn [fst snd] in Hfile.
    rewrite <- Hlen, Nat2Z.id, firstn_all in Hdata.
    exists w'. split; [exact Hrun |].
    split; [rewrite Hfile; cbn; now rewrite Hdata |].
    split; [apply length_hex_of |]. split; [now apply hex_of_digits |].
    intros k b Hk.
    destruct (hex_of_lookup iv k b Hk) as [Hhi Hlo].
    destruct (byte_digits b (Forall_lookup_1 _ _ _ _ Hbytes Hk)) as (Nhi & Nlo & _).
    eexists _, _. split; [exact Hhi |]. split; [exact Hlo |].
    rewrite Nhi, Nlo. rewrite Z.shiftr_div_pow2 by lia.
    change 15 with (Z.ones 4). rewrite Z.land_ones by lia. split; reflexivity.
  - intros Hbig. unfold eiWriteIV, bind, sys, uninit, malloc, getf, ret. cbn [fst snd].
    change (4096 / 2) with 2048.
    destruct (Z.ltb_spec 2048 (gf_blkLength (fst s))) as [_ | Hsmall]; [| lia].
    destruct s; reflexivity.
Qed.

(** X9: [eiGetIV] reads back what [eiWriteIV] writes.  When the bytes that
    [eiReadChar] has yet to deliver start with the record [IV:<digits>] of
    the bytes [bs], and [bs] is as long as the caller expects, [eiGetIV]
    returns [RS_RET_OK], stores [bs] into the memory handed in and leaves
    the bytes behind the record to be read.  The value of a record is
    shorter than 1020 bytes, so [bs] has fewer than 510. *)
Theorem eiGetIV_inverts_eiWriteIV (bs rest iv : list Z) (s : sess) :
  reading s ->
  pending s = bytes "IV:" ++ hex_of bs ++ [10] ++ rest ->
  Forall is_byte bs ->
  Z.of_nat (length bs) < 510 ->
  length iv = length bs ->
  exists s' : sess,
    eiGetIV iv (Z.of_nat (length bs)) s = ((RS_RET_OK, bs), s') /\
    reading s' /\ pending s' = rest /\ same_cipher (fst s) (fst s').
Proof.
  intros Hs Hpend Hbytes Hlen Hiv.
  destruct (eiGetIV_reads bs rest iv s Hs
              ltac:(rewrite Hpend; unfold IV_record; now rewrite <- !app_assoc)
              Hbytes Hlen ltac:(lia))
    as (s' & Hrun & Hs' & Hp' & Hsame).
  rewrite drop_ge, app_nil_r in Hrun by lia.
  exists s'. auto.
Qed.

End Codec.

(** ** The life of a side-file *)

Lemma length_blit (data buf : list Z) : length (blit data buf) = length buf.
Proof. unfold blit. rewrite length_take, length_app, length_drop. lia. Qed.

Lemma Forall_blit (P : Z -> Prop) (data buf : list Z) :
  Forall P data -> Forall P buf -> Forall P (blit data buf).
Proof.
  intros Hd Hb. unfold blit. apply Forall_take, Forall_app. split; [exact Hd |].
  now apply Forall_drop.
Qed.

Lemma Forall_junk (P : Z -> Prop) (junk : nat -> Z) (n : nat) :
  (forall k : nat, P (junk k)) -> Forall P (junk <$> seq 0 n).
Proof. intros Hj. apply Forall_fmap, Forall_forall. intros k _. apply Hj. Qed.

Section Life.

Context {G : Gcrypt}.

(** [seedIV] always hands out a block of [blkLength] bytes and leaves the
    files alone. *)
Lemma seedIV_spec (g : gcryfile_s) (w : world) :
  exists (iv : list Z) (w' : world),
    seedIV (g, w) = (Some iv, (g, w')) /\
    length iv = Z.to_nat (gf_blkLength g) /\
    w_files w' = w_files w /\ w_space w' = w_space w /\
    ((forall n : nat, is_byte (w_junk w n)) ->
     (forall ino : inode,
         w_files w !! "/dev/urandom"%string = Some ino -> Forall is_byte (i_data ino)) ->
     Forall is_byte iv).
Proof.
  unfold seedIV, bind, getf, sys, malloc, sys_open, ret. cbn [fst snd].
  set (iv0 := w_junk w <$> seq 0 (Z.to_nat (gf_blkLength g))).
  assert (Hlen0 : length iv0 = Z.to_nat (gf_blkLength g))
    by (subst iv0; now rewrite length_fmap, length_seq).
  destruct (w_files w !! "/dev/urandom"%string) as [ino |] eqn:Hino; cbn [o_creat o_access may].
  - destruct (i_rd ino) eqn:Hrd; cbn [fst snd].
    + destruct (Z.ltb_spec 0 (lowest_fd (w_fds w))) as [Hpos | Hzero].
      * unfold sys_read, sys_close. cbn [fst snd log with_fds w_fds w_files].
        rewrite lookup_insert_eq. cbn [of_flags of_path of_pos o_access]. rewrite Hino.
        cbn [fst snd]. eexists _, _. split; [reflexivity |].
        split; [now rewrite length_blit |]. split; [reflexivity |]. split; [reflexivity |].
        intros Hjunk Hdev. apply Forall_blit.
        -- apply Forall_take, Forall_drop. now apply Hdev.
        -- subst iv0. now apply Forall_junk.
      * eexists _, _. split; [reflexivity |]. split; [exact Hlen0 |].
        split; [reflexivity |]. split; [reflexivity |].
        intros Hjunk _. subst iv0. now apply Forall_junk.
    + destruct (Z.ltb_spec 0 (-1)) as [Hpos | _]; [lia |].
      eexists _, _. split; [reflexivity |]. split; [exact Hlen0 |].
      split; [reflexivity |]. split; [reflexivity |].
      intros Hjunk _. subst iv0. now apply Forall_junk.
  - destruct (Z.ltb_spec 0 (-1)) as [Hpos | _]; [lia |].
    eexists _, _. split; [reflexivity |]. split; [exact Hlen0 |].
    split; [reflexivity |]. split; [reflexivity |].
    intros Hjunk _. subst iv0. now apply Forall_junk.
Qed.

(** Opening for writing when there is no side-file and the cipher accepts
    key and IV. *)
Lemma rsgcryInitCrypt_write (MAXFNAME fuel : nat) (ctx : gcryctx_s) (fname : string)
    (w : world) (h0 h1 : gcry_cipher_hd_t) (name : string) (blk : Z) :
  name = String.substring 0 MAXFNAME (fname +:+ ENCINFO_SUFFIX) ->
  blk = u64 (gcry_cipher_get_algo_blklen (ctx_algo ctx)) ->
  gcry_cipher_open (ctx_algo ctx) (ctx_mode ctx) 0 = (0, h0) ->
  gcry_cipher_setkey h0 (ctx_key ctx) (ctx_keyLen ctx) = (0, h1) ->
  (forall iv : list Z, fst (gcry_cipher_setiv h1 (Some iv) blk) = 0) ->
  blk <= 2048 ->
  w_files w !! name = None ->
  2 * blk + 37 <= w_space w ->
  exists (iv : list Z) (gf : gcryfile_s) (w' : world),
    rsgcryInitCrypt MAXFNAME fuel ctx fname 119 w = Some (RS_RET_OK, Some gf, w') /\
    writing (gf, w') (filetype_line ++ IV_record iv) /\
    length iv = Z.to_nat blk /\
    gcry_cipher_setiv h1 (Some iv) blk = (0, gf_chd gf) /\
    gf_eiName gf = name /\ gf_blkLength gf = blk /\ gf_ctx gf = ctx /\
    gf_readBuf gf = None /\
    w_space w' = w_space w - (2 * blk + 37) /\
    (forall p : string, p ≠ name -> w_files w' !! p = w_files w !! p) /\
    ((forall n : nat, is_byte (w_junk w n)) ->
     (forall ino : inode,
         w_files w !! "/dev/urandom"%string = Some ino -> Forall is_byte (i_data ino)) ->
     Forall is_byte iv).
Proof.
  intros Hname Hblk Hopen Hkey Hsetiv Hsmall Hnone Hroom.
  assert (Hblk0 : 0 <= blk) by (subst blk; unfold u64; apply Z.mod_pos_bound; lia).
  unfold rsgcryInitCrypt. cbn [gcryfileConstruct ret fst snd].
  rewrite Hopen. cbn [gf_chd gf_ctx set_chd set_blkLength set_mode].
  rewrite bool_decide_eq_false_2 by tauto. rewrite Hkey.
  rewrite bool_decide_eq_false_2 by tauto.
  cbn [Z.eqb Pos.eqb]. rewrite <- Hname, <- Hblk.
  match goal with
  | |- context [seedIV (?g, w)] => set (g1 := g)
  end.
  destruct (seedIV_spec g1 w) as (iv & w1 & Hseed & Hlen & Hfiles1 & Hspace1 & Hbytes).
  rewrite Hseed.
  specialize (Hsetiv iv).
  change (gf_chd g1) with h1. change (gf_blkLength g1) with blk in *.
  destruct (gcry_cipher_setiv h1 (Some iv) blk) as [e h2] eqn:Hiv.
  cbn [fst] in Hsetiv. subst e.
  rewrite bool_decide_eq_false_2 by tauto.
  set (g2 := set_chd h2 g1).
  destruct (eiOpenAppend_missing g2 w1 eq_refl ltac:(rewrite Hfiles1; exact Hnone) ltac:(lia))
    as (w2 & Happend & Hwr2 & Hspace2 & Hfiles2 & _).
  change (gf_eiName g2) with name in Hfiles2.
  destruct (eiWriteIV_writing (set_fd (lowest_fd (w_fds w1)) g2, w2) filetype_line iv Hwr2
              ltac:(change (gf_blkLength (fst (set_fd (lowest_fd (w_fds w1)) g2, w2))) with blk; lia)
              ltac:(change (gf_blkLength (fst (set_fd (lowest_fd (w_fds w1)) g2, w2))) with blk; lia)
              ltac:(change (gf_blkLength (fst (set_fd (lowest_fd (w_fds w1)) g2, w2))) with blk;
                    cbn [snd]; lia))
    as (w3 & Hwrite & Hwr3 & Hspace3 & Hfiles3 & _).
  change (gf_blkLength (fst (set_fd (lowest_fd (w_fds w1)) g2, w2))) with blk
    in Hwr3, Hspace3.
  change (gf_eiName (fst (set_fd (lowest_fd (w_fds w1)) g2, w2))) with name in Hfiles3.
  cbn [fst snd] in Hwr3, Hspace3, Hfiles3.
  rewrite <- Hlen, firstn_all in Hwr3.
  unfold CHKiRet, bind. rewrite Happend. cbn [default from_option id]. rewrite Hwrite.
  unfold rsgcryInitCrypt_finalize, free. cbn [fst snd].
  exists iv. eexists _, _. split; [reflexivity |].
  split.
  { destruct Hwr3 as (Hfd & o & ino & H). split; [exact Hfd |]. exists o, ino. exact H. }
  split; [exact Hlen |]. split; [exact Hiv |].
  split; [reflexivity |]. split; [reflexivity |]. split; [reflexivity |]. split; [reflexivity |].
  split; [cbn [log w_space]; lia |]. split; [| exact Hbytes].
  intros p Hp. cbn [log w_files]. rewrite Hfiles3, Hfiles2 by exact Hp. now rewrite Hfiles1.
Qed.

(** [eiClose] by a session that is writing its side-file, on a device with
    room: the record [END:<offset>] goes to the end of the side-file, and
    the descriptor is closed. *)
Lemma eiClose_writing (gf : gcryfile_s) (w : world) (data : list Z) (offs : Z) :
  writing (gf, w) data ->
  - 2 ^ 63 <= offs < 2 ^ 63 ->
  Z.of_nat (length (END_record offs)) <= w_space w ->
  exists w' : world,
    eiClose offs (gf, w) = (tt, (set_fd (-1) gf, w')) /\
    (exists ino : inode,
        w_files w' !! gf_eiName gf = Some ino /\
        i_data ino = data ++ END_record offs /\ i_rd ino = true) /\
    w_fds w' !! gf_fd gf = None /\
    (forall p : string, p ≠ gf_eiName gf -> w_files w' !! p = w_files w !! p) /\
    (forall fd : Z, fd ≠ gf_fd gf -> w_fds w' !! fd = w_fds w !! fd).
Proof.
  intros Hwr Hoffs Hroom.
  pose proof Hwr as (Hopen & _). cbn [fst] in Hopen.
  destruct (lltoa_spec offs Hoffs) as [Hlen _].
  pose proof (snprintf_lld_spec (w_junk w <$> seq 0 21) offs
                ltac:(now rewrite length_fmap, length_seq) Hoffs) as Hsn.
  assert (Hrec : Z.of_nat (length (END_record offs)) = 4 + Z.of_nat (length (lltoa offs)) + 1).
  { unfold END_record. rewrite !length_app. cbn [length bytes]. lia. }
  unfold eiClose, bind at 1, getf at 1. cbn [fst snd].
  destruct (Z.eqb_spec (gf_fd gf) (-1)) as [Heq | _]; [contradiction |].
  unfold bind at 1, sys at 1, uninit, malloc. cbn [fst snd].
  change (Z.to_nat 21) with 21%nat.
  assert (Hbuf : length (fst (snprintf_lld (w_junk w <$> seq 0 21) 21 offs)) = 21%nat).
  { unfold snprintf_lld. cbn [fst]. now rewrite length_blit, length_fmap, length_seq. }
  assert (Hn : snd (snprintf_lld (w_junk w <$> seq 0 21) 21 offs) = Z.of_nat (length (lltoa offs)))
    by reflexivity.
  destruct (snprintf_lld (w_junk w <$> seq 0 21) 21 offs) as [str len].
  cbn [fst snd] in Hsn, Hbuf, Hn. subst len.
  destruct (eiWriteRec_writing (gf, w) data (bytes "END:") str 4 (Z.of_nat (length (lltoa offs)))
              Hwr ltac:(cbn; lia) ltac:(lia) ltac:(cbn [snd]; lia))
    as (w1 & Hrun & Hwr1 & _ & Hfiles & Hfds).
  cbn [fst snd] in Hrun, Hwr1, Hfiles, Hfds.
  rewrite Hsn in Hwr1. change (take (Z.to_nat 4) (bytes "END:")) with (bytes "END:") in Hwr1.
  fold (END_record offs) in Hwr1.
  destruct Hwr1 as (_ & o & ino & _ & _ & _ & _ & Hino & Hdata & Hrd). cbn [fst snd] in *.
  unfold bind at 1. rewrite Hrun.
  unfold bind, getf, sys, free, sys_close, setf. cbn [fst snd].
  eexists. split; [reflexivity |].
  split; [exists ino; destruct (gf_readBuf gf); cbn [log with_fds w_files]; auto |].
  split; [destruct (gf_readBuf gf); cbn [log with_fds w_fds]; apply lookup_delete_eq |].
  split.
  - intros p Hp. rewrite <- (Hfiles p Hp). destruct (gf_readBuf gf); reflexivity.
  - intros fd Hne. rewrite <- (Hfds fd Hne).
    destruct (gf_readBuf gf); cbn [log with_fds w_fds]; now rewrite lookup_delete_ne by congruence.
Qed.

(** X21: when [gcry_cipher_open] or [gcry_cipher_setkey] fails,
    [rsgcryInitCrypt] returns [RS_RET_ERR] and no session, whatever the
    open mode.  It has made no system call: the files and the descriptor
    table are as they were, and the trace is longer only by the release of
    the name of the side-file and of the session. *)
Theorem rsgcryInitCrypt_cipher_failure (MAXFNAME fuel : nat) (ctx : gcryctx_s)
    (fname : string) (openMode : Z) (w : world) :
  fst (gcry_cipher_open (ctx_algo ctx) (ctx_mode ctx) 0) ≠ 0 \/
  fst (gcry_cipher_setkey (snd (gcry_cipher_open (ctx_algo ctx) (ctx_mode ctx) 0))
         (ctx_key ctx) (ctx_keyLen ctx)) ≠ 0 ->
  exists w' : world,
    rsgcryInitCrypt MAXFNAME fuel ctx fname openMode w = Some (RS_RET_ERR, None, w') /\
    w_files w' = w_files w /\ w_fds w' = w_fds w /\
    w_trace w' = w_trace w ++ [EvFree ObjEiName; EvFree ObjGcryfile].
Proof.
  intros Hfail.
  unfold rsgcryInitCrypt. cbn [gcryfileConstruct ret fst snd].
  destruct (gcry_cipher_open (ctx_algo ctx) (ctx_mode ctx) 0) as [e0 h0].
  cbn [fst snd gf_chd gf_ctx set_chd set_blkLength set_mode] in *.
  assert (Hfin : forall g : gcryfile_s,
             gf_fd g = -1 ->
             exists w' : world,
               Some (rsgcryInitCrypt_finalize RS_RET_ERR None None (g, w))
               = Some (RS_RET_ERR, None, w') /\
               w_files w' = w_files w /\ w_fds w' = w_fds w /\
               w_trace w' = w_trace w ++ [EvFree ObjEiName; EvFree ObjGcryfile]).
  { intros g Hg.
    unfold rsgcryInitCrypt_finalize, free, gcryfileDestruct, eiClose, bind, getf, ret.
    cbn [fst snd]. rewrite Hg. cbn [Z.eqb Pos.eqb fst snd].
    eexists. split; [reflexivity |]. cbn [log w_files w_fds w_trace].
    rewrite <- app_assoc. auto. }
  case_bool_decide as He0; [apply Hfin; reflexivity |].
  destruct Hfail as [Hfail | Hfail]; [contradiction |].
  destruct (gcry_cipher_setkey h0 (ctx_key ctx) (ctx_keyLen ctx)) as [e1 h1].
  cbn [fst] in Hfail. rewrite bool_decide_eq_true_2 by exact Hfail.
  apply Hfin. reflexivity.
Qed.

(** X22: opening for writing when there is no side-file, the cipher accepts key
    and IV and the device has room.  [rsgcryInitCrypt] returns [RS_RET_OK]
    and a session; the side-file has been created and holds the [FILETYPE]
    line and the record [IV:<digits>] of the very IV that was given to the
    cipher; the IV has as many bytes as a block of the cipher; no other file
    has changed. *)
Theorem rsgcryInitCrypt_write_creates_side_file (MAXFNAME fuel : nat) (ctx : gcryctx_s)
    (fname : string) (w : world) (h0 h1 : gcry_cipher_hd_t) :
  gcry_cipher_open (ctx_algo ctx) (ctx_mode ctx) 0 = (0, h0) ->
  gcry_cipher_setkey h0 (ctx_key ctx) (ctx_keyLen ctx) = (0, h1) ->
  (forall iv : list Z,
      fst (gcry_cipher_setiv h1 (Some iv) (u64 (gcry_cipher_get_algo_blklen (ctx_algo ctx)))) = 0) ->
  u64 (gcry_cipher_get_algo_blklen (ctx_algo ctx)) <= 2048 ->
  w_files w !! String.substring 0 MAXFNAME (fname +:+ ENCINFO_SUFFIX) = None ->
  2 * u64 (gcry_cipher_get_algo_blklen (ctx_algo ctx)) + 37 <= w_space w ->
  exists (iv : list Z) (gf : gcryfile_s) (w' : world),
    rsgcryInitCrypt MAXFNAME fuel ctx fname 119 w = Some (RS_RET_OK, Some gf, w') /\
    Z.of_nat (length iv) = u64 (gcry_cipher_get_algo_blklen (ctx_algo ctx)) /\
    gcry_cipher_setiv h1 (Some iv) (u64 (gcry_cipher_get_algo_blklen (ctx_algo ctx)))
    = (0, gf_chd gf) /\
    gf_eiName gf = String.substring 0 MAXFNAME (fname +:+ ENCINFO_SUFFIX) /\
    i_data <$> w_files w' !! gf_eiName gf
    = Some (filetype_line ++ bytes "IV:" ++ hex_of iv ++ [10]) /\
    is_Some (w_fds w' !! gf_fd gf) /\
    forall p : string, p ≠ gf_eiName gf -> w_files w' !! p = w_files w !! p.
Proof.
  intros Hopen Hkey Hsetiv Hsmall Hnone Hroom.
  destruct (rsgcryInitCrypt_write MAXFNAME fuel ctx fname w h0 h1 _ _ eq_refl eq_refl
              Hopen Hkey Hsetiv Hsmall Hnone Hroom)
    as (iv & gf & w' & Hrun & (_ & o & ino & Hfd & _ & _ & _ & Hino & Hdata & _) & Hlen & Hiv
        & Hname & _ & _ & _ & _ & Hfiles & _).
  cbn [fst snd] in *.
  assert (Hblk0 : 0 <= u64 (gcry_cipher_get_algo_blklen (ctx_algo ctx)))
    by (unfold u64; apply Z.mod_pos_bound; lia).
  exists iv, gf, w'. split; [exact Hrun |]. split; [lia |]. split; [exact Hiv |].
  split; [exact Hname |].
  split; [rewrite Hino; cbn; now rewrite Hdata |].
  split; [rewrite Hfd; eauto |].
  rewrite Hname. exact Hfiles.
Qed.

(** X24: opening for writing when the side-file exists, may be read, and does
    not start with the [FILETYPE] line.  [rsgcryInitCrypt] returns
    [RS_RET_EI_INVLD_FILE] and no session, and every file is as it was:
    a file of another kind is not written to.  The cipher accepts key and
    IV. *)
Theorem rsgcryInitCrypt_write_rejects_other_file (MAXFNAME fuel : nat) (ctx : gcryctx_s)
    (fname : string) (w : world) (h0 h1 : gcry_cipher_hd_t) (ino : inode) :
  gcry_cipher_open (ctx_algo ctx) (ctx_mode ctx) 0 = (0, h0) ->
  gcry_cipher_setkey h0 (ctx_key ctx) (ctx_keyLen ctx) = (0, h1) ->
  (forall iv : list Z,
      fst (gcry_cipher_setiv h1 (Some iv) (u64 (gcry_cipher_get_algo_blklen (ctx_algo ctx)))) = 0) ->
  w_files w !! String.substring 0 MAXFNAME (fname +:+ ENCINFO_SUFFIX) = Some ino ->
  i_rd ino = true ->
  take 33 (i_data ino) ≠ filetype_line ->
  exists w' : world,
    rsgcryInitCrypt MAXFNAME fuel ctx fname 119 w = Some (RS_RET_EI_INVLD_FILE, None, w') /\
    w_files w' = w_files w.
Proof.
  intros Hopen Hkey Hsetiv Hino Hrd Hhead.
  unfold rsgcryInitCrypt. cbn [gcryfileConstruct ret fst snd].
  rewrite Hopen. cbn [gf_chd gf_ctx set_chd set_blkLength set_mode].
  rewrite bool_decide_eq_false_2 by tauto. rewrite Hkey.
  rewrite bool_decide_eq_false_2 by tauto.
  cbn [Z.eqb Pos.eqb].
  match goal with
  | |- context [seedIV (?g, w)] => set (g1 := g)
  end.
  destruct (seedIV_spec g1 w) as (iv & w1 & Hseed & _ & Hfiles1 & _).
  rewrite Hseed.
  specialize (Hsetiv iv).
  change (gf_chd g1) with h1.
  change (gf_blkLength g1) with (u64 (gcry_cipher_get_algo_blklen (ctx_algo ctx))).
  destruct (gcry_cipher_setiv h1 (Some iv) _) as [e h2].
  cbn [fst] in Hsetiv. subst e.
  rewrite bool_decide_eq_false_2 by tauto.
  set (g2 := set_chd h2 g1).
  destruct (eiOpenAppend_invalid g2 w1 ino eq_refl ltac:(rewrite Hfiles1; exact Hino) Hrd Hhead)
    as (w2 & Happend & Hfiles2 & _).
  unfold CHKiRet, bind. rewrite Happend. unfold ret.
  unfold rsgcryInitCrypt_finalize, free, gcryfileDestruct, eiClose, bind, getf, ret.
  cbn [fst snd].
  change (gf_fd g2) with (-1). cbn [Z.eqb Pos.eqb fst snd].
  eexists. split; [reflexivity |].
  cbn [log w_files]. now rewrite Hfiles2.
Qed.

(** X13: closing a session that is writing its side-file, on a device with
    room.  [gcryfileDestruct] returns 0; the side-file ends with the record
    [END:<offset>], the offset in decimal notation; the descriptor is closed;
    no other file and no other descriptor has changed. *)
Theorem gcryfileDestruct_closes_side_file (gf : gcryfile_s) (w : world) (data : list Z)
    (offs : Z) :
  writing (gf, w) data ->
  - 2 ^ 63 <= offs < 2 ^ 63 ->
  Z.of_nat (length (END_record offs)) <= w_space w ->
  exists w' : world,
    gcryfileDestruct (Some gf) offs w = (0, w') /\
    i_data <$> w_files w' !! gf_eiName gf = Some (data ++ bytes "END:" ++ lltoa offs ++ [10]) /\
    decimal_value (lltoa offs) = Some offs /\
    w_fds w' !! gf_fd gf = None /\
    (forall p : string, p ≠ gf_eiName gf -> w_files w' !! p = w_files w !! p) /\
    (forall fd : Z, fd ≠ gf_fd gf -> w_fds w' !! fd = w_fds w !! fd).
Proof.
  intros Hwr Hoffs Hroom.
  destruct (eiClose_writing gf w data offs Hwr Hoffs Hroom)
    as (w1 & Hclose & (ino & Hino & Hdata & _) & Hfd & Hfiles & Hfds).
  unfold gcryfileDestruct. rewrite Hclose. unfold free. cbn [fst snd].
  eexists. split; [reflexivity |]. cbn [log w_files w_fds set_fd gf_eiName].
  split; [rewrite Hino; cbn; now rewrite Hdata |].
  split; [apply lltoa_spec; exact Hoffs |].
  split; [exact Hfd |]. split; assumption.
Qed.

(** X25: a log file is opened for writing, closed at the offset [offs] and
    then opened for reading, with the same context.  When there was no
    side-file, the cipher accepts key and IV and the device has room, all
    three calls succeed, the side-file holds the [FILETYPE] line, the [IV]
    record and the [END] record, and the session that reads has the cipher
    handle of the session that wrote: the same key and the same IV.  The
    bytes of the IV come from the entropy device or from fresh memory; a
    block of the cipher has fewer than 510 bytes, so that the [IV] record
    is within the limit of a value. *)
Theorem rsgcryInitCrypt_read_after_write (MAXFNAME fuel : nat) (ctx : gcryctx_s)
    (fname : string) (w : world) (h0 h1 : gcry_cipher_hd_t) (offs : Z) :
  gcry_cipher_open (ctx_algo ctx) (ctx_mode ctx) 0 = (0, h0) ->
  gcry_cipher_setkey h0 (ctx_key ctx) (ctx_keyLen ctx) = (0, h1) ->
  (forall iv : list Z,
      fst (gcry_cipher_setiv h1 (Some iv) (u64 (gcry_cipher_get_algo_blklen (ctx_algo ctx)))) = 0) ->
  u64 (gcry_cipher_get_algo_blklen (ctx_algo ctx)) < 510 ->
  w_files w !! String.substring 0 MAXFNAME (fname +:+ ENCINFO_SUFFIX) = None ->
  2 * u64 (gcry_cipher_get_algo_blklen (ctx_algo ctx)) + 62 <= w_space w ->
  (forall n : nat, is_byte (w_junk w n)) ->
  (forall ino : inode,
      w_files w !! "/dev/urandom"%string = Some ino -> Forall is_byte (i_data ino)) ->
  - 2 ^ 63 <= offs < 2 ^ 63 ->
  exists (iv : list Z) (gfw gfr : gcryfile_s) (w1 w2 w3 : world),
    rsgcryInitCrypt MAXFNAME fuel ctx fname 119 w = Some (RS_RET_OK, Some gfw, w1) /\
    gcryfileDestruct (Some gfw) offs w1 = (0, w2) /\
    i_data <$> w_files w2 !! String.substring 0 MAXFNAME (fname +:+ ENCINFO_SUFFIX)
    = Some (filetype_line ++ IV_record iv ++ END_record offs) /\
    rsgcryInitCrypt MAXFNAME (S fuel) ctx fname 114 w2 = Some (RS_RET_OK, Some gfr, w3) /\
    gf_chd gfr = gf_chd gfw /\
    gcry_cipher_setiv h1 (Some iv) (u64 (gcry_cipher_get_algo_blklen (ctx_algo ctx)))
    = (0, gf_chd gfw).
Proof.
  intros Hopen Hkey Hsetiv Hsmall Hnone Hroom Hjunk Hdev Hoffs.
  set (blk := u64 (gcry_cipher_get_algo_blklen (ctx_algo ctx))) in *.
  set (name := String.substring 0 MAXFNAME (fname +:+ ENCINFO_SUFFIX)) in *.
  assert (Hblk0 : 0 <= blk) by (subst blk; unfold u64; apply Z.mod_pos_bound; lia).
  destruct (lltoa_spec offs Hoffs) as [Hdigits _].
  assert (Hend : Z.of_nat (length (END_record offs)) <= 25).
  { unfold END_record. rewrite !length_app. cbn [length bytes]. lia. }
  destruct (rsgcryInitCrypt_write MAXFNAME fuel ctx fname w h0 h1 name blk eq_refl eq_refl
              Hopen Hkey Hsetiv ltac:(lia) Hnone ltac:(lia))
    as (iv & gfw & w1 & Hwrite & Hwr & Hlen & Hiv & Hname & _ & _ & _ & Hspace & _ & Hbytes).
  specialize (Hbytes Hjunk Hdev).
  destruct (eiClose_writing gfw w1 _ offs Hwr Hoffs ltac:(lia))
    as (w2' & Hclose & (ino & Hino & Hdata & Hrd) & _).
  rewrite Hname in Hino.
  set (w2 := log (EvFree ObjGcryfile) (log (EvFree ObjEiName) w2')).
  assert (Hdestruct : gcryfileDestruct (Some gfw) offs w1 = (0, w2)).
  { unfold gcryfileDestruct. rewrite Hclose. reflexivity. }
  set (gr := set_chd h1
               (set_chd h0
                  (set_blkLength blk
                     (set_mode 114 (snd (fst (gcryfileConstruct MAXFNAME ctx fname w2))))))).
  destruct (readIV_reads fuel gr w2 ino iv (END_record offs) None
              eq_refl eq_refl eq_refl Hino Hrd
              ltac:(rewrite Hdata, <- app_assoc; reflexivity) Hbytes
              ltac:(change (gf_blkLength gr) with blk; lia)
              ltac:(change (gf_blkLength gr) with blk; lia))
    as ([g3 w3] & Hread & (Hchd & Hblk3 & _) & _).
  cbn [fst] in Hchd, Hblk3.
  change (gf_chd gr) with h1 in Hchd. change (gf_blkLength gr) with blk in Hblk3.
  pose proof (rsgcryInitCrypt_read_ignores_readIV MAXFNAME (S fuel) ctx fname w2 w3 h0 h1
                (gf_chd gfw) RS_RET_OK (Some iv) g3 Hopen Hkey Hread
                ltac:(rewrite Hchd, Hblk3; exact Hiv)) as Hrun.
  exists iv, gfw. eexists. exists w1, w2. eexists.
  split; [exact Hwrite |]. split; [exact Hdestruct |].
  split; [subst w2; cbn [log w_files]; rewrite Hino; cbn; rewrite Hdata, <- app_assoc; reflexivity |].
  split; [exact Hrun |]. split; [reflexivity | exact Hiv].
Qed.

End Life.

(** ** The end of the side-file *)

Section EndOfFile.

Context {G : Gcrypt}.

#[local] Opaque READBUF_SIZE.

(** [eiReadChar] when every byte of the side-file has been delivered. *)
Lemma eiReadChar_eof (s : sess) :
  reading s ->
  pending s = [] ->
  exists s' : sess,
    eiReadChar s = (EOF, s') /\ reading s' /\ pending s' = [] /\
    same_cipher (fst s) (fst s').
Proof.
  destruct s as [g w]. intros ((o & Hfd & Hacc & [ino Hino]) & Hidx & Hmax & Hbuf) Hpend.
  cbn [fst snd] in *.
  pose proof READBUF_SIZE_range as Hsize.
  apply app_eq_nil in Hpend as [Hempty Hun]. cbn [fst snd] in Hempty, Hun.
  assert (Hge : gf_readBufMaxIdx g <= gf_readBufIdx g).
  { unfold buffered in Hempty. destruct (gf_readBuf g) as [rb |]; [| lia].
    apply (f_equal length) in Hempty. rewrite length_drop, length_take in Hempty.
    cbn [length] in Hempty. lia. }
  unfold unread in Hun. rewrite Hfd, Hino in Hun.
  set (rb0 := default (w_junk w <$> seq 0 (Z.to_nat READBUF_SIZE)) (gf_readBuf g)).
  assert (Hrb0 : Z.of_nat (length rb0) = READBUF_SIZE).
  { subst rb0. destruct (gf_readBuf g); cbn [default from_option id].
    - exact Hbuf.
    - rewrite length_fmap, length_seq. lia. }
  assert (Hprep : (match gf_readBuf g with
                   | Some _ => ret tt
                   | None => bind (sys (malloc READBUF_SIZE))
                               (fun b => setf (set_readBuf (Some b)))
                   end) (g, w) = (tt, (set_readBuf (Some rb0) g, w))).
  { subst rb0. destruct (gf_readBuf g) eqn:Hrb; cbn [default from_option id].
    - unfold ret. now rewrite (set_readBuf_same g l Hrb).
    - reflexivity. }
  eexists. split; [| split; [| split]].
  - unfold eiReadChar, bind at 1 2 3, getf at 1 2. cbn [fst snd].
    destruct (Z.leb_spec (gf_readBufMaxIdx g) (gf_readBufIdx g)); [| lia].
    unfold eiRead, bind at 1 2, getf at 1. cbn [fst snd].
    rewrite Hprep.
    unfold bind, getf, setf, ret, sys, sys_read. cbn [fst snd gf_fd set_readBuf].
    rewrite Hfd, Hacc, Hino, Hun, take_nil.
    cbn [fst snd set_readBuf gf_readBuf default from_option id length Z.of_nat Z.leb Z.compare].
    rewrite blit_nil. reflexivity.
  - unfold reading. cbn [fst snd set_readBuf gf_fd gf_readBufIdx gf_readBufMaxIdx gf_readBuf
                         log with_fds w_fds w_files].
    split; [| auto].
    eexists. rewrite lookup_insert_eq. split; [reflexivity |].
    cbn [of_flags of_path]. split; [exact Hacc |]. rewrite Hino. eauto.
  - unfold pending, buffered, unread.
    cbn [fst snd set_readBuf gf_fd gf_readBufIdx gf_readBufMaxIdx gf_readBuf
         log with_fds w_fds w_files].
    rewrite lookup_insert_eq. cbn [of_path of_pos]. rewrite Hino.
    cbn [length]. rewrite Nat.add_0_r, Hun, app_nil_r.
    apply drop_ge. rewrite length_take. lia.
  - repeat split.
Qed.

(** The first loop of [eiGetRecord] when the side-file ends before a
    colon. *)
Lemma eiGetRecord_rectype_eof (t : list Z) :
  forall (fuel : nat) (i : nat) (c0 : Z) (rectype : list Z) (s : sess),
    reading s ->
    pending s = t ->
    Forall is_byte t -> 58 ∉ t ->
    Z.of_nat (i + length t) < EIF_MAX_RECTYPE_LEN ->
    (length t < fuel)%nat ->
    exists (i' : Z) (rectype' : list Z) (s' : sess),
      eiGetRecord_rectype fuel (Z.of_nat i) c0 rectype s = ((i', EOF, rectype'), s').
Proof.
  induction t as [| c t IH]; intros fuel i c0 rectype s Hs Hpend Hbytes Hcolon Hmax Hfuel.
  - destruct fuel as [| fuel]; [cbn in Hfuel; lia |].
    destruct (eiReadChar_eof s Hs Hpend) as (s' & Hrun & _).
    cbn [eiGetRecord_rectype length] in *.
    destruct (Z.ltb_spec (Z.of_nat i) EIF_MAX_RECTYPE_LEN); [| lia].
    unfold bind. rewrite Hrun. cbn [orb Z.eqb Pos.eqb EOF ret]. eexists _, _, _. reflexivity.
  - destruct fuel as [| fuel]; [cbn in Hfuel; lia |].
    destruct (eiReadChar_next s c t Hs Hpend) as (s1 & Hrun & Hs1 & Hp1 & _).
    apply Forall_cons in Hbytes as [Hc Hbytes].
    apply not_elem_of_cons in Hcolon as [Hc58 Hcolon].
    cbn [length] in Hmax, Hfuel. unfold is_byte in Hc.
    destruct (IH fuel (S i) c (<[i := c]> rectype) s1 Hs1 Hp1 Hbytes Hcolon
                ltac:(lia) ltac:(lia))
      as (i' & rectype' & s' & Hloop).
    exists i', rectype', s'. cbn [eiGetRecord_rectype].
    destruct (Z.ltb_spec (Z.of_nat i) EIF_MAX_RECTYPE_LEN); [| lia].
    unfold bind at 1. rewrite Hrun.
    destruct (Z.eqb_spec c 58) as [-> | _]; [congruence |].
    destruct (Z.eqb_spec c EOF) as [-> | _]; [unfold EOF in Hc; lia |].
    cbn [orb]. rewrite u16_small by (unfold EIF_MAX_RECTYPE_LEN in *; lia).
    rewrite Z.mod_small by lia. rewrite poke_at.
    replace (Z.of_nat i + 1) with (Z.of_nat (S i)) by lia.
    exact Hloop.
Qed.

(** The second loop of [eiGetRecord] when the side-file ends before a line
    feed. *)
Lemma eiGetRecord_value_eof (v : list Z) :
  forall (fuel : nat) (i j : nat) (c0 : Z) (value : list Z) (s : sess),
    reading s ->
    pending s = v ->
    Forall is_byte v -> 10 ∉ v ->
    (j <= i)%nat ->
    Z.of_nat (i + length v) < EIF_MAX_VALUE_LEN ->
    (length v < fuel)%nat ->
    exists (j' : Z) (value' : list Z) (s' : sess),
      eiGetRecord_value fuel (Z.of_nat i) (Z.of_nat j) c0 value s = ((j', EOF, value'), s').
Proof.
  induction v as [| c v IH]; intros fuel i j c0 value s Hs Hpend Hbytes Hnl Hji Hmax Hfuel.
  - destruct fuel as [| fuel]; [cbn in Hfuel; lia |].
    destruct (eiReadChar_eof s Hs Hpend) as (s' & Hrun & _).
    cbn [eiGetRecord_value length] in *.
    destruct (Z.ltb_spec (Z.of_nat i) EIF_MAX_VALUE_LEN); [| lia].
    unfold bind. rewrite Hrun. cbn [orb Z.eqb Pos.eqb EOF ret]. eexists _, _, _. reflexivity.
  - destruct fuel as [| fuel]; [cbn in Hfuel; lia |].
    destruct (eiReadChar_next s c v Hs Hpend) as (s1 & Hrun & Hs1 & Hp1 & _).
    apply Forall_cons in Hbytes as [Hc Hbytes].
    apply not_elem_of_cons in Hnl as [Hc10 Hnl].
    cbn [length] in Hmax, Hfuel. unfold is_byte in Hc.
    destruct (IH fuel (S i) (S j) c (<[j := c]> value) s1 Hs1 Hp1 Hbytes Hnl
                ltac:(lia) ltac:(lia) ltac:(lia))
      as (j' & value' & s' & Hloop).
    exists j', value', s'. cbn [eiGetRecord_value].
    destruct (Z.ltb_spec (Z.of_nat i) EIF_MAX_VALUE_LEN); [| lia].
    unfold bind at 1. rewrite Hrun.
    destruct (Z.eqb_spec c 10) as [-> | _]; [congruence |].
    destruct (Z.eqb_spec c EOF) as [-> | _]; [unfold EOF in Hc; lia |].
    cbn [orb]. rewrite !u16_small by (unfold EIF_MAX_VALUE_LEN in *; lia).
    rewrite Z.mod_small by lia. rewrite poke_at.
    replace (Z.of_nat i + 1) with (Z.of_nat (S i)) by lia.
    replace (Z.of_nat j + 1) with (Z.of_nat (S j)) by lia.
    exact Hloop.
Qed.

End EndOfFile.

Lemma elem_of_take_in (x : Z) (n : nat) (l : list Z) : x ∈ take n l -> x ∈ l.
Proof. intros Hin. rewrite <- (take_drop n l). apply elem_of_app. now left. Qed.

(** What [strcmp] and [strlen] see of an array does not go past its first
    NUL. *)
Lemma c_str_app_NUL (t rest : list Z) : c_str (t ++ 0 :: rest) = c_str t.
Proof.
  induction t as [| c t IH]; [reflexivity |].
  cbn [app c_str]. destruct (c =? 0); [reflexivity | now rewrite IH].
Qed.

Lemma Forall_c_str (P : Z -> Prop) (l : list Z) : Forall P l -> Forall P (c_str l).
Proof.
  intros Hl. destruct (c_str_prefix l) as [rest Heq]. rewrite Heq in Hl.
  now apply Forall_app in Hl as [Hl _].
Qed.

Lemma length_c_str (l : list Z) : (length (c_str l) <= length l)%nat.
Proof.
  destruct (c_str_prefix l) as [rest Heq]. rewrite Heq at 2. rewrite length_app. lia.
Qed.

(** The decoding loop of [eiGetIV] on the characters that [strlen] counted:
    it succeeds exactly when each of them is a lowercase hexadecimal digit. *)
Lemma eiGetIV_loop_verdict (value iv : list Z) (fuel : nat) :
  Forall is_byte (c_str value) ->
  Z.of_nat (length (c_str value)) < 2 ^ 16 ->
  (length (c_str value) <= fuel)%nat ->
  (Forall is_lower_hex (c_str value) ->
   fst (eiGetIV_loop fuel value (strlen value) 0 0 iv) = RS_RET_OK) /\
  (¬ Forall is_lower_hex (c_str value) ->
   fst (eiGetIV_loop fuel value (strlen value) 0 0 iv) = RS_RET_ERR).
Proof.
  intros Hbytes Hfit Hfuel. unfold strlen.
  assert (Hpeek : forall k : nat, (k < length (c_str value))%nat ->
                    peek value (Z.of_nat k) = default 0 (c_str value !! k)).
  { intros k Hk. rewrite peek_c_str by exact Hk. apply peek_at. }
  split.
  - intros Hhex.
    apply (eiGetIV_loop_digits value (length (c_str value)) fuel 0 0 iv); [lia |].
    intros k Hk. rewrite Hpeek by lia.
    destruct (lookup_lt_is_Some_2 (c_str value) k ltac:(lia)) as [c Hc]. rewrite Hc.
    apply nibble_of_hex. eapply Forall_lookup_1; eassumption.
  - intros Hnot.
    assert (Hdec : forall c : Z, Decision (is_lower_hex c))
      by (intros c; unfold is_lower_hex; apply _).
    apply (not_Forall_Exists _) in Hnot.
    apply Exists_exists in Hnot as (c & Hin & Hc).
    apply list_elem_of_lookup in Hin as [k Hk].
    pose proof (lookup_lt_Some _ _ _ Hk) as Hklt.
    apply (eiGetIV_loop_other value (length (c_str value)) fuel 0 0 iv k); [lia | lia | lia |].
    rewrite Hpeek by lia. rewrite Hk. cbn [default from_option id].
    apply nibble_of_not_hex; [| exact Hc].
    exact (Forall_lookup_1 _ _ _ _ Hbytes Hk).
Qed.

Section Records.

Context {G : Gcrypt}.

(** X5: [eiGetRecord] never returns a record that is not complete.  When the
    bytes that are left of the side-file hold no colon, or hold no line feed
    behind their first colon, the call returns [RS_RET_ERR], however many
    bytes there are: it stops at the end of the file or at the bound of its
    loop. *)
Theorem eiGetRecord_incomplete (rectype value : list Z) (s : sess) :
  reading s ->
  Forall is_byte (pending s) ->
  (58 ∉ pending s \/
   exists t v : list Z, pending s = t ++ 58 :: v /\ (58 ∉ t) /\ (10 ∉ v)) ->
  EIF_MAX_RECTYPE_LEN <= Z.of_nat (length rectype) ->
  exists (rectype' value' : list Z) (s' : sess),
    eiGetRecord rectype value s = ((RS_RET_ERR, rectype', value'), s').
Proof.
  intros Hs Hbytes Hcase Hroom.
  assert (Hshort : forall t : list Z,
             Forall is_byte t -> 58 ∉ t -> EIF_MAX_RECTYPE_LEN <= Z.of_nat (length t) ->
             forall rest : list Z, pending s = t ++ rest ->
             exists (rectype' value' : list Z) (s' : sess),
               eiGetRecord rectype value s = ((RS_RET_ERR, rectype', value'), s')).
  { intros t Ht Hcolon Hlong rest Hpend.
    apply (eiGetRecord_rectype_limit (take 31 t) (drop 31 t ++ rest) rectype value s Hs).
    - now rewrite app_assoc, take_drop.
    - now apply Forall_take.
    - intros Hin. apply Hcolon. eapply elem_of_take_in; exact Hin.
    - rewrite length_take. unfold EIF_MAX_RECTYPE_LEN in *. lia. }
  destruct Hcase as [Hcolon | (t & v & Hpend & Hcolon & Hnl)].
  - destruct (Z.le_gt_cases EIF_MAX_RECTYPE_LEN (Z.of_nat (length (pending s)))) as [Hlong | Hlt].
    + apply (Hshort (pending s) Hbytes Hcolon Hlong []). now rewrite app_nil_r.
    + destruct (eiGetRecord_rectype_eof (pending s) (Z.to_nat EIF_MAX_RECTYPE_LEN) 0 0 rectype s
                  Hs eq_refl Hbytes Hcolon ltac:(lia) ltac:(lia))
        as (i' & rectype' & s' & Hloop).
      unfold eiGetRecord, bind. change (Z.of_nat 0) with 0 in Hloop. rewrite Hloop.
      rewrite bool_decide_eq_true_2 by (unfold EOF; lia). eexists _, _, _. reflexivity.
  - rewrite Hpend in Hbytes. apply Forall_app in Hbytes as [Hbt Hbv].
    apply Forall_cons in Hbv as [_ Hbv].
    destruct (Z.le_gt_cases EIF_MAX_RECTYPE_LEN (Z.of_nat (length t))) as [Hlong | Hlt].
    { exact (Hshort t Hbt Hcolon Hlong (58 :: v) Hpend). }
    destruct (Z.le_gt_cases EIF_MAX_VALUE_LEN (Z.of_nat (length t + 1 + length v))) as [Hvlong | Hvlt].
    + set (n := (Z.to_nat EIF_MAX_VALUE_LEN - length t - 1)%nat).
      apply (eiGetRecord_value_limit t (take n v) (drop n v) rectype value s Hs).
      * now rewrite take_drop.
      * exact Hbt.
      * now apply Forall_take.
      * exact Hcolon.
      * intros Hin. apply Hnl. eapply elem_of_take_in; exact Hin.
      * exact Hlt.
      * rewrite length_take. subst n. unfold EIF_MAX_VALUE_LEN, EIF_MAX_RECTYPE_LEN in *. lia.
      * unfold EIF_MAX_RECTYPE_LEN in *. lia.
    + destruct (eiGetRecord_rectype_reads t (Z.to_nat EIF_MAX_RECTYPE_LEN) 0 0 rectype v s
                  Hs Hpend Hbt Hcolon ltac:(lia) ltac:(lia)
                  ltac:(unfold EIF_MAX_RECTYPE_LEN in *; lia))
        as (s1 & Hloop1 & Hs1 & Hp1 & _).
      destruct (eiGetRecord_value_eof v (Z.to_nat EIF_MAX_VALUE_LEN) (S (length t)) 0 58 value s1
                  Hs1 Hp1 Hbv Hnl ltac:(lia) ltac:(lia)
                  ltac:(unfold EIF_MAX_VALUE_LEN in *; lia))
        as (j' & value' & s2 & Hloop2).
      unfold eiGetRecord, bind. change (Z.of_nat 0) with 0 in Hloop1, Hloop2.
      rewrite Hloop1. rewrite bool_decide_eq_false_2 by tauto.
      rewrite u16_small by (unfold EIF_MAX_RECTYPE_LEN in *; lia).
      replace (Z.of_nat (0 + length t) + 1) with (Z.of_nat (S (length t))) by lia.
      rewrite Hloop2. rewrite bool_decide_eq_true_2 by (unfold EOF; lia).
      eexists _, _, _. reflexivity.
Qed.

(** X6: [eiGetRecord] takes the records of a side-file one after the other.
    When two records [<type>:<value>] are to be read, followed by [rest],
    the first call returns the first record, the second call the second,
    each as C strings in the two arrays, and [rest] is left to be read.
    Types and values hold no colon, line feed or NUL where that would end
    them early, and are within the limits of the loops. *)
Theorem eiGetRecord_twice (t1 v1 t2 v2 rest rectype value : list Z) (s : sess) :
  reading s ->
  pending s = (t1 ++ [58] ++ v1 ++ [10]) ++ (t2 ++ [58] ++ v2 ++ [10]) ++ rest ->
  Forall is_byte (t1 ++ v1 ++ t2 ++ v2) ->
  (58 ∉ t1) -> (58 ∉ t2) -> (10 ∉ v1) -> (10 ∉ v2) ->
  (0 ∉ t1 ++ v1 ++ t2 ++ v2) ->
  Z.of_nat (length t1) < EIF_MAX_RECTYPE_LEN ->
  Z.of_nat (length t2) < EIF_MAX_RECTYPE_LEN ->
  Z.of_nat (length t1 + 1 + length v1) < EIF_MAX_VALUE_LEN ->
  Z.of_nat (length t2 + 1 + length v2) < EIF_MAX_VALUE_LEN ->
  Z.of_nat (length rectype) = EIF_MAX_RECTYPE_LEN + 1 ->
  Z.of_nat (length value) = EIF_MAX_VALUE_LEN + 1 ->
  exists (r1 x1 r2 x2 : list Z) (s1 s2 : sess),
    eiGetRecord rectype value s = ((RS_RET_OK, r1, x1), s1) /\
    c_str r1 = t1 /\ c_str x1 = v1 /\
    eiGetRecord rectype value s1 = ((RS_RET_OK, r2, x2), s2) /\
    c_str r2 = t2 /\ c_str x2 = v2 /\
    reading s2 /\ pending s2 = rest.
Proof.
  intros Hs Hpend Hbytes Hc1 Hc2 Hn1 Hn2 Hzero Ht1 Ht2 Hv1 Hv2 Hrt Hvl.
  apply Forall_app in Hbytes as [Hbt1 Hbytes]. apply Forall_app in Hbytes as [Hbv1 Hbytes].
  apply Forall_app in Hbytes as [Hbt2 Hbv2].
  assert (Hz : (0 ∉ t1) /\ (0 ∉ v1) /\ (0 ∉ t2) /\ (0 ∉ v2)).
  { repeat split; intros Hin; apply Hzero; rewrite !elem_of_app; auto. }
  destruct Hz as (Hzt1 & Hzv1 & Hzt2 & Hzv2).
  destruct (eiGetRecord_reads t1 v1 ((t2 ++ [58] ++ v2 ++ [10]) ++ rest) rectype value s Hs
              ltac:(rewrite Hpend, <- !app_assoc; reflexivity)
              Hbt1 Hbv1 Hc1 Hn1 Hzt1 Hzv1 Ht1 Hv1
              ltac:(unfold EIF_MAX_RECTYPE_LEN in *; lia)
              ltac:(unfold EIF_MAX_VALUE_LEN in *; lia))
    as (r1 & x1 & s1 & Hrun1 & Hr1 & Hx1 & Hs1 & Hp1 & _).
  destruct (eiGetRecord_reads t2 v2 rest rectype value s1 Hs1
              ltac:(rewrite Hp1, <- !app_assoc; reflexivity)
              Hbt2 Hbv2 Hc2 Hn2 Hzt2 Hzv2 Ht2 Hv2
              ltac:(unfold EIF_MAX_RECTYPE_LEN in *; lia)
              ltac:(unfold EIF_MAX_VALUE_LEN in *; lia))
    as (r2 & x2 & s2 & Hrun2 & Hr2 & Hx2 & Hs2 & Hp2 & _).
  exists r1, x1, r2, x2, s1, s2.
  split; [exact Hrun1 |]. split; [exact Hr1 |]. split; [exact Hx1 |].
  split; [exact Hrun2 |]. split; [exact Hr2 |]. split; [exact Hx2 |].
  split; [exact Hs2 | exact Hp2].
Qed.

(** X4: the limits of [eiGetRecord].  On a record [<type>:<value>] followed
    by a line feed, it returns [RS_RET_OK] exactly when the type has fewer
    than [EIF_MAX_RECTYPE_LEN] bytes and type, colon and value together have
    fewer than [EIF_MAX_VALUE_LEN] bytes: the second loop goes on counting
    where the first one stopped.  Otherwise it returns [RS_RET_ERR]. *)
Theorem eiGetRecord_accepts_iff (t v rest rectype value : list Z) (s : sess) :
  reading s ->
  pending s = t ++ [58] ++ v ++ [10] ++ rest ->
  Forall is_byte (t ++ v) ->
  (58 ∉ t) -> (10 ∉ v) -> (0 ∉ t ++ v) ->
  Z.of_nat (length rectype) = EIF_MAX_RECTYPE_LEN + 1 ->
  Z.of_nat (length value) = EIF_MAX_VALUE_LEN + 1 ->
  (fst (fst (fst (eiGetRecord rectype value s))) = RS_RET_OK <->
   Z.of_nat (length t) < EIF_MAX_RECTYPE_LEN /\
   Z.of_nat (length t + 1 + length v) < EIF_MAX_VALUE_LEN) /\
  (fst (fst (fst (eiGetRecord rectype value s))) = RS_RET_OK \/
   fst (fst (fst (eiGetRecord rectype value s))) = RS_RET_ERR).
Proof.
  intros Hs Hpend Hbytes Hcolon Hnl Hzero Hrt Hvl.
  apply Forall_app in Hbytes as [Hbt Hbv].
  assert (Hz : (0 ∉ t) /\ (0 ∉ v)) by (split; intros Hin; apply Hzero; rewrite elem_of_app; auto).
  destruct Hz as [Hzt Hzv].
  destruct (Z.lt_ge_cases (Z.of_nat (length t)) EIF_MAX_RECTYPE_LEN) as [Htlt | Htge].
  - destruct (Z.lt_ge_cases (Z.of_nat (length t + 1 + length v)) EIF_MAX_VALUE_LEN)
      as [Hvlt | Hvge].
    + destruct (eiGetRecord_reads t v rest rectype value s Hs Hpend Hbt Hbv Hcolon Hnl Hzt Hzv
                  Htlt Hvlt ltac:(unfold EIF_MAX_RECTYPE_LEN in *; lia)
                  ltac:(unfold EIF_MAX_VALUE_LEN in *; lia))
        as (r' & x' & s' & Hrun & _).
      rewrite Hrun. cbn [fst]. split; [tauto | now left].
    + set (n := (Z.to_nat EIF_MAX_VALUE_LEN - length t - 1)%nat).
      destruct (eiGetRecord_value_limit t (take n v) (drop n v ++ [10] ++ rest) rectype value s Hs)
        as (r' & x' & s' & Hrun).
      * rewrite Hpend. cbn [app]. now rewrite (app_assoc (take n v)), take_drop.
      * exact Hbt.
      * now apply Forall_take.
      * exact Hcolon.
      * intros Hin. apply Hnl. eapply elem_of_take_in; exact Hin.
      * exact Htlt.
      * rewrite length_take. subst n. unfold EIF_MAX_VALUE_LEN, EIF_MAX_RECTYPE_LEN in *. lia.
      * unfold EIF_MAX_RECTYPE_LEN in *. lia.
      * rewrite Hrun. cbn [fst]. split; [| now right]. split; [discriminate | lia].
  - destruct (eiGetRecord_rectype_limit (take 31 t) (drop 31 t ++ [58] ++ v ++ [10] ++ rest)
                rectype value s Hs)
      as (r' & x' & s' & Hrun).
    + rewrite Hpend. now rewrite (app_assoc (take 31 t)), take_drop.
    + now apply Forall_take.
    + intros Hin. apply Hcolon. eapply elem_of_take_in; exact Hin.
    + rewrite length_take. unfold EIF_MAX_RECTYPE_LEN in *. lia.
    + rewrite Hrun. cbn [fst]. split; [| now right]. split; [discriminate | lia].
Qed.

(** [eiGetRecord] on a record within its limits, whatever bytes the type and
    the value hold: the arrays hold the type and the value, each followed by
    the NUL that [eiGetRecord] writes behind it. *)
Lemma eiGetRecord_arrays (t v rest rectype value : list Z) (s : sess) :
  reading s ->
  pending s = t ++ 58 :: v ++ 10 :: rest ->
  Forall is_byte t -> Forall is_byte v ->
  58 ∉ t -> 10 ∉ v ->
  Z.of_nat (length t) < EIF_MAX_RECTYPE_LEN ->
  Z.of_nat (length t + 1 + length v) < EIF_MAX_VALUE_LEN ->
  (length t < length rectype)%nat ->
  (length v < length value)%nat ->
  exists s' : sess,
    eiGetRecord rectype value s
    = ((RS_RET_OK, t ++ 0 :: drop (S (length t)) rectype,
        v ++ 0 :: drop (S (length v)) value), s') /\
    reading s' /\ pending s' = rest.
Proof.
  intros Hs Hpend Hbt Hbv Hcolon Hnl Htmax Hvmax Htroom Hvroom.
  destruct (eiGetRecord_rectype_reads t (Z.to_nat EIF_MAX_RECTYPE_LEN) 0 0 rectype
              (v ++ 10 :: rest) s Hs Hpend Hbt Hcolon ltac:(lia) ltac:(lia) ltac:(lia))
    as (s1 & Hloop1 & Hs1 & Hp1 & _).
  destruct (eiGetRecord_value_reads v (Z.to_nat EIF_MAX_VALUE_LEN) (S (length t)) 0 58 value
              rest s1 Hs1 Hp1 Hbv Hnl ltac:(lia) ltac:(lia)
              ltac:(unfold EIF_MAX_VALUE_LEN in *; lia) ltac:(lia))
    as (s2 & Hloop2 & Hs2 & Hp2 & _).
  unfold eiGetRecord, bind. change (Z.of_nat 0) with 0 in Hloop1, Hloop2.
  rewrite Hloop1. rewrite bool_decide_eq_false_2 by tauto.
  rewrite u16_small by (unfold EIF_MAX_RECTYPE_LEN in *; lia).
  replace (Z.of_nat (0 + length t) + 1) with (Z.of_nat (S (length t))) by lia.
  rewrite Hloop2. rewrite bool_decide_eq_false_2 by tauto.
  rewrite !poke_terminator by assumption.
  exists s2. split; [reflexivity |]. split; assumption.
Qed.

(** [eiGetIV] on a record within the limits of [eiGetRecord]: what it does
    with the type and the value, which [strcmp] and [strlen] read as C
    strings. *)
Lemma eiGetIV_within_limits (t v rest iv : list Z) (leniv : Z) (s : sess) :
  reading s ->
  pending s = t ++ [58] ++ v ++ [10] ++ rest ->
  Forall is_byte t -> Forall is_byte v ->
  58 ∉ t -> 10 ∉ v ->
  Z.of_nat (length t) < EIF_MAX_RECTYPE_LEN ->
  Z.of_nat (length t + 1 + length v) < EIF_MAX_VALUE_LEN ->
  exists (value' : list Z) (s' : sess),
    eiGetIV iv leniv s
    = ((if bool_decide (c_str t ≠ bytes "IV") then (RS_RET_ERR, iv)
        else if bool_decide (strlen value' / 2 ≠ leniv) then (RS_RET_ERR, iv)
        else eiGetIV_loop (Z.to_nat (strlen value')) value' (strlen value') 0 0 iv), s') /\
    c_str value' = c_str v /\ reading s' /\ pending s' = rest.
Proof.
  intros Hs Hpend Hbt Hbv Hcolon Hnl Htmax Hvmax.
  destruct s as [g w].
  destruct (eiGetRecord_arrays t v rest
              (w_junk w <$> seq 0 (Z.to_nat (EIF_MAX_RECTYPE_LEN + 1)))
              (w_junk w <$> seq 0 (Z.to_nat (EIF_MAX_VALUE_LEN + 1)))
              (g, w) Hs Hpend Hbt Hbv Hcolon Hnl Htmax Hvmax
              ltac:(rewrite length_fmap, length_seq; unfold EIF_MAX_RECTYPE_LEN in *; lia)
              ltac:(rewrite length_fmap, length_seq; unfold EIF_MAX_VALUE_LEN in *; lia))
    as (s' & Hrun & Hs' & Hp').
  unfold eiGetIV, bind, sys, uninit, malloc. cbn [fst snd].
  rewrite Hrun.
  exists (v ++ 0 :: drop (S (length v))
                      (w_junk w <$> seq 0 (Z.to_nat (EIF_MAX_VALUE_LEN + 1)))), s'.
  split; [| split; [apply c_str_app_NUL | split; [exact Hs' | exact Hp']]].
  unfold streq. rewrite c_str_app_NUL. change (c_str (bytes "IV")) with (bytes "IV").
  destruct (decide (c_str t = bytes "IV")) as [Ht | Ht].
  - rewrite (bool_decide_eq_true_2 _ Ht).
    rewrite (bool_decide_eq_false_2 (c_str t ≠ bytes "IV")) by tauto. cbn [negb].
    case_bool_decide; reflexivity.
  - rewrite (bool_decide_eq_false_2 _ Ht).
    rewrite (bool_decide_eq_true_2 (c_str t ≠ bytes "IV")) by exact Ht. reflexivity.
Qed.

(** [eiGetIV] on a record beyond the limits of [eiGetRecord]. *)
Lemma eiGetIV_beyond_limits (t v rest iv : list Z) (leniv : Z) (s : sess) :
  reading s ->
  pending s = t ++ [58] ++ v ++ [10] ++ rest ->
  Forall is_byte t -> Forall is_byte v ->
  58 ∉ t -> 10 ∉ v ->
  EIF_MAX_RECTYPE_LEN <= Z.of_nat (length t) \/
  EIF_MAX_VALUE_LEN <= Z.of_nat (length t + 1 + length v) ->
  exists s' : sess, eiGetIV iv leniv s = ((RS_RET_ERR, iv), s').
Proof.
  intros Hs Hpend Hbt Hbv Hcolon Hnl Hbeyond.
  destruct s as [g w].
  set (rectype := w_junk w <$> seq 0 (Z.to_nat (EIF_MAX_RECTYPE_LEN + 1))).
  set (value := w_junk w <$> seq 0 (Z.to_nat (EIF_MAX_VALUE_LEN + 1))).
  assert (Hrun : exists (rectype' value' : list Z) (s' : sess),
             eiGetRecord rectype value (g, w) = ((RS_RET_ERR, rectype', value'), s')).
  { destruct (Z.lt_ge_cases (Z.of_nat (length t)) EIF_MAX_RECTYPE_LEN) as [Htlt | Htge].
    - assert (Hvge : EIF_MAX_VALUE_LEN <= Z.of_nat (length t + 1 + length v)) by lia.
      set (n := (Z.to_nat EIF_MAX_VALUE_LEN - length t - 1)%nat).
      apply (eiGetRecord_value_limit t (take n v) (drop n v ++ [10] ++ rest)
               rectype value (g, w) Hs).
      + rewrite Hpend. cbn [app]. now rewrite (app_assoc (take n v)), take_drop.
      + exact Hbt.
      + now apply Forall_take.
      + exact Hcolon.
      + intros Hin. apply Hnl. eapply elem_of_take_in; exact Hin.
      + exact Htlt.
      + rewrite length_take. subst n. unfold EIF_MAX_VALUE_LEN, EIF_MAX_RECTYPE_LEN in *. lia.
      + subst rectype. rewrite length_fmap, length_seq.
        unfold EIF_MAX_RECTYPE_LEN in *. lia.
    - apply (eiGetRecord_rectype_limit (take 31 t) (drop 31 t ++ [58] ++ v ++ [10] ++ rest)
               rectype value (g, w) Hs).
      + rewrite Hpend. now rewrite (app_assoc (take 31 t)), take_drop.
      + now apply Forall_take.
      + intros Hin. apply Hcolon. eapply elem_of_take_in; exact Hin.
      + rewrite length_take. unfold EIF_MAX_RECTYPE_LEN in *. lia. }
  destruct Hrun as (rectype' & value' & s' & Hrun).
  unfold eiGetIV, bind, sys, uninit, malloc. cbn [fst snd].
  fold rectype value. rewrite Hrun. exists s'. reflexivity.
Qed.

(** X8: [eiGetIV] on a record whose type is not [IV]: it reads the record,
    returns [RS_RET_ERR] and leaves the memory for the IV as it is.  The type
    is what [strcmp] sees of it, the bytes before its first NUL byte, or all
    of it when it has none.  The record is within the limits of
    [eiGetRecord]: its type has fewer than [EIF_MAX_RECTYPE_LEN] bytes and
    type, colon and value together have fewer than [EIF_MAX_VALUE_LEN]. *)
Theorem eiGetIV_rejects_other_record (t v rest iv : list Z) (leniv : Z) (s : sess) :
  reading s ->
  pending s = t ++ [58] ++ v ++ [10] ++ rest ->
  c_str t ≠ bytes "IV" ->
  Forall is_byte (t ++ v) ->
  (58 ∉ t) -> (10 ∉ v) ->
  Z.of_nat (length t) < EIF_MAX_RECTYPE_LEN ->
  Z.of_nat (length t + 1 + length v) < EIF_MAX_VALUE_LEN ->
  exists s' : sess,
    eiGetIV iv leniv s = ((RS_RET_ERR, iv), s') /\ reading s' /\ pending s' = rest.
Proof.
  intros Hs Hpend Hother Hbytes Hcolon Hnl Htmax Hvmax.
  apply Forall_app in Hbytes as [Hbt Hbv].
  destruct (eiGetIV_within_limits t v rest iv leniv s Hs Hpend Hbt Hbv Hcolon Hnl Htmax Hvmax)
    as (value' & s' & Hrun & _ & Hs' & Hp').
  rewrite bool_decide_eq_true_2 in Hrun by exact Hother.
  exists s'. split; [exact Hrun |]. split; [exact Hs' | exact Hp'].
Qed.

(** X7: what [eiGetIV] accepts.  The next bytes of the side-file are a
    record: a type, which ends at the first colon, and a value, which ends at
    the first line feed behind that colon.  [strcmp] and [strlen] read type
    and value as C strings: of each they see the bytes before its first NUL
    byte, or all of it when it has none.  [eiGetIV] returns [RS_RET_OK]
    exactly when the record is within the limits of [eiGetRecord] (the type
    has fewer than [EIF_MAX_RECTYPE_LEN] bytes; type, colon and value together
    have fewer than [EIF_MAX_VALUE_LEN]), the type seen is [IV], half the
    length of the value seen, rounded down, is the number of bytes expected,
    and every character of the value seen is one of [0] to [9] and [a] to
    [f]; in every other case it returns [RS_RET_ERR].  Capital letters are
    not taken for digits, and what follows a NUL byte in the value is not
    looked at.  The number of bytes expected is a [size_t]. *)
Theorem eiGetIV_accepts_iff (t v rest iv : list Z) (leniv : Z) (s : sess) :
  reading s ->
  pending s = t ++ [58] ++ v ++ [10] ++ rest ->
  Forall is_byte (t ++ v) ->
  (58 ∉ t) -> (10 ∉ v) ->
  0 <= leniv < 2 ^ 64 ->
  (fst (fst (eiGetIV iv leniv s)) = RS_RET_OK <->
   Z.of_nat (length t) < EIF_MAX_RECTYPE_LEN /\
   Z.of_nat (length t + 1 + length v) < EIF_MAX_VALUE_LEN /\
   c_str t = bytes "IV" /\
   Z.of_nat (length (c_str v)) / 2 = leniv /\
   Forall is_lower_hex (c_str v)) /\
  (fst (fst (eiGetIV iv leniv s)) = RS_RET_OK \/
   fst (fst (eiGetIV iv leniv s)) = RS_RET_ERR).
Proof.
  intros Hs Hpend Hbytes Hcolon Hnl _.
  apply Forall_app in Hbytes as [Hbt Hbv].
  destruct (Z.lt_ge_cases (Z.of_nat (length t)) EIF_MAX_RECTYPE_LEN) as [Htlt | Htge];
    [destruct (Z.lt_ge_cases (Z.of_nat (length t + 1 + length v)) EIF_MAX_VALUE_LEN)
       as [Hvlt | Hvge] |].
  - destruct (eiGetIV_within_limits t v rest iv leniv s Hs Hpend Hbt Hbv Hcolon Hnl Htlt Hvlt)
      as (value' & s' & Hrun & Hval & _).
    rewrite Hrun. clear Hrun. cbn [fst]. unfold strlen. rewrite Hval.
    case_bool_decide as Ht.
    { cbn [fst]. split; [| now right]. split; [discriminate | tauto]. }
    case_bool_decide as Hhalf.
    { cbn [fst]. split; [| now right]. split; [discriminate | tauto]. }
    pose proof (length_c_str v) as Hshort.
    destruct (eiGetIV_loop_verdict value' iv (Z.to_nat (Z.of_nat (length (c_str v)))))
      as [Hok Herr].
    + rewrite Hval. now apply Forall_c_str.
    + rewrite Hval. unfold EIF_MAX_VALUE_LEN in *. lia.
    + rewrite Hval. lia.
    + unfold strlen in Hok, Herr. rewrite Hval in Hok, Herr.
      assert (Hdec : forall c : Z, {is_lower_hex c} + {¬ is_lower_hex c}).
      { intros c. unfold is_lower_hex.
        destruct (Z_le_dec 48 c), (Z_le_dec c 57), (Z_le_dec 97 c), (Z_le_dec c 102);
          (left; lia) || (right; lia). }
      destruct (Forall_Exists_dec is_lower_hex (fun c => ¬ is_lower_hex c) Hdec (c_str v))
        as [Hhex | Hbad].
      * rewrite (Hok Hhex). split; [| now left].
        split; [intros _; repeat split; try assumption; tauto | reflexivity].
      * assert (Hnot : ¬ Forall is_lower_hex (c_str v)).
        { intros Hall. apply Exists_exists in Hbad as (c & Hin & Hc).
          rewrite Forall_forall in Hall. exact (Hc (Hall c Hin)). }
        rewrite (Herr Hnot). split; [| now right].
        split; [discriminate | tauto].
  - destruct (eiGetIV_beyond_limits t v rest iv leniv s Hs Hpend Hbt Hbv Hcolon Hnl
                (or_intror Hvge)) as (s' & Hrun).
    rewrite Hrun. cbn [fst]. split; [| now right]. split; [discriminate | lia].
  - destruct (eiGetIV_beyond_limits t v rest iv leniv s Hs Hpend Hbt Hbv Hcolon Hnl
                (or_introl Htge)) as (s' & Hrun).
    rewrite Hrun. cbn [fst]. split; [| now right]. split; [discriminate | lia].
Qed.

End Records.

(** ** Waiting for the side-file *)

Lemma sleeps_app (tr1 tr2 : list event) : sleeps (tr1 ++ tr2) = (sleeps tr1 + sleeps tr2)%nat.
Proof.
  induction tr1 as [| e tr1 IH]; [reflexivity |].
  destruct e; cbn [app sleeps]; rewrite IH; reflexivity.
Qed.

Section Waiting.

Context {G : Gcrypt}.

(** The loop of [readIV] while there is no side-file and no other process
    that creates one. *)
Lemma readIV_wait_forever (fuel : nat) :
  forall (g : gcryfile_s) (w : world),
    w_files w !! gf_eiName g = None ->
    w_others w = [] ->
    readIV_wait fuel (g, w) = None.
Proof.
  induction fuel as [| fuel IH]; intros g w Hnone Hothers; [reflexivity |].
  cbn [readIV_wait]. rewrite (eiOpenRead_missing g w Hnone).
  unfold sys, srSleep. cbn [fst snd log with_errno w_others]. rewrite Hothers.
  apply IH; [exact Hnone | exact Hothers].
Qed.

(** The loop of [readIV] when another process creates the side-file after it
    has created the files [pre]. *)
Lemma readIV_wait_appears (pre : list (string * list Z)) :
  forall (fuel : nat) (g : gcryfile_s) (w : world) (d : list Z) (post : list (string * list Z)),
    w_files w !! gf_eiName g = None ->
    w_others w = pre ++ (gf_eiName g, d) :: post ->
    Forall (fun pd => fst pd ≠ gf_eiName g) pre ->
    (length pre + 2 <= fuel)%nat ->
    exists w' : world,
      readIV_wait fuel (g, w) = Some (RS_RET_OK, (set_fd (lowest_fd (w_fds w)) g, w')) /\
      w_files w' !! gf_eiName g = Some (new_file d) /\
      w_others w' = post /\
      sleeps (w_trace w') = (sleeps (w_trace w) + length pre + 1)%nat /\
      w_fds w'
      = <[lowest_fd (w_fds w) :=
            {| of_path := gf_eiName g;
               of_flags := {| o_access := O_RDONLY; o_append := false; o_creat := false |};
               of_pos := 0 |}]> (w_fds w).
Proof.
  induction pre as [| [p dd] pre IH]; intros fuel g w d post Hnone Hothers Hpre Hfuel.
  - destruct fuel as [| [| fuel]]; [cbn in Hfuel; lia | cbn in Hfuel; lia |].
    cbn [readIV_wait]. rewrite (eiOpenRead_missing g w Hnone).
    unfold sys at 1, srSleep. cbn [fst snd log with_errno w_others]. rewrite Hothers.
    cbn [app].
    match goal with
    | |- context [eiOpenRead (?g1, ?w1)] =>
        rewrite (eiOpenRead_ok g1 w1 (new_file d)
                   ltac:(cbn [log with_others with_files with_errno w_files set_fd gf_eiName];
                         apply lookup_insert_eq) eq_refl)
    end.
    eexists. split; [reflexivity |].
    cbn [log with_fds with_others with_files with_errno w_files w_others w_trace w_fds
         set_fd gf_eiName].
    split; [apply lookup_insert_eq |]. split; [reflexivity |].
    split; [| reflexivity].
    rewrite !sleeps_app. cbn [sleeps length]. lia.
  - destruct fuel as [| fuel]; [cbn in Hfuel; lia |].
    apply Forall_cons in Hpre as [Hp Hpre]. cbn [fst] in Hp.
    cbn [readIV_wait]. rewrite (eiOpenRead_missing g w Hnone).
    unfold sys at 1, srSleep. cbn [fst snd log with_errno w_others]. rewrite Hothers.
    cbn [app].
    match goal with
    | |- context [readIV_wait fuel (?g1, ?w1)] =>
        destruct (IH fuel g1 w1 d post) as (w' & Hrun & Hfile & Hpost & Hsleeps & Hfds)
    end.
    + cbn [log with_others with_files with_errno w_files set_fd gf_eiName].
      rewrite lookup_insert_ne by exact Hp. exact Hnone.
    + reflexivity.
    + exact Hpre.
    + cbn [length] in Hfuel. lia.
    + cbn [log with_others with_files with_errno w_files w_fds w_trace set_fd gf_eiName]
        in Hrun, Hfile, Hsleeps, Hfds.
      exists w'. split; [exact Hrun |]. split; [exact Hfile |]. split; [exact Hpost |].
      split; [| exact Hfds].
      rewrite Hsleeps, !sleeps_app. cbn [sleeps length]. lia.
Qed.

(** X20: opening for reading waits for the side-file without a bound.  When
    the cipher accepts the key, there is no side-file and no other process
    creates one, [rsgcryInitCrypt] does not return, whatever number of
    rounds its loop is given. *)
Theorem rsgcryInitCrypt_read_waits (MAXFNAME : nat) (ctx : gcryctx_s) (fname : string)
    (w : world) (h0 h1 : gcry_cipher_hd_t) :
  gcry_cipher_open (ctx_algo ctx) (ctx_mode ctx) 0 = (0, h0) ->
  gcry_cipher_setkey h0 (ctx_key ctx) (ctx_keyLen ctx) = (0, h1) ->
  w_files w !! String.substring 0 MAXFNAME (fname +:+ ENCINFO_SUFFIX) = None ->
  w_others w = [] ->
  forall fuel : nat, rsgcryInitCrypt MAXFNAME fuel ctx fname 114 w = None.
Proof.
  intros Hopen Hkey Hnone Hothers fuel.
  unfold rsgcryInitCrypt. cbn [gcryfileConstruct ret fst snd].
  rewrite Hopen. cbn [gf_chd gf_ctx set_chd set_blkLength set_mode].
  rewrite bool_decide_eq_false_2 by tauto. rewrite Hkey.
  rewrite bool_decide_eq_false_2 by tauto.
  cbn [Z.eqb Pos.eqb]. unfold readIV.
  rewrite readIV_wait_forever; [reflexivity | exact Hnone | exact Hothers].
Qed.

(** X18: the loop of [readIV] sleeps until the side-file is there.  When there
    is no side-file and another process creates it after [n] other files,
    one file for each sleep, the loop sleeps [n + 1] times and then returns
    [RS_RET_OK]; the session has opened the side-file and has all its bytes
    to read.  [n + 2] rounds are enough. *)
Theorem readIV_wait_until_created (fuel : nat) (g : gcryfile_s) (w : world) (d : list Z)
    (pre post : list (string * list Z)) :
  unopened g ->
  w_files w !! gf_eiName g = None ->
  w_others w = pre ++ (gf_eiName g, d) :: post ->
  Forall (fun pd => fst pd ≠ gf_eiName g) pre ->
  (length pre + 2 <= fuel)%nat ->
  exists s' : sess,
    readIV_wait fuel (g, w) = Some (RS_RET_OK, s') /\
    sleeps (w_trace (snd s')) = (sleeps (w_trace w) + length pre + 1)%nat /\
    reading s' /\ pending s' = d /\ same_cipher g (fst s').
Proof.
  intros (Hfd & Hbuf & Hidx & Hmax) Hnone Hothers Hpre Hfuel.
  destruct (readIV_wait_appears pre fuel g w d post Hnone Hothers Hpre Hfuel)
    as (w' & Hrun & Hfile & _ & Hsleeps & Hfds).
  pose proof READBUF_SIZE_range as Hsize.
  eexists. split; [exact Hrun |]. cbn [fst snd].
  split; [exact Hsleeps |]. split; [| split].
  - unfold reading. cbn [fst snd set_fd gf_fd gf_readBufIdx gf_readBufMaxIdx gf_readBuf].
    rewrite Hbuf, Hidx, Hmax, Hfds. split; [| lia].
    eexists. rewrite lookup_insert_eq. split; [reflexivity |].
    cbn [of_flags of_path o_access]. split; [reflexivity |]. rewrite Hfile. eauto.
  - unfold pending, buffered, unread.
    cbn [fst snd set_fd gf_fd gf_readBufIdx gf_readBufMaxIdx gf_readBuf].
    rewrite Hbuf, Hfds, lookup_insert_eq. cbn [of_path of_pos]. rewrite Hfile. reflexivity.
  - repeat split.
Qed.

(** X17: [seedIV] never fails and always hands out a block of [blkLength]
    bytes.  When the entropy device can be read and its descriptor is
    greater than zero, the IV is what the device delivers, the descriptor is
    closed again and the descriptor table is as before.  When the device is
    missing, the IV is the content that the fresh memory happens to have.
    The same holds when [open] hands out the descriptor 0: the test
    [fd > 0] takes it for a failure, and the descriptor stays open.  No file
    is changed. *)
Theorem seedIV_source (g : gcryfile_s) (w : world) :
  0 <= gf_blkLength g ->
  exists (iv : list Z) (w' : world),
    seedIV (g, w) = (Some iv, (g, w')) /\
    Z.of_nat (length iv) = gf_blkLength g /\
    w_files w' = w_files w /\
    (forall ino : inode,
        w_files w !! "/dev/urandom"%string = Some ino ->
        i_rd ino = true ->
        0 < lowest_fd (w_fds w) ->
        gf_blkLength g <= Z.of_nat (length (i_data ino)) ->
        iv = take (Z.to_nat (gf_blkLength g)) (i_data ino) /\ w_fds w' = w_fds w) /\
    (w_files w !! "/dev/urandom"%string = None ->
     iv = w_junk w <$> seq 0 (Z.to_nat (gf_blkLength g))) /\
    (forall ino : inode,
        w_files w !! "/dev/urandom"%string = Some ino ->
        i_rd ino = true ->
        w_fds w !! 0 = None ->
        iv = w_junk w <$> seq 0 (Z.to_nat (gf_blkLength g)) /\
        of_path <$> w_fds w' !! 0 = Some "/dev/urandom"%string).
Proof.
  intros Hblk.
  unfold seedIV, bind, getf, sys, malloc, sys_open, ret. cbn [fst snd].
  set (iv0 := w_junk w <$> seq 0 (Z.to_nat (gf_blkLength g))).
  assert (Hlen0 : Z.of_nat (length iv0) = gf_blkLength g)
    by (subst iv0; rewrite length_fmap, length_seq; lia).
  destruct (w_files w !! "/dev/urandom"%string) as [ino |] eqn:Hino; cbn [o_creat o_access may].
  - destruct (i_rd ino) eqn:Hrd; cbn [fst snd].
    + destruct (Z.ltb_spec 0 (lowest_fd (w_fds w))) as [Hpos | Hzero].
      * unfold sys_read, sys_close. cbn [fst snd log with_fds w_fds w_files].
        rewrite lookup_insert_eq. cbn [of_flags of_path of_pos o_access]. rewrite Hino.
        cbn [fst snd]. rewrite drop_0.
        eexists _, _. split; [reflexivity |].
        split; [now rewrite length_blit |]. split; [reflexivity |].
        split; [| split; [discriminate |]].
        -- intros ino' Hino' _ _ Hroom. injection Hino' as <-. split.
           ++ rewrite blit_front by (rewrite length_take; lia).
              rewrite drop_ge by (rewrite length_take; lia). apply app_nil_r.
           ++ cbn [log with_fds w_fds]. rewrite insert_insert_eq.
              apply delete_insert_id, lowest_fd_fresh.
        -- intros ino' _ _ Hfree. apply lowest_fd_zero in Hfree. lia.
      * pose proof (lowest_fd_nonneg (w_fds w)) as Hnn.
        assert (Hfd0 : lowest_fd (w_fds w) = 0) by lia.
        eexists _, _. split; [reflexivity |]. split; [exact Hlen0 |].
        split; [reflexivity |]. split; [| split; [discriminate |]].
        -- intros ino' _ _ Hpos. lia.
        -- intros ino' _ _ _. split; [reflexivity |].
           cbn [log with_fds w_fds]. rewrite Hfd0, lookup_insert_eq. reflexivity.
    + destruct (Z.ltb_spec 0 (-1)) as [Hpos | _]; [lia |].
      eexists _, _. split; [reflexivity |]. split; [exact Hlen0 |].
      split; [reflexivity |]. split; [| split; [discriminate |]].
      * intros ino' Hino' Hrd'. injection Hino' as <-. congruence.
      * intros ino' Hino' Hrd'. injection Hino' as <-. congruence.
  - destruct (Z.ltb_spec 0 (-1)) as [Hpos | _]; [lia |].
    eexists _, _. split; [reflexivity |]. split; [exact Hlen0 |].
    split; [reflexivity |]. split; [discriminate |]. split; [reflexivity | discriminate].
Qed.

End Waiting.

(** ** Buffers, once more *)

(** A zero byte among the first [n] bytes: [strchr] finds one there. *)
Lemma strchr_NUL_within (buf : list Z) (n : nat) :
  0 ∈ take n buf ->
  exists k : nat, strchr_NUL buf = Some (Z.of_nat k) /\ (k < n)%nat.
Proof.
  intros Hin.
  destruct (strchr_NUL buf) as [k |] eqn:Hk.
  - destruct (strchr_NUL_Some buf k Hk) as (m & -> & _ & Hnz).
    exists m. split; [reflexivity |].
    destruct (Nat.lt_ge_cases m n) as [Hlt | Hge]; [exact Hlt | exfalso].
    assert (Hin' : 0 ∈ take m buf).
    { apply (elem_of_take_in 0 n). rewrite take_take. now rewrite Nat.min_l by exact Hge. }
    rewrite <- Hnz in Hin'. apply list_elem_of_filter in Hin' as [Hne _]. now apply Hne.
  - apply strchr_NUL_None in Hk. exfalso. apply Hk. eapply elem_of_take_in. exact Hin.
Qed.

Lemma drop_blit (data buf : list Z) (n : nat) :
  (length data <= n)%nat -> (n <= length buf)%nat -> drop n (blit data buf) = drop n buf.
Proof.
  intros Hd Hn. rewrite blit_front by lia.
  rewrite drop_app_ge by exact Hd. rewrite drop_drop. f_equal. lia.
Qed.

(** [removePadding] looks at its length through an [unsigned]: lengths that
    agree modulo [2 ^ 32] are treated alike once [strchr] has found a NUL. *)
Lemma removePadding_unsigned (buf : list Z) (plen k : Z) :
  strchr_NUL buf = Some k -> removePadding buf plen = removePadding buf (u32 plen).
Proof.
  intros Hk. unfold removePadding. rewrite Hk.
  replace (u32 (u32 plen)) with (u32 plen) by (unfold u32; now rewrite Z.mod_mod).
  reflexivity.
Qed.

(** X15: [removePadding] works on [len], the length handed in converted to
    [unsigned], which is that length modulo [2 ^ 32].  On a buffer that holds
    at least [len] bytes and has a zero byte among its first [len] bytes, it
    moves the non-zero bytes among them to the front, in their order, and
    sets the length to their number, which is smaller than [len].  Zero bytes
    inside the text go the same way as the padding.  The size of the memory
    and the bytes from position [len] on stay as they are. *)
Theorem removePadding_compacts (buf : list Z) (plen : Z) :
  u32 plen <= Z.of_nat (length buf) ->
  0 ∈ take (Z.to_nat (u32 plen)) buf ->
  exists (buf' : list Z) (len' : Z),
    removePadding buf plen = (buf', len') /\
    0 <= len' < u32 plen /\
    take (Z.to_nat len') buf' = filter (fun b => b ≠ 0) (take (Z.to_nat (u32 plen)) buf) /\
    (0 ∉ take (Z.to_nat len') buf') /\
    length buf' = length buf /\
    drop (Z.to_nat (u32 plen)) buf' = drop (Z.to_nat (u32 plen)) buf.
Proof.
  intros Hcap Hzero.
  assert (Hlen : 0 <= u32 plen < 2 ^ 32) by (unfold u32; apply Z.mod_pos_bound; lia).
  destruct (strchr_NUL_within buf (Z.to_nat (u32 plen)) Hzero) as (k & Hk & Hlt).
  destruct (removePadding_within buf (u32 plen) (Z.of_nat k) Hk ltac:(lia) Hcap)
    as (buf' & d & Hrun & Hfront & Hd & Hsize & Hback).
  rewrite <- (removePadding_unsigned buf plen (Z.of_nat k) Hk) in Hrun.
  exists buf', (Z.of_nat d). split; [exact Hrun |].
  pose proof (length_filter_lt (fun b : Z => b ≠ 0) (take (Z.to_nat (u32 plen)) buf) 0 Hzero
                ltac:(intros H; now apply H)) as Hless.
  rewrite length_take in Hless. rewrite Nat2Z.id.
  split; [lia |]. split; [exact Hfront |]. split; [| split; assumption].
  rewrite Hfront. intros Hin. apply list_elem_of_filter in Hin as [Hne _]. now apply Hne.
Qed.

Section Crypt.

Context {G : Gcrypt}.

(** X26: [rsgcryEncrypt] on a buffer that is not empty and has room for the
    padding.  The cipher is given the [len] bytes of the buffer followed by
    zero bytes up to the next multiple of the block length; what it returns
    replaces them in place.  The new length is that multiple, the size of the
    memory and the bytes behind the new length stay as they are, and the code
    is [RS_RET_OK] when the cipher reports success and [RS_RET_ERR]
    otherwise. *)
Theorem rsgcryEncrypt_pads_in_place (pF : gcryfile_s) (buf : list Z) (len : Z)
    (e : Z) (h : gcry_cipher_hd_t) (out : list Z) :
  0 < gf_blkLength pF <= 2 ^ 32 ->
  0 < len ->
  len + (gf_blkLength pF - len mod gf_blkLength pF) mod gf_blkLength pF
    <= Z.of_nat (length buf) ->
  Z.of_nat (length buf) < 2 ^ 64 ->
  gcry_cipher_encrypt (gf_chd pF)
    (take (Z.to_nat len) buf
       ++ replicate (Z.to_nat ((gf_blkLength pF - len mod gf_blkLength pF) mod gf_blkLength pF)) 0)
  = (e, h, out) ->
  exists (buf' : list Z) (len' : Z),
    rsgcryEncrypt pF buf len
    = Some (if bool_decide (e = 0) then RS_RET_OK else RS_RET_ERR, set_chd h pF, buf', len') /\
    len <= len' < len + gf_blkLength pF /\
    len' mod gf_blkLength pF = 0 /\
    length buf' = length buf /\
    drop (Z.to_nat len') buf' = drop (Z.to_nat len') buf /\
    (Z.of_nat (length out) = len' -> take (Z.to_nat len') buf' = out).
Proof.
  intros Hblk Hlen Hcap Hmem Henc.
  destruct (nPad_bounds (gf_blkLength pF) len ltac:(lia) ltac:(lia)) as (Hpad & Hmul & _).
  pose proof (addPadding_run pF buf len Hblk ltac:(lia) Hcap Hmem) as Hrun.
  set (nPad := (gf_blkLength pF - len mod gf_blkLength pF) mod gf_blkLength pF) in *.
  set (padded := take (Z.to_nat len) buf ++ replicate (Z.to_nat nPad) 0
                   ++ drop (Z.to_nat (len + nPad)) buf) in *.
  assert (Hfront : length (take (Z.to_nat len) buf ++ replicate (Z.to_nat nPad) 0)
                   = Z.to_nat (len + nPad)).
  { rewrite length_app, length_take, length_replicate. lia. }
  assert (Hsize : length padded = length buf).
  { subst padded. rewrite app_assoc, length_app, Hfront, length_drop. lia. }
  assert (Hback : drop (Z.to_nat (len + nPad)) padded = drop (Z.to_nat (len + nPad)) buf).
  { subst padded. rewrite app_assoc, <- Hfront. apply drop_app_length. }
  exists (blit (take (Z.to_nat (len + nPad)) out) padded), (len + nPad).
  split; [| split; [lia | split; [exact Hmul | split; [| split]]]].
  - unfold rsgcryEncrypt.
    destruct (Z.eqb_spec len 0) as [Hz | _]; [lia |].
    rewrite Hrun. cbn [mbind option_bind].
    replace (take (Z.to_nat (len + nPad)) padded)
      with (take (Z.to_nat len) buf ++ replicate (Z.to_nat nPad) 0)
      by (subst padded; rewrite app_assoc, <- Hfront; now rewrite take_app_length).
    rewrite Henc.
    case_bool_decide as He.
    + rewrite bool_decide_eq_false_2 by tauto. reflexivity.
    + rewrite bool_decide_eq_true_2 by exact He. reflexivity.
  - now rewrite length_blit.
  - rewrite drop_blit; [exact Hback | rewrite length_take; lia | lia].
  - intros Hout. rewrite (take_ge out) by lia.
    rewrite blit_front by lia. replace (Z.to_nat (len + nPad)) with (length out) by lia.
    apply take_app_length.
Qed.


End Crypt.

(** ** Contexts, once more *)

Section Configuration.

Context {G : Gcrypt}.
Variables rsgcryModename2Mode rsgcryAlgoname2Algo : list Z -> Z.

(** X14: whatever calls of [rsgcrySetKey], [rsgcrySetMode] and [rsgcrySetAlgo]
    are made on a context from [gcryCtxNew], with whatever arguments and
    whether they succeed or fail, the context names an algorithm and a
    mode: neither is ever [NONE].  Its key length fits a [uint16_t]; as
    long as it holds no key its key length is 0, and a key it holds is never
    longer than its key length. *)
Theorem configured_valid (ctx : gcryctx_s) :
  configured rsgcryModename2Mode rsgcryAlgoname2Algo ctx ->
  ctx_algo ctx ≠ GCRY_CIPHER_NONE /\
  ctx_mode ctx ≠ GCRY_CIPHER_MODE_NONE /\
  0 <= ctx_keyLen ctx < 2 ^ 16 /\
  match ctx_key ctx with
  | None => ctx_keyLen ctx = 0
  | Some k => Z.of_nat (length k) <= ctx_keyLen ctx
  end.
Proof.
  induction 1 as [| ctx key keyLen _ IH | ctx modename _ IH | ctx algoname _ IH].
  - cbn. unfold GCRY_CIPHER_AES128, GCRY_CIPHER_MODE_CBC, GCRY_CIPHER_NONE,
      GCRY_CIPHER_MODE_NONE. repeat split; lia.
  - unfold rsgcrySetKey. cbv zeta. case_bool_decide as Hk; cbn [snd]; [exact IH |].
    destruct IH as (Halgo & Hmode & _). cbn [ctx_algo ctx_mode ctx_keyLen ctx_key].
    assert (Hrange : 0 <= u16 keyLen < 2 ^ 16)
      by (unfold u16; apply Z.mod_pos_bound; lia).
    repeat split; try assumption; try lia.
    rewrite length_take. lia.
  - unfold rsgcrySetMode.
    destruct (Z.eqb_spec (rsgcryModename2Mode modename) GCRY_CIPHER_MODE_NONE) as [_ | Hm];
      cbn [snd]; [exact IH |].
    destruct IH as (Halgo & _ & Hlen & Hkey). cbn [ctx_algo ctx_mode ctx_keyLen ctx_key].
    repeat split; try assumption; lia.
  - unfold rsgcrySetAlgo.
    destruct (Z.eqb_spec (rsgcryAlgoname2Algo algoname) GCRY_CIPHER_NONE) as [_ | Ha];
      cbn [snd]; [exact IH |].
    destruct IH as (_ & Hmode & Hlen & Hkey). cbn [ctx_algo ctx_mode ctx_keyLen ctx_key].
    repeat split; try assumption; lia.
Qed.

End Configuration.

(** ** More on opening *)


Section Opening.

Context {G : Gcrypt}.

(** X19: [readIV] does not wait for a side-file that is there but may not be
    read: it returns [RS_RET_EI_OPN_ERR] at once, without a sleep, leaves
    the IV of the caller as it is, and the session has no descriptor. *)
Theorem readIV_unreadable (fuel : nat) (g : gcryfile_s) (w : world) (ino : inode)
    (iv0 : option (list Z)) :
  w_files w !! gf_eiName g = Some ino ->
  i_rd ino = false ->
  exists w' : world,
    readIV (S fuel) iv0 (g, w) = Some (RS_RET_EI_OPN_ERR, iv0, (set_fd (-1) g, w')) /\
    sleeps (w_trace w') = sleeps (w_trace w) /\
    w_fds w' = w_fds w /\ w_files w' = w_files w.
Proof.
  intros Hino Hrd. unfold readIV. cbn [readIV_wait].
  rewrite (eiOpenRead_denied g w ino Hino Hrd).
  eexists. split; [reflexivity |]. cbn [log with_errno w_trace w_fds w_files].
  rewrite sleeps_app. cbn [sleeps]. split; [lia |]. split; reflexivity.
Qed.

(** X23: opening for writing when the side-file exists, starts with the
    [FILETYPE] line and may be read and written.  [rsgcryInitCrypt] returns
    [RS_RET_OK] and a session, and the side-file is what it was, followed by
    the record [IV:<digits>] of the IV that was given to the cipher: a new
    segment is added behind the records of earlier sessions.  The cipher
    accepts key and IV, and the device has room. *)
Theorem rsgcryInitCrypt_write_appends_IV (MAXFNAME fuel : nat) (ctx : gcryctx_s)
    (fname : string) (w : world) (h0 h1 : gcry_cipher_hd_t) (ino : inode) :
  gcry_cipher_open (ctx_algo ctx) (ctx_mode ctx) 0 = (0, h0) ->
  gcry_cipher_setkey h0 (ctx_key ctx) (ctx_keyLen ctx) = (0, h1) ->
  (forall iv : list Z,
      fst (gcry_cipher_setiv h1 (Some iv) (u64 (gcry_cipher_get_algo_blklen (ctx_algo ctx)))) = 0) ->
  u64 (gcry_cipher_get_algo_blklen (ctx_algo ctx)) <= 2048 ->
  w_files w !! String.substring 0 MAXFNAME (fname +:+ ENCINFO_SUFFIX) = Some ino ->
  i_rd ino = true -> i_wr ino = true ->
  take 33 (i_data ino) = filetype_line ->
  2 * u64 (gcry_cipher_get_algo_blklen (ctx_algo ctx)) + 4 <= w_space w ->
  exists (iv : list Z) (gf : gcryfile_s) (w' : world),
    rsgcryInitCrypt MAXFNAME fuel ctx fname 119 w = Some (RS_RET_OK, Some gf, w') /\
    Z.of_nat (length iv) = u64 (gcry_cipher_get_algo_blklen (ctx_algo ctx)) /\
    gcry_cipher_setiv h1 (Some iv) (u64 (gcry_cipher_get_algo_blklen (ctx_algo ctx)))
    = (0, gf_chd gf) /\
    i_data <$> w_files w' !! String.substring 0 MAXFNAME (fname +:+ ENCINFO_SUFFIX)
    = Some (i_data ino ++ bytes "IV:" ++ hex_of iv ++ [10]).
Proof.
  intros Hopen Hkey Hsetiv Hsmall Hino Hrd Hwr Hhead Hroom.
  set (blk := u64 (gcry_cipher_get_algo_blklen (ctx_algo ctx))) in *.
  set (name := String.substring 0 MAXFNAME (fname +:+ ENCINFO_SUFFIX)) in *.
  assert (Hblk0 : 0 <= blk) by (subst blk; unfold u64; apply Z.mod_pos_bound; lia).
  unfold rsgcryInitCrypt. cbn [gcryfileConstruct ret fst snd].
  rewrite Hopen. cbn [gf_chd gf_ctx set_chd set_blkLength set_mode].
  rewrite bool_decide_eq_false_2 by tauto. rewrite Hkey.
  rewrite bool_decide_eq_false_2 by tauto.
  cbn [Z.eqb Pos.eqb]. fold name. fold blk.
  match goal with
  | |- context [seedIV (?g, w)] => set (g1 := g)
  end.
  destruct (seedIV_spec g1 w) as (iv & w1 & Hseed & Hlen & Hfiles1 & Hspace1 & _).
  rewrite Hseed.
  specialize (Hsetiv iv).
  change (gf_chd g1) with h1. change (gf_blkLength g1) with blk in *.
  destruct (gcry_cipher_setiv h1 (Some iv) blk) as [e h2] eqn:Hiv.
  cbn [fst] in Hsetiv. subst e.
  rewrite bool_decide_eq_false_2 by tauto.
  set (g2 := set_chd h2 g1).
  destruct (eiOpenAppend_valid g2 w1 ino eq_refl ltac:(rewrite Hfiles1; exact Hino) Hrd Hwr Hhead)
    as (w2 & Happend & Hwr2 & Hspace2 & _).
  destruct (eiWriteIV_writing (set_fd (lowest_fd (w_fds w1)) g2, w2) (i_data ino) iv Hwr2
              ltac:(change (gf_blkLength (fst (set_fd (lowest_fd (w_fds w1)) g2, w2))) with blk; lia)
              ltac:(change (gf_blkLength (fst (set_fd (lowest_fd (w_fds w1)) g2, w2))) with blk; lia)
              ltac:(change (gf_blkLength (fst (set_fd (lowest_fd (w_fds w1)) g2, w2))) with blk;
                    cbn [snd]; lia))
    as (w3 & Hwrite & (_ & o & ino3 & _ & _ & _ & _ & Hino3 & Hdata3 & _) & _).
  change (gf_blkLength (fst (set_fd (lowest_fd (w_fds w1)) g2, w2))) with blk in Hdata3.
  cbn [fst snd] in Hino3.
  change (gf_eiName (set_fd (lowest_fd (w_fds w1)) g2)) with name in Hino3.
  rewrite <- Hlen, firstn_all in Hdata3.
  unfold CHKiRet, bind. rewrite Happend. cbn [default from_option id]. rewrite Hwrite.
  unfold rsgcryInitCrypt_finalize, free. cbn [fst snd].
  exists iv. eexists _, _. split; [reflexivity |].
  split; [lia |]. split; [exact Hiv |].
  cbn [log w_files]. rewrite Hino3. cbn. now rewrite Hdata3.
Qed.

End Opening.


Lemma readIV_unreadable_witness :
  exists w' : world,
    readIV 1 None (xor_session 16, w_unreadable)
    = Some (RS_RET_EI_OPN_ERR, None, (xor_session 16, w')).
Proof.
  destruct (readIV_unreadable 0 (xor_session 16) w_unreadable
              {| i_data := filetype_line; i_rd := false; i_wr := true |} None)
    as (w' & Hrun & _); [reflexivity .. |].
  exists w'. exact Hrun.
Defined.

Lemma rsgcryInitCrypt_write_appends_IV_witness :
  exists (iv : list Z) (gf : gcryfile_s) (w' : world),
    rsgcryInitCrypt (G := xor_cipher) maxfname 0 keyed_ctx "log" 119 w_no_iv
    = Some (RS_RET_OK, Some gf, w') /\
    i_data <$> w_files w' !! "log.encinfo"%string
    = Some ((filetype_line ++ bytes "END:5" ++ [10]) ++ bytes "IV:" ++ hex_of iv ++ [10]).
Proof.
  destruct (rsgcryInitCrypt_write_appends_IV (G := xor_cipher) maxfname 0 keyed_ctx "log"
              w_no_iv xor_opened xor_keyed (new_file (filetype_line ++ bytes "END:5" ++ [10])))
    as (iv & gf & w' & Hrun & _ & _ & Hfile).
  - reflexivity.
  - reflexivity.
  - intros iv. reflexivity.
  - by_eval.
  - reflexivity.
  - reflexivity.
  - reflexivity.
  - reflexivity.
  - by_eval.
  - exists iv, gf, w'. split; [exact Hrun | exact Hfile].
Defined.

(** ** The buffered reader as a stream *)

Section Stream.

Context {G : Gcrypt}.

(** X2: [eiReadChar] delivers the bytes of the side-file in their order,
    each one once, whatever their number is and wherever the read buffer of
    [READBUF_SIZE] bytes is filled again, and then [EOF] for every further
    call. *)
Theorem eiReadChar_stream (l : list Z) (k : nat) :
  forall s : sess,
    reading s ->
    pending s = l ->
    exists s' : sess,
      read_chars (length l + k) s = (l ++ replicate k EOF, s') /\
      reading s' /\ pending s' = [] /\ same_cipher (fst s) (fst s').
Proof.
  induction l as [| c l IH]; intros s Hs Hpend.
  - cbn [length Nat.add app]. revert s Hs Hpend.
    induction k as [| k IHk]; intros s Hs Hpend.
    + exists s. cbn [read_chars replicate]. unfold ret.
      split; [reflexivity |]. split; [exact Hs |]. split; [exact Hpend |]. repeat split.
    + destruct (eiReadChar_eof s Hs Hpend) as (s1 & Hrun & Hs1 & Hp1 & Hsame1).
      destruct (IHk s1 Hs1 Hp1) as (s' & Hrest & Hs' & Hp' & Hsame').
      exists s'. cbn [read_chars replicate]. unfold bind at 1. rewrite Hrun.
      unfold bind at 1. rewrite Hrest. unfold ret.
      split; [reflexivity |]. split; [exact Hs' |]. split; [exact Hp' |].
      eapply same_cipher_trans; eassumption.
  - destruct (eiReadChar_next s c l Hs Hpend) as (s1 & Hrun & Hs1 & Hp1 & Hsame1).
    destruct (IH s1 Hs1 Hp1) as (s' & Hrest & Hs' & Hp' & Hsame').
    exists s'. cbn [length Nat.add read_chars app]. unfold bind at 1. rewrite Hrun.
    unfold bind at 1. rewrite Hrest. unfold ret.
    split; [reflexivity |]. split; [exact Hs' |]. split; [exact Hp' |].
    eapply same_cipher_trans; eassumption.
Qed.

End Stream.

Lemma eiReadChar_stream_witness :
  exists s0 s' : sess,
    eiOpenRead (xor_session 16, w_side_file (replicate 4100 65)) = (RS_RET_OK, s0) /\
    read_chars (length (replicate 4100 65) + 2) s0
    = (replicate 4100 65 ++ replicate 2 EOF, s').
Proof.
  destruct (eiOpenRead_reading (xor_session 16) (w_side_file (replicate 4100 65))
              (new_file (replicate 4100 65)))
    as (s0 & Hopen & Hs0 & Hp0 & _); [reflexivity .. |].
  destruct (eiReadChar_stream (replicate 4100 65) 2 s0 Hs0 Hp0) as (s' & Hrun & _).
  exists s0, s'. split; [exact Hopen | exact Hrun].
Defined.

(** ** The properties on the small cipher *)

Lemma writing_open_side_file :
  writing (G := xor_cipher) (set_fd 3 (xor_session 16), w_open_side_file) filetype_line.
Proof.
  split; [discriminate |].
  exists {| of_path := "log.encinfo";
            of_flags := {| o_access := O_WRONLY; o_append := true; o_creat := false |};
            of_pos := 0 |}, (new_file filetype_line).
  repeat split; try reflexivity. now left.
Qed.

Lemma eiCheckFiletype_verdict_witness :
  exists w' : world,
    eiCheckFiletype (xor_session 16, w_bad_filetype)
    = (RS_RET_EI_INVLD_FILE, (xor_session 16, w')) /\
    w_fds w' = w_fds w_bad_filetype.
Proof.
  destruct (eiCheckFiletype_verdict (xor_session 16) w_bad_filetype
              (new_file (bytes "not an encryption info file")))
    as (r & w' & Hrun & Hiff & [-> | ->] & _ & Hfds); [reflexivity .. | |].
  - destruct Hiff as [Hiff _]. specialize (Hiff eq_refl). discriminate.
  - exists w'. split; [exact Hrun | exact Hfds].
Defined.

Lemma eiOpenAppend_creates_witness :
  exists (g' : gcryfile_s) (w' : world),
    eiOpenAppend (xor_session 16, boot []) = (RS_RET_OK, (g', w')) /\
    i_data <$> w_files w' !! "log.encinfo"%string = Some filetype_line.
Proof.
  destruct (eiOpenAppend_creates (xor_session 16) (boot []))
    as (g' & w' & Hrun & Hfile & _); [reflexivity | reflexivity | by_eval |].
  exists g', w'. split; [exact Hrun | exact Hfile].
Defined.

Lemma eiOpenAppend_keeps_existing_witness :
  exists (g' : gcryfile_s) (w' : world),
    eiOpenAppend (xor_session 16, w_no_iv) = (RS_RET_OK, (g', w')) /\
    w_files w' = w_files w_no_iv.
Proof.
  destruct (eiOpenAppend_keeps_existing (xor_session 16) w_no_iv
              (new_file (filetype_line ++ bytes "END:5" ++ [10])))
    as (g' & w' & o & Hrun & Hfiles & _); [reflexivity .. |].
  exists g', w'. split; [exact Hrun | exact Hfiles].
Defined.

Lemma eiWriteRec_all_or_error_witness :
  exists w' : world,
    eiWriteRec (bytes "IV:") 3 (bytes "00") 2 (set_fd 3 (xor_session 16), w_nearly_full)
    = (RS_RET_EI_WR_ERR, (set_fd 3 (xor_session 16), w')) /\
    i_data <$> w_files w' !! "log.encinfo"%string = Some (filetype_line ++ bytes "IV").
Proof.
  destruct (eiWriteRec_all_or_error (G := xor_cipher)
              (set_fd 3 (xor_session 16), w_nearly_full) filetype_line (bytes "IV:") (bytes "00"))
    as (r & w' & Hrun & Hfile & Hiff & [-> | ->]).
  - destruct writing_open_side_file as (Hfd & o & ino & H). split; [exact Hfd |].
    exists o, ino. exact H.
  - by_eval.
  - destruct Hiff as [Hiff _]. specialize (Hiff eq_refl). vm_compute in Hiff.
    now contradiction Hiff.
  - exists w'. split; [exact Hrun | exact Hfile].
Defined.

Lemma eiWriteIV_writes_IV_record_witness :
  exists w' : world,
    eiWriteIV (replicate 16 165) (set_fd 3 (xor_session 16), w_open_side_file)
    = (RS_RET_OK, (set_fd 3 (xor_session 16), w')) /\
    i_data <$> w_files w' !! "log.encinfo"%string
    = Some (filetype_line ++ bytes "IV:a5a5a5a5a5a5a5a5a5a5a5a5a5a5a5a5" ++ [10]).
Proof.
  destruct (eiWriteIV_writes_IV_record (G := xor_cipher)
              (set_fd 3 (xor_session 16), w_open_side_file) filetype_line (replicate 16 165))
    as [Hsmall _].
  - exact writing_open_side_file.
  - reflexivity.
  - apply Forall_replicate. unfold is_byte. lia.
  - by_eval.
  - destruct Hsmall as (w' & Hrun & Hfile & _); [by_eval |].
    exists w'. split; [exact Hrun | exact Hfile].
Defined.

Lemma eiGetIV_inverts_eiWriteIV_witness :
  fst (read_iv_record (replicate 4 170) 4
         (xor_session 16, w_side_file (bytes "IV:00ff10a5" ++ [10] ++ bytes "END:7" ++ [10])))
  = (RS_RET_OK, [0; 255; 16; 165]).
Proof.
  destruct (eiOpenRead_reading (xor_session 16)
              (w_side_file (bytes "IV:00ff10a5" ++ [10] ++ bytes "END:7" ++ [10]))
              (new_file (bytes "IV:00ff10a5" ++ [10] ++ bytes "END:7" ++ [10])))
    as (s0 & Hopen & Hs0 & Hp0 & _); [reflexivity .. |].
  destruct (eiGetIV_inverts_eiWriteIV [0; 255; 16; 165] (bytes "END:7" ++ [10])
              (replicate 4 170) s0 Hs0 Hp0)
    as (s' & Hrun & _).
  - repeat constructor; unfold is_byte; lia.
  - by_eval.
  - reflexivity.
  - unfold read_iv_record, bind. rewrite Hopen.
    change (Z.of_nat (length [0; 255; 16; 165])) with 4 in Hrun. rewrite Hrun. reflexivity.
Defined.

Lemma rsgcryInitCrypt_cipher_failure_witness :
  exists w' : world,
    rsgcryInitCrypt (G := xor_cipher) maxfname 0 gcryCtxNew "log" 119 (boot [])
    = Some (RS_RET_ERR, None, w') /\
    w_files w' = w_files (boot []).
Proof.
  destruct (rsgcryInitCrypt_cipher_failure (G := xor_cipher) maxfname 0 gcryCtxNew "log" 119
              (boot []))
    as (w' & Hrun & Hfiles & _).
  - right. discriminate.
  - exists w'. split; [exact Hrun | exact Hfiles].
Defined.

Lemma rsgcryInitCrypt_write_creates_side_file_witness :
  exists (iv : list Z) (gf : gcryfile_s) (w' : world),
    rsgcryInitCrypt (G := xor_cipher) maxfname 0 keyed_ctx "log" 119 w_urandom
    = Some (RS_RET_OK, Some gf, w') /\
    length iv = 16%nat /\
    i_data <$> w_files w' !! "log.encinfo"%string
    = Some (filetype_line ++ bytes "IV:" ++ hex_of iv ++ [10]).
Proof.
  destruct (rsgcryInitCrypt_write_creates_side_file (G := xor_cipher) maxfname 0 keyed_ctx "log"
              w_urandom xor_opened xor_keyed)
    as (iv & gf & w' & Hrun & Hlen & _ & Hname & Hfile & _).
  - reflexivity.
  - reflexivity.
  - intros iv. reflexivity.
  - by_eval.
  - reflexivity.
  - by_eval.
  - exists iv, gf, w'. split; [exact Hrun |]. split.
    + change (u64 (gcry_cipher_get_algo_blklen (Gcrypt := xor_cipher) (ctx_algo keyed_ctx)))
        with 16 in Hlen. lia.
    + rewrite Hname in Hfile. exact Hfile.
Defined.

Lemma rsgcryInitCrypt_write_rejects_other_file_witness :
  exists w' : world,
    rsgcryInitCrypt (G := xor_cipher) maxfname 0 keyed_ctx "log" 119 w_bad_filetype
    = Some (RS_RET_EI_INVLD_FILE, None, w') /\
    w_files w' = w_files w_bad_filetype.
Proof.
  apply (rsgcryInitCrypt_write_rejects_other_file (G := xor_cipher) maxfname 0 keyed_ctx "log"
           w_bad_filetype xor_opened xor_keyed (new_file (bytes "not an encryption info file")));
    try reflexivity.
  discriminate.
Defined.

Lemma gcryfileDestruct_closes_side_file_witness :
  exists w' : world,
    gcryfileDestruct (Some (set_fd 3 (xor_session 16))) 12345 w_open_side_file = (0, w') /\
    i_data <$> w_files w' !! "log.encinfo"%string
    = Some (filetype_line ++ bytes "END:12345" ++ [10]) /\
    w_fds w' !! 3 = None.
Proof.
  destruct (gcryfileDestruct_closes_side_file (G := xor_cipher) (set_fd 3 (xor_session 16))
              w_open_side_file filetype_line 12345)
    as (w' & Hrun & Hfile & _ & Hfd & _).
  - exact writing_open_side_file.
  - lia.
  - by_eval.
  - exists w'. split; [exact Hrun |]. split; [exact Hfile | exact Hfd].
Defined.

Lemma rsgcryInitCrypt_read_after_write_witness :
  exists (iv : list Z) (gfw gfr : gcryfile_s) (w1 w2 w3 : world),
    rsgcryInitCrypt (G := xor_cipher) maxfname 0 keyed_ctx "log" 119 w_urandom
    = Some (RS_RET_OK, Some gfw, w1) /\
    gcryfileDestruct (Some gfw) 12345 w1 = (0, w2) /\
    i_data <$> w_files w2 !! "log.encinfo"%string
    = Some (filetype_line ++ IV_record iv ++ END_record 12345) /\
    rsgcryInitCrypt (G := xor_cipher) maxfname 1 keyed_ctx "log" 114 w2
    = Some (RS_RET_OK, Some gfr, w3) /\
    gf_chd gfr = gf_chd gfw.
Proof.
  destruct (rsgcryInitCrypt_read_after_write (G := xor_cipher) maxfname 0 keyed_ctx "log"
              w_urandom xor_opened xor_keyed 12345)
    as (iv & gfw & gfr & w1 & w2 & w3 & Hwrite & Hclose & Hfile & Hread & Hsame & _).
  - reflexivity.
  - reflexivity.
  - intros iv. reflexivity.
  - by_eval.
  - reflexivity.
  - by_eval.
  - intros n. unfold is_byte. cbn. lia.
  - intros ino Hino. vm_compute in Hino. injection Hino as <-.
    change (Forall is_byte (replicate 64 7)). apply Forall_replicate. unfold is_byte. lia.
  - lia.
  - exists iv, gfw, gfr, w1, w2, w3. repeat split; assumption.
Defined.

Lemma eiGetRecord_incomplete_witness :
  exists (s0 : sess) (rectype' value' : list Z) (s' : sess),
    eiOpenRead (xor_session 16, w_side_file (bytes "IV:0011")) = (RS_RET_OK, s0) /\
    eiGetRecord (replicate 32 0) (replicate 1024 0) s0 = ((RS_RET_ERR, rectype', value'), s').
Proof.
  destruct (eiOpenRead_reading (xor_session 16) (w_side_file (bytes "IV:0011"))
              (new_file (bytes "IV:0011")))
    as (s0 & Hopen & Hs0 & Hp0 & _); [reflexivity .. |].
  destruct (eiGetRecord_incomplete (replicate 32 0) (replicate 1024 0) s0 Hs0)
    as (rectype' & value' & s' & Hrun).
  - rewrite Hp0. repeat constructor; unfold is_byte; cbn; lia.
  - right. exists (bytes "IV"), (bytes "0011"). rewrite Hp0.
    split; [reflexivity |].
    split; intros H; apply list_elem_of_In in H; vm_compute in H; intuition discriminate.
  - by_eval.
  - exists s0, rectype', value', s'. split; [exact Hopen | exact Hrun].
Defined.

Lemma eiGetRecord_twice_witness :
  exists (s0 s1 s2 : sess) (r1 x1 r2 x2 : list Z),
    eiOpenRead (xor_session 16, w_side_file (bytes "IV:0a" ++ [10] ++ bytes "END:5" ++ [10]))
    = (RS_RET_OK, s0) /\
    eiGetRecord (replicate 32 0) (replicate 1024 0) s0 = ((RS_RET_OK, r1, x1), s1) /\
    c_str r1 = bytes "IV" /\ c_str x1 = bytes "0a" /\
    eiGetRecord (replicate 32 0) (replicate 1024 0) s1 = ((RS_RET_OK, r2, x2), s2) /\
    c_str r2 = bytes "END" /\ c_str x2 = bytes "5".
Proof.
  destruct (eiOpenRead_reading (xor_session 16)
              (w_side_file (bytes "IV:0a" ++ [10] ++ bytes "END:5" ++ [10]))
              (new_file (bytes "IV:0a" ++ [10] ++ bytes "END:5" ++ [10])))
    as (s0 & Hopen & Hs0 & Hp0 & _); [reflexivity .. |].
  destruct (eiGetRecord_twice (bytes "IV") (bytes "0a") (bytes "END") (bytes "5") []
              (replicate 32 0) (replicate 1024 0) s0 Hs0 Hp0)
    as (r1 & x1 & r2 & x2 & s1 & s2 & H1 & Hr1 & Hx1 & H2 & Hr2 & Hx2 & _).
  - repeat constructor; unfold is_byte; cbn; lia.
  - intros H; apply list_elem_of_In in H; vm_compute in H; intuition discriminate.
  - intros H; apply list_elem_of_In in H; vm_compute in H; intuition discriminate.
  - intros H; apply list_elem_of_In in H; vm_compute in H; intuition discriminate.
  - intros H; apply list_elem_of_In in H; vm_compute in H; intuition discriminate.
  - intros H; apply list_elem_of_In in H; vm_compute in H; intuition discriminate.
  - by_eval.
  - by_eval.
  - by_eval.
  - by_eval.
  - by_eval.
  - by_eval.
  - exists s0, s1, s2, r1, x1, r2, x2. repeat split; assumption.
Defined.

Lemma eiGetRecord_accepts_iff_witness :
  exists s0 : sess,
    eiOpenRead (xor_session 16, w_side_file (replicate 31 65 ++ bytes ":x" ++ [10]))
    = (RS_RET_OK, s0) /\
    fst (fst (fst (eiGetRecord (replicate 32 0) (replicate 1024 0) s0))) = RS_RET_ERR.
Proof.
  destruct (eiOpenRead_reading (xor_session 16)
              (w_side_file (replicate 31 65 ++ bytes ":x" ++ [10]))
              (new_file (replicate 31 65 ++ bytes ":x" ++ [10])))
    as (s0 & Hopen & Hs0 & Hp0 & _); [reflexivity .. |].
  exists s0. split; [exact Hopen |].
  destruct (eiGetRecord_accepts_iff (replicate 31 65) (bytes "x") [] (replicate 32 0)
              (replicate 1024 0) s0 Hs0 Hp0)
    as [Hiff [Hok | Herr]].
  - apply Forall_app. split; [apply Forall_replicate | repeat constructor]; unfold is_byte; cbn; lia.
  - intros H. apply elem_of_replicate in H as [H _]. discriminate.
  - intros H; apply list_elem_of_In in H; vm_compute in H; intuition discriminate.
  - intros H. apply elem_of_app in H as [H | H].
    + apply elem_of_replicate in H as [H _]. discriminate.
    + apply list_elem_of_In in H; vm_compute in H; intuition discriminate.
  - by_eval.
  - by_eval.
  - apply Hiff in Hok as [Hlen _]. vm_compute in Hlen. discriminate.
  - exact Herr.
Defined.

Lemma eiGetIV_rejects_other_record_witness :
  fst (read_iv_record [170] 1 (xor_session 16, w_side_file (bytes "END:5" ++ [10])))
  = (RS_RET_ERR, [170]).
Proof.
  destruct (eiOpenRead_reading (xor_session 16) (w_side_file (bytes "END:5" ++ [10]))
              (new_file (bytes "END:5" ++ [10])))
    as (s0 & Hopen & Hs0 & Hp0 & _); [reflexivity .. |].
  destruct (eiGetIV_rejects_other_record (bytes "END") (bytes "5") [] [170] 1 s0 Hs0 Hp0)
    as (s' & Hrun & _).
  - vm_compute. discriminate.
  - repeat constructor; unfold is_byte; cbn; lia.
  - intros H; apply list_elem_of_In in H; vm_compute in H; intuition discriminate.
  - intros H; apply list_elem_of_In in H; vm_compute in H; intuition discriminate.
  - by_eval.
  - by_eval.
  - unfold read_iv_record, bind. rewrite Hopen, Hrun. reflexivity.
Defined.

Lemma eiGetIV_accepts_iff_witness :
  fst (fst (read_iv_record [170] 1 (xor_session 16, w_iv [48; 97; 0; 122; 122]))) = RS_RET_OK.
Proof.
  destruct (eiOpenRead_reading (xor_session 16) (w_iv [48; 97; 0; 122; 122])
              (new_file (bytes "IV:" ++ [48; 97; 0; 122; 122] ++ [10])))
    as (s0 & Hopen & Hs0 & Hp0 & _); [reflexivity .. |].
  unfold read_iv_record, bind. rewrite Hopen.
  destruct (eiGetIV_accepts_iff (bytes "IV") [48; 97; 0; 122; 122] [] [170] 1 s0 Hs0 Hp0)
    as [Hiff _].
  - repeat constructor; unfold is_byte; cbn; lia.
  - intros H; apply list_elem_of_In in H; vm_compute in H; intuition discriminate.
  - intros H; apply list_elem_of_In in H; vm_compute in H; intuition discriminate.
  - lia.
  - apply Hiff. split; [by_eval |]. split; [by_eval |]. split; [reflexivity |].
    split; [reflexivity |].
    change (c_str [48; 97; 0; 122; 122]) with [48; 97].
    repeat constructor; unfold is_lower_hex; lia.
Defined.

Lemma rsgcryInitCrypt_read_waits_witness :
  rsgcryInitCrypt (G := xor_cipher) maxfname 1000 keyed_ctx "log" 114 (boot []) = None.
Proof.
  apply (rsgcryInitCrypt_read_waits (G := xor_cipher) maxfname keyed_ctx "log" (boot [])
           xor_opened xor_keyed); reflexivity.
Defined.

Lemma readIV_wait_until_created_witness :
  exists s' : sess,
    readIV_wait 3 (xor_session 16, w_writer_later) = Some (RS_RET_OK, s') /\
    sleeps (w_trace (snd s')) = 2%nat /\
    pending s' = filetype_line.
Proof.
  destruct (readIV_wait_until_created 3 (xor_session 16) w_writer_later filetype_line
              [("other.log"%string, bytes "x")] [])
    as (s' & Hrun & Hsleeps & _ & Hpend & _).
  - repeat split.
  - reflexivity.
  - reflexivity.
  - repeat constructor. discriminate.
  - cbn. lia.
  - exists s'. split; [exact Hrun |]. split; [exact Hsleeps | exact Hpend].
Defined.

Lemma seedIV_source_witness :
  exists w' : world,
    seedIV (xor_session 16, w_urandom) = (Some (replicate 16 7), (xor_session 16, w')) /\
    w_fds w' = w_fds w_urandom.
Proof.
  destruct (seedIV_source (xor_session 16) w_urandom)
    as (iv & w' & Hrun & _ & _ & Hdev & _); [by_eval |].
  destruct (Hdev (new_file (replicate 64 7))) as [-> Hfds]; [reflexivity | reflexivity | by_eval .. |].
  exists w'. split; [exact Hrun | exact Hfds].
Defined.

Lemma removePadding_compacts_witness :
  exists buf' : list Z,
    removePadding [72; 0; 105; 0; 0; 9] (2 ^ 32 + 5) = (buf', 2) /\ take 2 buf' = [72; 105].
Proof.
  destruct (removePadding_compacts [72; 0; 105; 0; 0; 9] (2 ^ 32 + 5))
    as (buf' & len' & Hrun & _ & Hfront & _).
  - vm_compute. discriminate.
  - apply list_elem_of_In. vm_compute. tauto.
  - assert (len' = 2) as -> by (vm_compute in Hrun; congruence).
    exists buf'. split; [exact Hrun | exact Hfront].
Defined.

Lemma rsgcryEncrypt_pads_in_place_witness :
  exists buf' : list Z,
    rsgcryEncrypt (xor_session 16) ([1; 2; 3; 4; 5] ++ replicate 20 9) 5
    = Some (RS_RET_OK, xor_session 16, buf', 16) /\
    drop 16 buf' = replicate 9 9.
Proof.
  destruct (rsgcryEncrypt_pads_in_place (xor_session 16) ([1; 2; 3; 4; 5] ++ replicate 20 9) 5
              0 (gf_chd (xor_session 16))
              (xor_stream (gf_chd (xor_session 16)) ([1; 2; 3; 4; 5] ++ replicate 11 0)))
    as (buf' & len' & Hrun & _ & _ & _ & Hback & _).
  - by_eval.
  - lia.
  - by_eval.
  - by_eval.
  - reflexivity.
  - assert (len' = 16) as ->.
    { unfold rsgcryEncrypt in Hrun.
      destruct (addPadding (xor_session 16) ([1; 2; 3; 4; 5] ++ replicate 20 9) 5)
        as [[b l] |] eqn:Hpad; [| discriminate].
      assert (l = 16) as -> by (vm_compute in Hpad; congruence).
      cbn [mbind option_bind andb Z.eqb] in Hrun.
      destruct (gcry_cipher_encrypt _ _) as [[e0 h0] o0].
      destruct (bool_decide (e0 ≠ 0)); congruence. }
    exists buf'. split; [exact Hrun | exact Hback].
Defined.


Lemma configured_valid_witness :
  ctx_algo (snd (rsgcrySetAlgo (fun _ => GCRY_CIPHER_NONE)
                   (snd (rsgcrySetKey (G := xor_cipher) gcryCtxNew (replicate 16 90) 16))
                   (bytes "rot13")))
  ≠ GCRY_CIPHER_NONE.
Proof.
  apply (configured_valid (G := xor_cipher) (fun _ => GCRY_CIPHER_MODE_NONE)
           (fun _ => GCRY_CIPHER_NONE)).
  apply cfg_algo, cfg_key, cfg_new.
Defined.
